(** * A shallow embedding of the digitalarchive client (models.py, matching.py)

    Values are the Python objects the library handles: JSON-like data
    coming from the archive, the [UnhydratedField] sentinel, calendar dates
    and parsed entity instances.  A Python dict is an association list in
    insertion order.  Raising is [None] (or [Exc e] where the exception
    class matters). *)

From Stdlib Require Import String Ascii List ZArith Bool Lia.
Import ListNotations.
Local Open Scope string_scope.
Local Open Scope Z_scope.
Local Set Warnings "-register-all".

(** ** Entity kinds (the concrete dataclasses of models.py) *)

Inductive kind :=
| Subject | Language | Transcript | Translation | MediaFile | Contributor
| Donor | Coverage | Collection | Repository | Publisher | Type_ | Right
| Classification | Document | Theme.

Definition kind_eqb (a b : kind) : bool :=
  match a, b with
  | Subject, Subject | Language, Language | Transcript, Transcript
  | Translation, Translation | MediaFile, MediaFile
  | Contributor, Contributor | Donor, Donor | Coverage, Coverage
  | Collection, Collection | Repository, Repository
  | Publisher, Publisher | Type_, Type_ | Right, Right
  | Classification, Classification | Document, Document | Theme, Theme => true
  | _, _ => false
  end.

Lemma kind_eqb_spec (a b : kind) : kind_eqb a b = true <-> a = b.
Proof. destruct a, b; simpl; split; congruence. Qed.

(** ** Python values *)

Inductive val :=
| VSentinel                       (* the class object [UnhydratedField] *)
| VNone
| VInt (z : Z)
| VStr (s : string)
| VDate (y m d : Z)               (* datetime.date *)
| VDateTime (y m d : Z) (time : string)   (* datetime.datetime *)
| VList (l : list val)
| VDict (d : list (string * val))
| VEnt (k : kind) (d : list (string * val)).  (* an instance: its class and __dict__ *)

Definition dict := list (string * val).

(** *** Dict operations *)

Fixpoint dget (key : string) (d : dict) : option val :=
  match d with
  | [] => None
  | (k, v) :: r => if String.eqb k key then Some v else dget key r
  end.

Definition dmem (key : string) (d : dict) : bool :=
  match dget key d with Some _ => true | None => false end.

(** [d[key] = v]: update in place, or append a new key at the end. *)
Fixpoint dset (key : string) (v : val) (d : dict) : dict :=
  match d with
  | [] => [(key, v)]
  | (k, w) :: r => if String.eqb k key then (k, v) :: r else (k, w) :: dset key v r
  end.

(** [d.pop(key)] *)
Fixpoint dpop (key : string) (d : dict) : option (val * dict) :=
  match d with
  | [] => None
  | (k, w) :: r =>
      if String.eqb k key then Some (w, r)
      else match dpop key r with
           | Some (v, r') => Some (v, (k, w) :: r')
           | None => None
           end
  end.

Definition keys (d : dict) : list string := map fst d.

(** *** Small option monad for code that raises *)

Definition obind {A B} (m : option A) (f : A -> option B) : option B :=
  match m with Some a => f a | None => None end.
Notation "x <- m ;; k" := (obind m (fun x => k))
  (at level 61, m at next level, right associativity).

Fixpoint otraverse {A B} (f : A -> option B) (l : list A) : option (list B) :=
  match l with
  | [] => Some []
  | a :: r => b <- f a ;; bs <- otraverse f r ;; Some (b :: bs)
  end.

(** *** Python built-ins on values *)

(** [len(v)] *)
Definition py_len (v : val) : option nat :=
  match v with
  | VList l => Some (length l)
  | VStr s => Some (String.length s)
  | VDict d => Some (length d)
  | _ => None
  end.

Fixpoint chars (s : string) : list val :=
  match s with
  | EmptyString => []
  | String c r => VStr (String c EmptyString) :: chars r
  end.

(** [iter(v)] *)
Definition py_iter (v : val) : option (list val) :=
  match v with
  | VList l => Some l
  | VStr s => Some (chars s)
  | VDict d => Some (map (fun p => VStr (fst p)) d)
  | _ => None
  end.

(** [v[0]]: IndexError on an empty sequence, KeyError on a dict with string keys. *)
Definition py_index0 (v : val) : option val :=
  match v with
  | VList (x :: _) => Some x
  | VStr (String c _) => Some (VStr (String c EmptyString))
  | _ => None
  end.

(** Python truthiness, as used by [if kwargs.get(...)]. *)
Definition truthy (v : val) : bool :=
  match v with
  | VNone => false
  | VInt z => negb (z =? 0)
  | VStr s => negb (String.eqb s "")
  | VList l => match l with [] => false | _ => true end
  | VDict d => match d with [] => false | _ => true end
  | _ => true
  end.

(** [**v] in a call: the value must be a mapping. *)
Definition as_kwargs (v : val) : option dict :=
  match v with VDict d => Some d | _ => None end.

Definition is_dict (v : val) : bool :=
  match v with VDict _ => true | _ => false end.

Definition is_kind (k : kind) (v : val) : bool :=
  match v with VEnt k' _ => kind_eqb k' k | _ => false end.

(** *** Decimal strings and [int(...)] *)

Definition digit_char (n : Z) : ascii := ascii_of_nat (48 + Z.to_nat n).

Fixpoint digits_aux (fuel : nat) (n : Z) (acc : string) : string :=
  match fuel with
  | O => acc
  | S f =>
      let acc' := String (digit_char (n mod 10)) acc in
      if n / 10 =? 0 then acc' else digits_aux f (n / 10) acc'
  end.

(** [str(n)] for a Python int. *)
Definition str_of_Z (n : Z) : string :=
  if n <? 0 then "-" ++ digits_aux (S (Z.to_nat (Z.log2 (- n)))) (- n) ""
  else digits_aux (S (Z.to_nat (Z.log2 n))) n "".

(** [strftime('%m')] and [strftime('%d')]: two digits, zero padded. *)
Definition two_digits (n : Z) : string :=
  if n <? 10 then "0" ++ str_of_Z n else str_of_Z n.

Definition is_digit (c : ascii) : bool :=
  let n := nat_of_ascii c in (48 <=? n)%nat && (n <=? 57)%nat.

Definition is_space (c : ascii) : bool :=
  let n := nat_of_ascii c in (n =? 32)%nat || ((9 <=? n)%nat && (n <=? 13)%nat).

Fixpoint strip_left (s : string) : string :=
  match s with
  | String c r => if is_space c then strip_left r else s
  | EmptyString => s
  end.

Fixpoint rev_string (s : string) (acc : string) : string :=
  match s with
  | EmptyString => acc
  | String c r => rev_string r (String c acc)
  end.

Definition strip (s : string) : string :=
  rev_string (strip_left (rev_string (strip_left s) "")) "".

(** Digits with single underscores between them, as [int()] reads them. *)
Fixpoint read_digits (s : string) (acc : Z) (after_digit : bool) : option Z :=
  match s with
  | EmptyString => if after_digit then Some acc else None
  | String c r =>
      if is_digit c then read_digits r (10 * acc + Z.of_nat (nat_of_ascii c - 48)) true
      else if Ascii.eqb c "_"%char then
        (if after_digit then read_digits r acc false else None)
      else None
  end.

(** [int(s)] on a str: surrounding whitespace, an optional sign, decimal digits. *)
Definition py_int (s : string) : option Z :=
  match strip s with
  | String c r =>
      if Ascii.eqb c "-"%char then option_map Z.opp (read_digits r 0 false)
      else if Ascii.eqb c "+"%char then read_digits r 0 false
      else read_digits (String c r) 0 false
  | EmptyString => None
  end.

(** [s[:n]], [s[i:j]] and [s[-2:]] *)
Definition slice_to (n : nat) (s : string) : string := substring 0 n s.
Definition slice (i j : nat) (s : string) : string := substring i (j - i) s.
Definition slice_last2 (s : string) : string :=
  substring (String.length s - 2) 2 s.

(** *** datetime.date *)

Definition is_leap (y : Z) : bool :=
  ((y mod 4 =? 0) && negb (y mod 100 =? 0)) || (y mod 400 =? 0).

Definition days_in_month (y m : Z) : Z :=
  if (m =? 2) then (if is_leap y then 29 else 28)
  else if (m =? 4) || (m =? 6) || (m =? 9) || (m =? 11) then 30 else 31.

(** [date(y, m, d)]: ValueError outside MINYEAR..MAXYEAR or the calendar. *)
Definition py_date (y m d : Z) : option val :=
  if (1 <=? y) && (y <=? 9999) && (1 <=? m) && (m <=? 12)
     && (1 <=? d) && (d <=? days_in_month y m)
  then Some (VDate y m d) else None.

(** [datetime.fromisoformat(s)]: the date part [YYYY-MM-DD] is checked and
    parsed; whatever follows a [T] or space separator is kept as the time. *)
Definition py_fromisoformat (s : string) : option val :=
  let ok_sep := match get 4 s, get 7 s with
                | Some c1, Some c2 => Ascii.eqb c1 "-"%char && Ascii.eqb c2 "-"%char
                | _, _ => false end in
  let rest := substring 10 (String.length s - 10) s in
  let ok_rest := match rest with
                 | EmptyString => true
                 | String c _ => Ascii.eqb c "T"%char || Ascii.eqb c " "%char end in
  if ok_sep && ok_rest then
    y <- read_digits (slice_to 4 s) 0 false ;;
    m <- read_digits (slice 5 7 s) 0 false ;;
    d <- read_digits (slice 8 10 s) 0 false ;;
    dt <- py_date y m d ;;
    match dt with
    | VDate y m d => Some (VDateTime y m d rest)
    | _ => None
    end
  else None.

(** [Document._parse_date_range_start(doc_date)] *)
Definition _parse_date_range_start (doc_date : val) : option val :=
  match doc_date with
  | VStr s =>
      y <- py_int (slice_to 4 s) ;;
      m <- py_int (slice 4 6 s) ;;
      d <- py_int (slice_last2 s) ;;
      py_date y m d
  | _ => None
  end.

(** The f-string [f"{d.year}{d.strftime('%m')}{d.strftime('%d')}"]. *)
Definition format_date (y m d : Z) : string :=
  str_of_Z y ++ two_digits m ++ two_digits d.

(** ** Dataclass schemas

    [None] marks a required field, [Some v] a field with default [v].
    Field order is the dataclass field order (inherited [id] first). *)

Definition req (f : string) : string * option val := (f, None).
Definition opt (f : string) : string * option val := (f, Some VSentinel).
Definition endpoint_field (e : string) : string * option val := ("endpoint", Some (VStr e)).

Definition asset_fields : list (string * option val) :=
  [req "id"; req "filename"; req "content_type"; req "extension"; req "asset_id";
   req "source_created_at"; req "source_updated_at"].

Definition schema (k : kind) : list (string * option val) :=
  match k with
  | Subject => [req "id"; req "name"; opt "value"; opt "uri"; endpoint_field "subject"]
  | Language => [req "id"; opt "name"]
  | Transcript => (asset_fields ++ [req "url"; opt "html"; opt "pdf"; opt "raw"])%list
  | Translation => (asset_fields ++ [req "url"; req "language"; opt "html"; opt "pdf"; opt "raw"])%list
  | MediaFile => (asset_fields ++ [req "path"; opt "raw"; opt "pdf"])%list
  | Contributor => [req "id"; req "name"; opt "value"; opt "uri"; endpoint_field "contributor"]
  | Donor => [req "id"; req "name"; endpoint_field "donor"]
  | Coverage => [req "id"; req "name"; req "uri"; opt "value"; opt "parent"; opt "children";
                 endpoint_field "coverage"]
  | Collection => [req "id"; req "name"; req "slug"; opt "uri"; opt "parent"; opt "model";
                   opt "value"; opt "description"; opt "short_description"; opt "main_src";
                   opt "thumb_src"; opt "no_of_documents"; opt "is_inactive";
                   opt "source_created_at"; opt "source_updated_at"; opt "first_published_at";
                   endpoint_field "collection"]
  | Repository => [req "id"; req "name"; opt "uri"; opt "value"; endpoint_field "repository"]
  | Publisher => [req "id"; req "name"; req "value"; endpoint_field "publisher"]
  | Type_ => [req "id"; req "name"]
  | Right => [req "id"; req "name"; req "rights"]
  | Classification => [req "id"; req "name"]
  | Document => [req "id"; req "uri"; req "title"; req "description"; req "doc_date";
                 req "frontend_doc_date"; req "slug"; req "source_created_at";
                 req "source_updated_at"; req "first_published_at";
                 opt "source"; opt "type"; opt "rights"; opt "pdf_generated_at";
                 opt "date_range_start"; opt "sort_string_by_coverage"; opt "main_src";
                 opt "model"; opt "donors"; opt "subjects"; opt "transcripts";
                 opt "translations"; opt "media_files"; opt "languages"; opt "contributors";
                 opt "creators"; opt "original_coverages"; opt "collections";
                 opt "attachments"; opt "links"; opt "repositories"; opt "publishers";
                 opt "classifications"; endpoint_field "record"]
  | Theme => [req "id"; req "slug"; opt "title"; opt "value"; opt "description";
              opt "main_src"; opt "uri"; opt "featured_resources"; opt "has_map";
              opt "has_timeline"; opt "featured_collections"; opt "dates_with_events";
              endpoint_field "theme"]
  end.

(** [cls.__dataclass_fields__.keys()] *)
Definition dataclass_fields (k : kind) : list string := map fst (schema k).

Definition in_list (x : string) (l : list string) : bool :=
  existsb (String.eqb x) l.

(** The class attribute [cls.endpoint] (AttributeError where it is absent). *)
Definition class_endpoint (k : kind) : option string :=
  match k with
  | Subject => Some "subject" | Contributor => Some "contributor" | Donor => Some "donor"
  | Coverage => Some "coverage" | Collection => Some "collection"
  | Repository => Some "repository" | Publisher => Some "publisher"
  | Document => Some "record" | Theme => Some "theme"
  | _ => None
  end.

(** The generated [__init__]: unknown keyword or missing required field is a
    TypeError; fields are set in declaration order. *)
Definition assign (sch : list (string * option val)) (kw : dict) : option dict :=
  otraverse (fun '(f, dflt) =>
               match dget f kw with
               | Some v => Some (f, v)
               | None => option_map (fun v => (f, v)) dflt
               end) sch.

(** ** [__post_init__] of each kind, field by field

    [mk k d] stands for the call [k( **d)] of a nested constructor. *)
Section PostInit.
Variable mk : kind -> dict -> option val.

Definition mk_from (k : kind) (v : val) : option val :=
  d <- as_kwargs v ;; mk k d.

(** TimestampsMixin._process_timestamps, for one field *)
Definition process_timestamp (v : val) : option val :=
  match v with VStr s => py_fromisoformat s | _ => Some v end.

Definition is_timestamp_field (f : string) : bool :=
  in_list f ["source_created_at"; "source_updated_at"; "first_published_at"].

(** Coverage.__post_init__, parent *)
Definition coverage_parent (v : val) : option val :=
  let v1 := match v with VList _ => VNone | _ => v end in
  if is_kind Coverage v1 then Some v1
  else match v1 with
       | VNone | VSentinel => Some v1
       | _ => mk_from Coverage v1
       end.

(** Coverage.__post_init__, children:
    [if not (children is UnhydratedField or isinstance(children[0], Coverage))] *)
Definition coverage_children (v : val) : option val :=
  match v with
  | VSentinel => Some v
  | _ =>
      first <- py_index0 v ;;
      if is_kind Coverage first then Some v
      else items <- py_iter v ;;
           parsed <- otraverse (mk_from Coverage) items ;;
           Some (VList parsed)
  end.

(** Document._parse_child_records: the [child_fields] table *)
Definition child_kind (f : string) : option kind :=
  if String.eqb f "subjects" then Some Subject
  else if String.eqb f "transcripts" then Some Transcript
  else if String.eqb f "media_files" then Some MediaFile
  else if String.eqb f "languages" then Some Language
  else if String.eqb f "creators" then Some Contributor
  else if String.eqb f "collections" then Some Collection
  else if String.eqb f "attachments" then Some Document
  else if String.eqb f "links" then Some Document
  else if String.eqb f "publishers" then Some Publisher
  else if String.eqb f "translations" then Some Translation
  else if String.eqb f "contributors" then Some Contributor
  else if String.eqb f "original_coverages" then Some Coverage
  else if String.eqb f "repositories" then Some Repository
  else if String.eqb f "classifications" then Some Classification
  else if String.eqb f "donors" then Some Donor
  else if String.eqb f "type" then Some Type_
  else if String.eqb f "rights" then Some Right
  else None.

(** One iteration of the loop of Document._parse_child_records *)
Definition parse_child (ck : kind) (v : val) : option val :=
  match v with
  | VSentinel => Some v
  | VDict d => mk ck d
  | _ =>
      if is_kind Right v then Some v
      else n <- py_len v ;;
           if (n =? 0)%nat then Some v
           else sample <- py_index0 v ;;
                if is_dict sample then
                  items <- py_iter v ;;
                  parsed <- otraverse (mk_from ck) items ;;
                  Some (VList parsed)
                else Some v
  end.

(** Theme.__post_init__ *)
Definition theme_featured (v : val) : option val :=
  match v with
  | VSentinel => Some v
  | _ =>
      items <- py_iter v ;;
      parsed <- otraverse (fun c => if is_kind Collection c then Some c
                                    else mk_from Collection c) items ;;
      Some (VList parsed)
  end.

(** The effect of [k.__post_init__] on field [f] holding [v]. *)
Definition norm (k : kind) (f : string) (v : val) : option val :=
  match k with
  | Coverage =>
      if String.eqb f "parent" then coverage_parent v
      else if String.eqb f "children" then coverage_children v
      else Some v
  | Collection =>
      if is_timestamp_field f then process_timestamp v else Some v
  | Document =>
      match child_kind f with
      | Some ck => parse_child ck v
      | None =>
          if is_timestamp_field f then process_timestamp v
          else if String.eqb f "date_range_start" then
            match v with VStr _ => _parse_date_range_start v | _ => Some v end
          else Some v
      end
  | Theme =>
      if String.eqb f "featured_collections" then theme_featured v else Some v
  | Translation =>
      if String.eqb f "language" then mk_from Language v else Some v
  | _ => Some v
  end.

(** [__post_init__]: every field normalised; MediaFile also sets [self.url = self.path]. *)
Definition post_init (k : kind) (fs : dict) : option dict :=
  fs' <- otraverse (fun '(f, v) => option_map (fun w => (f, w)) (norm k f v)) fs ;;
  match k with
  | MediaFile => p <- dget "path" fs' ;; Some (fs' ++ [("url", p)])%list
  | _ => Some fs'
  end.

End PostInit.

(** [k( **kw)]: the instance's [__dict__], or [None] when construction raises.
    [fuel] bounds the nesting depth of entities built from nested dicts. *)
Fixpoint construct (fuel : nat) (k : kind) (kw : dict) : option dict :=
  match fuel with
  | O => None
  | S n =>
      if forallb (fun p => in_list (fst p) (dataclass_fields k)) kw then
        fs <- assign (schema k) kw ;;
        post_init (fun k' d => option_map (VEnt k') (construct n k' d)) k fs
      else None
  end.

Fixpoint val_depth (v : val) : nat :=
  match v with
  | VList l => S (fold_right (fun x acc => Nat.max (val_depth x) acc) O l)
  | VDict d | VEnt _ d => S (fold_right (fun p acc => Nat.max (val_depth (snd p)) acc) O d)
  | _ => O
  end.

(** The Python call [k( **kw)]: the fuel is the nesting depth of the input,
    enough for every nested constructor call. *)
Definition new (k : kind) (kw : dict) : option dict :=
  construct (S (val_depth (VDict kw))) k kw.

Example new_coverage_parent_list :
  new Coverage [("id", VStr "1"); ("name", VStr "n"); ("uri", VStr "u"); ("parent", VList [])]
  = Some [("id", VStr "1"); ("name", VStr "n"); ("uri", VStr "u"); ("value", VSentinel);
          ("parent", VNone); ("children", VSentinel); ("endpoint", VStr "coverage")].
Proof. reflexivity. Qed.

Definition doc_kw : dict :=
  [("id", VStr "1"); ("uri", VStr "u"); ("title", VStr "t"); ("description", VStr "d");
   ("doc_date", VStr "19890415"); ("frontend_doc_date", VStr "x"); ("slug", VStr "s");
   ("source_created_at", VStr "2019-01-02T10:00:00"); ("source_updated_at", VStr "2019-01-02");
   ("first_published_at", VNone); ("date_range_start", VStr "19890415");
   ("subjects", VList [VDict [("id", VStr "7"); ("name", VStr "China")]]);
   ("languages", VList [])].

Example new_document_parses_children :
  option_map (fun d => (dget "subjects" d, dget "languages" d, dget "date_range_start" d,
                        dget "source_created_at" d)) (new Document doc_kw)
  = Some (Some (VList [VEnt Subject [("id", VStr "7"); ("name", VStr "China");
                                     ("value", VSentinel); ("uri", VSentinel);
                                     ("endpoint", VStr "subject")]]),
          Some (VList []), Some (VDate 1989 4 15),
          Some (VDateTime 2019 1 2 "T10:00:00")).
Proof. reflexivity. Qed.

(** ** Exceptions, the transport and the effect monad *)

Inductive exc :=
| InvalidSearchFieldError | MalformedDateSearch | MalformedLanguageSearch
| TypeError | KeyError | IndexError | AttributeError | ValueError | StopIteration
| Unmodelled (* str() of a value outside the scalars the embedding renders *).

Inductive res (A : Type) := Ok (a : A) | Exc (e : exc).
Arguments Ok {A} a.
Arguments Exc {A} e.

(** The HTTP collaborator of [digitalarchive.api], seen as fixed answers. *)
Record transport := {
  api_search : string -> dict -> val;     (* api.search(model=..., params=...) *)
  api_get : val -> val -> val;            (* api.get(endpoint=..., resource_id=...) *)
  api_get_date_range : val;               (* api.get_date_range() *)
  today : Z * Z * Z                       (* date.today() *)
}.

(** Every network request, in the order it is issued. *)
Inductive event :=
| ESearch (endpoint : string) (params : dict)
| EGet (endpoint : val) (resource_id : val)
| EDateRange.

Definition M (A : Type) : Type := list event -> res A * list event.

Definition ret {A} (a : A) : M A := fun log => (Ok a, log).
Definition raise {A} (e : exc) : M A := fun log => (Exc e, log).
Definition bind {A B} (m : M A) (f : A -> M B) : M B :=
  fun log => match m log with
             | (Ok a, log') => f a log'
             | (Exc e, log') => (Exc e, log')
             end.
Notation "x <-- m ; k" := (bind m (fun x => k))
  (at level 61, m at next level, right associativity).
Notation "m ;;; k" := (bind m (fun _ => k)) (at level 61, right associativity).

(** A Python operation that raises [e] where the model has [None]. *)
Definition lift {A} (e : exc) (o : option A) : M A :=
  match o with Some a => ret a | None => raise e end.

Definition emit (ev : event) : M unit := fun log => (Ok tt, log ++ [ev])%list.

Section Transport.
Variable tr : transport.

Definition search (endpoint : string) (params : dict) : M val :=
  emit (ESearch endpoint params) ;;; ret (api_search tr endpoint params).

Definition get (endpoint resource_id : val) : M val :=
  emit (EGet endpoint resource_id) ;;; ret (api_get tr endpoint resource_id).

Definition get_date_range : M val :=
  emit EDateRange ;;; ret (api_get_date_range tr).

(** ** Hydration (HydrateMixin.pull / HydrateMixin.hydrate, Document.hydrate) *)

(** [self.__init__( **data)] after [api.get]; Theme.pull keys on [slug]. *)
Definition pull (k : kind) (self : dict) : M dict :=
  ep <-- lift AttributeError (dget "endpoint" self) ;
  rid <-- lift AttributeError (dget (match k with Theme => "slug" | _ => "id" end) self) ;
  data <-- get ep rid ;
  kw <-- lift TypeError (as_kwargs data) ;
  lift TypeError (new k kw).

(** The merge loop:
    [for key, value in unhydrated_fields.items():
       if hydrated_fields.get(key) is UnhydratedField: hydrated_fields[key] = value] *)
Definition merge_step (hydrated_fields : dict) (item : string * val) : dict :=
  let '(key, value) := item in
  match dget key hydrated_fields with
  | Some VSentinel => dset key value hydrated_fields
  | _ => hydrated_fields
  end.

Definition merge (unhydrated hydrated : dict) : dict :=
  fold_left merge_step unhydrated hydrated.

(** [hydrate()] ([recurse=False] for Document): snapshot, pull, merge, re-init. *)
Definition hydrate (k : kind) (self : dict) : M dict :=
  hydrated <-- pull k self ;
  lift TypeError (new k (merge self hydrated)).

End Transport.

(** The kinds whose [hydrate] is HydrateMixin.hydrate (or Document.hydrate);
    the Asset family overrides it with a content download. *)
Definition hydratable (k : kind) : bool :=
  match k with
  | Subject | Contributor | Coverage | Collection | Repository | Document | Theme => true
  | _ => false
  end.

(** The merge law as the spec writes it: [post[f] if post[f] != SENTINEL else pre[f]]. *)
Definition merge_spec (pre post : dict) (f : string) : option val :=
  match dget f post with
  | Some VSentinel => match dget f pre with Some v => Some v | None => Some VSentinel end
  | o => o
  end.

(** ** Identity of resources (Resource.__eq__ / Resource.__hash__) *)

(** Python [==] on the values held in [id]. *)
Fixpoint py_val_eq (a b : val) {struct a} : bool :=
  match a, b with
  | VSentinel, VSentinel | VNone, VNone => true
  | VInt x, VInt y => x =? y
  | VStr x, VStr y => String.eqb x y
  | VDate y1 m1 d1, VDate y2 m2 d2 => (y1 =? y2) && (m1 =? m2) && (d1 =? d2)
  | VDateTime y1 m1 d1 t1, VDateTime y2 m2 d2 t2 =>
      (y1 =? y2) && (m1 =? m2) && (d1 =? d2) && String.eqb t1 t2
  | VList l1, VList l2 =>
      (fix go (l1 l2 : list val) : bool :=
         match l1, l2 with
         | [], [] => true
         | x :: r1, y :: r2 => py_val_eq x y && go r1 r2
         | _, _ => false
         end) l1 l2
  | VDict d1, VDict d2 =>
      Nat.eqb (length d1) (length d2) &&
      (fix go (d : list (string * val)) : bool :=
         match d with
         | [] => true
         | (k, x) :: r => match dget k d2 with
                          | Some y => py_val_eq x y && go r
                          | None => false
                          end
         end) d1
  | VEnt k1 d1, VEnt k2 d2 =>
      kind_eqb k1 k2 &&
      (fix go (d : list (string * val)) : bool :=
         match d with
         | [] => false
         | (k, x) :: r => if String.eqb k "id" then
                            match dget "id" d2 with Some y => py_val_eq x y | None => false end
                          else go r
         end) d1
  | _, _ => false
  end.

(** A heap of instances; an object reference is an index into it. *)
Record obj := { okind : kind; odict : dict }.
Definition heap := list obj.

Definition deref (h : heap) (a : nat) : M obj := lift AttributeError (nth_error h a).
Definition getattr_id (o : obj) : M val := lift AttributeError (dget "id" (odict o)).

(** [Resource.__eq__(self, other)]; [None] is [NotImplemented]. *)
Definition resource_eq (h : heap) (self other : nat) : M (option bool) :=
  s <-- deref h self ;
  o <-- deref h other ;
  if negb (kind_eqb (okind s) (okind o)) then ret None
  else i1 <-- getattr_id s ; i2 <-- getattr_id o ; ret (Some (py_val_eq i1 i2)).

(** The [==] operator: the reflected [__eq__] on [NotImplemented], then identity. *)
Definition py_eq (h : heap) (a b : nat) : M bool :=
  r <-- resource_eq h a b ;
  match r with
  | Some x => ret x
  | None => r' <-- resource_eq h b a ;
            match r' with
            | Some x => ret x
            | None => ret (Nat.eqb a b)
            end
  end.

(** [hash(x)] = [Resource.__hash__] = [hash(self.id)], over the built-in [hash]. *)
Definition py_hash (builtin_hash : val -> Z) (h : heap) (a : nat) : M Z :=
  o <-- deref h a ; i <-- getattr_id o ; ret (builtin_hash i).

(** ** The matcher (matching.ResourceMatcher) *)

(** [d[key]] on a value: KeyError on a dict without the key, TypeError on a
    value that is not a dict. *)
Definition getitem (v : val) (key : string) : M val :=
  match v with VDict d => lift KeyError (dget key d) | _ => raise TypeError end.

(** [a <= b] on Python ints. *)
Definition py_le (a b : val) : option bool :=
  match a, b with VInt x, VInt y => Some (x <=? y) | _, _ => None end.

(** [page += 1] *)
Definition py_incr (v : val) : option val :=
  match v with VInt x => Some (VInt (x + 1)) | _ => None end.

(** [str(v)] for the scalar values record ids take. *)
Definition py_str (v : val) : option string :=
  match v with
  | VStr s => Some s
  | VInt z => Some (str_of_Z z)
  | VNone => Some "None"
  | _ => None
  end.

Fixpoint mtraverse {A B} (f : A -> M B) (l : list A) : M (list B) :=
  match l with
  | [] => ret []
  | a :: r => b <-- f a ; bs <-- mtraverse f r ; ret (b :: bs)
  end.

(** [self.model( **item)] for one item of a response list. *)
Definition parse_item (k : kind) (item : val) : M val :=
  kw <-- lift TypeError (as_kwargs item) ;
  d <-- lift TypeError (new k kw) ;
  ret (VEnt k d).

(** The result generator of a matcher.
    - [GExpr k items]: [(self.model( **item) for item in response["list"])],
      whose iterable is taken when the expression is evaluated;
    - [GStart k q resp]: [self._get_all_search_results(response)] before its first [next];
    - [GLoop k q page resp]: that generator at the test of its [while];
    - [GYield k q page resp rs]: inside its [for resource in resources: yield resource];
    - [GDone]: a finished or closed generator.
    [q] is [self.query] as the generator sees it: after [__init__] the
    generator is the only code that writes it. *)
Inductive gen :=
| GExpr (k : kind) (items : list val)
| GStart (k : kind) (q : dict) (resp : val)
| GLoop (k : kind) (q : dict) (page : val) (resp : val)
| GYield (k : kind) (q : dict) (page : val) (resp : val) (resources : list val)
| GDone.

(** One step of a generator: it yields a value, moves on internally, or returns. *)
Inductive step := Yield (v : val) (g : gen) | Continue (g : gen) | Stop.

Section Matcher.
Variable tr : transport.

Definition gen_step (g : gen) : M step :=
  match g with
  | GDone | GExpr _ [] => ret Stop
  | GExpr k (item :: r) => x <-- parse_item k item ; ret (Yield x (GExpr k r))
  | GStart k q resp =>
      (* page = response["pagination"]["page"] *)
      p <-- getitem resp "pagination" ; page <-- getitem p "page" ;
      ret (Continue (GLoop k q page resp))
  | GLoop k q page resp =>
      (* while page <= response["pagination"]["totalPages"]: *)
      p <-- getitem resp "pagination" ; total <-- getitem p "totalPages" ;
      le <-- lift TypeError (py_le page total) ;
      if le then
        let q' := dset "page" page q in
        ep <-- lift AttributeError (class_endpoint k) ;
        resp' <-- search tr ep q' ;
        items <-- getitem resp' "list" ;
        its <-- lift TypeError (py_iter items) ;
        resources <-- mtraverse (parse_item k) its ;
        ret (Continue (GYield k q' page resp' resources))
      else ret Stop
  | GYield k q page resp (x :: r) => ret (Yield x (GYield k q page resp r))
  | GYield k q page resp [] =>
      page' <-- lift TypeError (py_incr page) ; ret (Continue (GLoop k q page' resp))
  end.

(** [next(g)]: [Ok (Some v)] for a yielded value, [Ok None] for StopIteration;
    an exception closes the generator.  [fuel] bounds the internal steps. *)
Fixpoint gen_next (fuel : nat) (g : gen) (log : list event)
  : option (res (option val) * gen * list event) :=
  match fuel with
  | O => None
  | S n =>
      match gen_step g log with
      | (Ok (Yield v g'), log') => Some (Ok (Some v), g', log')
      | (Ok (Continue g'), log') => gen_next n g' log'
      | (Ok Stop, log') => Some (Ok None, GDone, log')
      | (Exc e, log') => Some (Exc e, GDone, log')
      end
  end.

(** [list(g)] *)
Fixpoint gen_drain (fuel : nat) (g : gen) (log : list event)
  : option (res (list val) * gen * list event) :=
  match fuel with
  | O => None
  | S n =>
      match gen_step g log with
      | (Ok (Yield v g'), log') =>
          match gen_drain n g' log' with
          | Some (Ok vs, g'', log'') => Some (Ok (v :: vs), g'', log'')
          | r => r
          end
      | (Ok (Continue g'), log') => gen_drain n g' log'
      | (Ok Stop, log') => Some (Ok [], GDone, log')
      | (Exc e, log') => Some (Exc e, GDone, log')
      end
  end.

(** *** [ResourceMatcher._process_date_searches] *)

(** One iteration of the formatting loop over [date_search_terms]. *)
Definition format_date_field (q : dict) (field : string) : M dict :=
  search_date <-- lift KeyError (dget field q) ;
  match search_date with
  | VDate y m d | VDateTime y m d _ => ret (dset field (VStr (format_date y m d)) q)
  | VStr s => if (String.length s =? 8)%nat then ret q else raise MalformedDateSearch
  | _ => raise MalformedDateSearch
  end.

(** [Document._parse_date_range_start(da_date_range["begin"])] *)
Definition earliest_date : M val :=
  da_date_range <-- get_date_range tr ;
  b <-- getitem da_date_range "begin" ;
  match b with
  | VStr _ => lift ValueError (_parse_date_range_start b)
  | _ => raise TypeError
  end.

(** The open-ended date search branch shared by both [_process_date_searches]. *)
Definition fill_open_end (q : dict) : M dict :=
  if dmem "start_date" q && negb (dmem "end_date" q) then
    let '(y, m, d) := today tr in ret (dset "end_date" (VDate y m d) q)
  else if dmem "end_date" q && negb (dmem "start_date" q) then
    start_date <-- earliest_date ; ret (dset "start_date" start_date q)
  else ret q.

Definition matcher_process_date_searches (k : kind) (q : dict) : M dict :=
  if negb (kind_eqb k Document) then raise InvalidSearchFieldError
  else q1 <-- fill_open_end q ;
       q2 <-- format_date_field q1 "start_date" ;
       format_date_field q2 "end_date".

(** [Document._process_date_searches(query)]: the same open end, then
    dates formatted, strings of another length and other types refused. *)
Definition Document_process_date_searches (q : dict) : M dict :=
  q1 <-- fill_open_end q ;
  q2 <-- format_date_field q1 "start_date" ;
  format_date_field q2 "end_date".

(** *** [ResourceMatcher._process_related_model_searches] *)

Definition multi_terms : list (string * string) :=
  [("collections", "collection"); ("publishers", "publisher");
   ("repositories", "repository"); ("original_coverages", "coverage");
   ("subjects", "subject"); ("contributors", "contributor"); ("donors", "donor");
   ("languages", "language"); ("translations", "translation"); ("themes", "theme")].

(** [self.query[value] = self.query.pop(key)] for each present plural key. *)
Definition rename_terms (q : dict) : dict :=
  fold_left (fun q '(key, value) =>
               match dpop key q with Some (v, q') => dset value v q' | None => q end)
            multi_terms q.

(** [str(item.id)] *)
Definition item_id_str (item : val) : M val :=
  match item with
  | VEnt _ d => i <-- lift AttributeError (dget "id" d) ;
                s <-- lift Unmodelled (py_str i) ; ret (VStr s)
  | _ => raise AttributeError
  end.

(** [self.query[term] = [str(item.id) for item in self.query[term]]] *)
Definition ids_of_term (q : dict) (term : string) : M dict :=
  v <-- lift KeyError (dget term q) ;
  items <-- lift TypeError (py_iter v) ;
  ids <-- mtraverse item_id_str items ;
  ret (dset term (VList ids) q).

(** The singleton unwrapping of [language], [translation] and [theme]. *)
Definition unwrap_single (q : dict) (term : string) : M dict :=
  if dmem term q then
    v <-- lift KeyError (dget term q) ;
    n <-- lift TypeError (py_len v) ;
    if (1 <? n)%nat then raise InvalidSearchFieldError
    else x <-- lift IndexError (py_index0 v) ; ret (dset term x q)
  else ret q.

Fixpoint mfold {A B} (f : A -> B -> M A) (a : A) (l : list B) : M A :=
  match l with
  | [] => ret a
  | b :: r => a' <-- f a b ; mfold f a' r
  end.

Definition process_related_model_searches (q : dict) : M dict :=
  let q1 := rename_terms q in
  let terms_to_parse := filter (fun t => dmem t q1) (map snd multi_terms) in
  q2 <-- mfold ids_of_term q1 terms_to_parse ;
  mfold unwrap_single q2 ["language"; "translation"; "theme"].

(** *** [ResourceMatcher.__init__] *)

Definition allowed_search_fields (k : kind) : list string :=
  (dataclass_fields k ++
   (if kind_eqb k Document then ["start_date"; "end_date"; "themes"] else []))%list.

Definition single_page_kind (k : kind) : bool :=
  match k with Subject | Repository | Contributor | Coverage => true | _ => false end.

(** The search branch of [__init__], from [self.query["itemsPerPage"] = items_per_page] on. *)
Definition matcher_search (k : kind) (items_per_page : val) (q : dict)
  : M (dict * val * gen) :=
  let q' := dset "itemsPerPage" items_per_page q in
  ep <-- lift AttributeError (class_endpoint k) ;
  response <-- search tr ep q' ;
  count <-- (if single_page_kind k then
               l <-- getitem response "list" ;
               n <-- lift TypeError (py_len l) ; ret (VInt (Z.of_nat n))
             else p <-- getitem response "pagination" ; getitem p "totalItems") ;
  ipp <-- lift KeyError (dget "itemsPerPage" q') ;
  le <-- lift TypeError (py_le count ipp) ;
  if le || kind_eqb k Subject then
    l <-- getitem response "list" ;
    items <-- lift TypeError (py_iter l) ;
    ret (q', count, GExpr k items)
  else ret (q', count, GStart k q' response).

(** The body of [__init__]: the final [self.query], [self.count] and [self.list]. *)
Definition matcher_init (k : kind) (items_per_page : val) (kwargs : dict)
  : M (dict * val * gen) :=
  q1 <-- (if dmem "start_date" kwargs || dmem "end_date" kwargs
          then matcher_process_date_searches k kwargs else ret kwargs) ;
  (if forallb (fun key => in_list key (allowed_search_fields k)) (keys q1)
   then ret tt else raise InvalidSearchFieldError) ;;;
  q2 <-- process_related_model_searches q1 ;
  match dget "id" q2 with
  | Some i =>
      if truthy i then
        (* self._record_by_id(), wrapped as {"list": [response]} *)
        ep <-- lift AttributeError (class_endpoint k) ;
        response <-- get tr (VStr ep) i ;
        ret (q2, VInt 1, GExpr k [response])
      else matcher_search k items_per_page q2
  | None => matcher_search k items_per_page q2
  end.

End Matcher.

(** *** Matcher objects and their generators

    Generators are objects: [self.list] holds a reference to one, and
    [all()] hands out that same reference.  The world keeps the request log
    and the generator objects; a reference is an index into [w_gens]. *)

Record world := { w_log : list event; w_gens : list gen }.

Record matcher := { model : kind; query : dict; count : val; list_ref : nat }.

Fixpoint set_nth {A} (n : nat) (x : A) (l : list A) : list A :=
  match n, l with
  | O, _ :: r => x :: r
  | S n', y :: r => y :: set_nth n' x r
  | _, [] => []
  end.

(** [ResourceMatcher(resource_model, items_per_page, **kwargs)] *)
Definition ResourceMatcher (tr : transport) (k : kind) (items_per_page : val) (kwargs : dict)
    (w : world) : res matcher * world :=
  match matcher_init tr k items_per_page kwargs (w_log w) with
  | (Ok (q, c, g), log') =>
      (Ok {| model := k; query := q; count := c; list_ref := length (w_gens w) |},
       {| w_log := log'; w_gens := (w_gens w ++ [g])%list |})
  | (Exc e, log') => (Exc e, {| w_log := log'; w_gens := w_gens w |})
  end.

(** [next(g)] on the generator object [r]. *)
Definition py_next (tr : transport) (fuel : nat) (r : nat) (w : world)
  : option (res val * world) :=
  g <- nth_error (w_gens w) r ;;
  match gen_next tr fuel g (w_log w) with
  | Some (o, g', log') =>
      Some (match o with
            | Ok (Some v) => Ok v
            | Ok None => Exc StopIteration
            | Exc e => Exc e
            end, {| w_log := log'; w_gens := set_nth r g' (w_gens w) |})
  | None => None
  end.

(** [list(g)] on the generator object [r]. *)
Definition py_list (tr : transport) (fuel : nat) (r : nat) (w : world)
  : option (res (list val) * world) :=
  g <- nth_error (w_gens w) r ;;
  match gen_drain tr fuel g (w_log w) with
  | Some (o, g', log') => Some (o, {| w_log := log'; w_gens := set_nth r g' (w_gens w) |})
  | None => None
  end.

(** [ResourceMatcher.first]: [next(self.list)] *)
Definition ResourceMatcher_first (tr : transport) (fuel : nat) (m : matcher) (w : world)
  : option (res val * world) :=
  py_next tr fuel (list_ref m) w.

(** [ResourceMatcher.all]: [return self.list], the generator object itself. *)
Definition ResourceMatcher_all (m : matcher) : nat := list_ref m.

(** *** [MatchingMixin.match] *)

Definition kwarg (f : string) (kw : dict) : val :=
  match dget f kw with Some v => v | None => VNone end.

(** [kwargs["term"] = kwargs.pop(f)] *)
Definition pop_to_term (f : string) (kw : dict) : M dict :=
  match dpop f kw with Some (v, kw') => ret (dset "term" v kw') | None => raise KeyError end.

(** The keyword arguments [MatchingMixin.match] passes on to the matcher. *)
Definition match_kwargs (k : kind) (kwargs : dict) : M dict :=
  if negb (forallb (fun key => in_list key (dataclass_fields k)) (keys kwargs))
  then raise InvalidSearchFieldError
  else if truthy (kwarg "name" kwargs) && truthy (kwarg "value" kwargs) then
    (* " ".join([kwargs.pop("name"), kwargs.pop("value")]) *)
    match dpop "name" kwargs with
    | Some (n, kw1) =>
        match dpop "value" kw1 with
        | Some (v, kw2) =>
            match n, v with
            | VStr a, VStr b => ret (dset "term" (VStr (a ++ " " ++ b)) kw2)
            | _, _ => raise TypeError
            end
        | None => raise KeyError
        end
    | None => raise KeyError
    end
  else if truthy (kwarg "name" kwargs) then pop_to_term "name" kwargs
  else if truthy (kwarg "value" kwargs) then pop_to_term "value" kwargs
  else ret kwargs.

(** [cls.match( **kwargs)] for the kinds that inherit MatchingMixin.match. *)
Definition MatchingMixin_match (tr : transport) (k : kind) (kwargs : dict) (w : world)
  : res matcher * world :=
  match match_kwargs k kwargs (w_log w) with
  | (Ok kw, log') => ResourceMatcher tr k (VInt 200) kw {| w_log := log'; w_gens := w_gens w |}
  | (Exc e, log') => (Exc e, {| w_log := log'; w_gens := w_gens w |})
  end.

(** [rs = K-matcher(...)] followed by [list(rs.all())], observed as
    [(rs.count, the drained list)]. *)
Definition matcher_count_and_all (tr : transport) (fuel : nat) (k : kind)
    (items_per_page : val) (kwargs : dict) : option (res (val * list val)) :=
  match ResourceMatcher tr k items_per_page kwargs {| w_log := []; w_gens := [] |} with
  | (Ok m, w) =>
      match py_list tr fuel (ResourceMatcher_all m) w with
      | Some (Ok xs, _) => Some (Ok (count m, xs))
      | Some (Exc e, _) => Some (Exc e)
      | None => None
      end
  | (Exc e, _) => Some (Exc e)
  end.

(** ** Sample servers *)

Definition w0 : world := {| w_log := []; w_gens := [] |}.

Definition two_items : list val :=
  [VDict [("id", VInt 1); ("name", VStr "A")]; VDict [("id", VInt 2); ("name", VStr "B")]].

(** A server whose search answer is a bare list, without [pagination]. *)
Definition list_only_tr : transport := {|
  api_search := fun _ _ => VDict [("list", VList two_items)];
  api_get := fun _ _ => VNone;
  api_get_date_range := VDict [("begin", VStr "19890414")];
  today := (2020, 1, 1) |}.

(** A server that pages a result list [R] by [ipp] and reports
    [page], [totalPages] and [totalItems] as the archive does. *)
Definition ceil_div (a b : Z) : Z := (a + b - 1) / b.

Definition page_slice (R : list val) (ipp p : Z) : list val :=
  firstn (Z.to_nat ipp) (skipn (Z.to_nat ((p - 1) * ipp)) R).

Definition requested_page (q : dict) : Z :=
  match dget "page" q with Some (VInt p) => p | _ => 1 end.

Definition paged_search (R : list val) (ipp : Z) (endpoint : string) (q : dict) : val :=
  VDict [("list", VList (page_slice R ipp (requested_page q)));
         ("pagination", VDict [("page", VInt (requested_page q));
                               ("totalPages", VInt (ceil_div (Z.of_nat (length R)) ipp));
                               ("totalItems", VInt (Z.of_nat (length R)))])].

Definition paged_tr (R : list val) (ipp : Z) : transport := {|
  api_search := paged_search R ipp;
  api_get := fun _ _ => VNone;
  api_get_date_range := VDict [("begin", VStr "19890414")];
  today := (2020, 1, 1) |}.

Definition donor_parsed : list val :=
  match fst (mtraverse (parse_item Donor) two_items []) with Ok l => l | Exc _ => [] end.


(** The matcher [Subject.match()]-style search over [list_only_tr]. *)
Definition subject_A : val :=
  VEnt Subject [("id", VInt 1); ("name", VStr "A"); ("value", VSentinel);
                ("uri", VSentinel); ("endpoint", VStr "subject")].
Definition subject_B : val :=
  VEnt Subject [("id", VInt 2); ("name", VStr "B"); ("value", VSentinel);
                ("uri", VSentinel); ("endpoint", VStr "subject")].

Definition subject_matcher : matcher :=
  {| model := Subject; query := [("itemsPerPage", VInt 200)]; count := VInt 2; list_ref := 0 |}.

Definition subject_world : world :=
  {| w_log := [ESearch "subject" [("itemsPerPage", VInt 200)]];
     w_gens := [GExpr Subject two_items] |}.

Definition subject_world_drained : world :=
  {| w_log := [ESearch "subject" [("itemsPerPage", VInt 200)]]; w_gens := [GDone] |}.

(** ** [Document.match] (models.py) *)

(** [x is None] *)
Definition is_none (v : val) : bool := match v with VNone => true | _ => false end.

(** [sep.join(l)]: TypeError on an item that is not a str. *)
Fixpoint py_join (sep : string) (l : list val) : option string :=
  match l with
  | [] => Some ""
  | [VStr s] => Some s
  | VStr s :: r => t <- py_join sep r ;; Some (s ++ sep ++ t)
  | _ => None
  end.

(** [Document._process_language_search(query)].  The [return] sits inside
    the [for] loop: the first language is checked and stored as a
    one-element list, and an empty list falls through to an implicit
    [return None]. *)
Definition Document_process_language_search (query : dict) : M (option dict) :=
  languages <-- lift KeyError (dget "languages" query) ;
  items <-- lift TypeError (py_iter languages) ;
  match items with
  | [] => ret None
  | language :: _ =>
      parsed <-- (if is_kind Language language then ret language
                  else match language with
                       | VStr s =>
                           if (String.length s =? 3)%nat then
                             d <-- lift TypeError (new Language [("id", VStr s)]) ;
                             ret (VEnt Language d)
                           else raise MalformedLanguageSearch
                       | _ => raise MalformedLanguageSearch
                       end) ;
      ret (Some (dset "languages" (VList [parsed]) query))
  end.

(** [Document._process_related_model_searches] has the body of
    [ResourceMatcher._process_related_model_searches]. *)
Definition Document_process_related_model_searches : dict -> M dict :=
  process_related_model_searches.

Definition document_match_allowed : list string :=
  (dataclass_fields Document ++ ["start_date"; "end_date"; "themes"])%list.

Definition related_search_fields : list string :=
  ["collections"; "publishers"; "repositories"; "original_coverages"; "subjects";
   "contributors"; "donors"; "languages"; "translations"; "themes"].

(** One turn of
    [if kwargs.get(field) is not None: keywords.append(kwargs.pop(field))]. *)
Definition take_keyword (acc : list val * dict) (field : string) : list val * dict :=
  let '(keywords, kw) := acc in
  match dpop field kw with
  | Some (v, kw') => if is_none v then acc else ((keywords ++ [v])%list, kw')
  | None => acc
  end.

(** [if field in kwargs.keys(): kwargs[f"{field}[]"] = kwargs.pop(field)] *)
Definition bracket_field (kw : dict) (field : string) : dict :=
  match dpop field kw with Some (v, kw') => dset (field ++ "[]") v kw' | None => kw end.

(** The keyword arguments [Document.match] passes to the matcher. *)
Definition Document_match_kwargs (tr : transport) (kwargs : dict) : M dict :=
  let kw0 := dset "model" (VStr "Record") kwargs in
  (if forallb (fun key => in_list key document_match_allowed) (keys kw0)
   then ret tt else raise InvalidSearchFieldError) ;;;
  kw1 <-- (if existsb (fun key => dmem key kw0) ["start_date"; "end_date"]
           then Document_process_date_searches tr kw0 else ret kw0) ;
  kw2 <-- (if dmem "languages" kw1 then
             r <-- Document_process_language_search kw1 ;
             (* [kwargs = None]: the next [kwargs.keys()] raises *)
             lift AttributeError r
           else ret kw1) ;
  kw3 <-- (if existsb (fun key => dmem key kw2) related_search_fields
           then Document_process_related_model_searches kw2 else ret kw2) ;
  (let '(keywords, kw4) :=
     fold_left take_keyword ["name"; "title"; "description"; "slug"; "q"] ([], kw3) in
   q <-- lift TypeError (py_join " " keywords) ;
   ret (fold_left bracket_field ["donor"; "subject"; "contributor"; "coverage"; "collection"]
                  (dset "q" (VStr q) kw4))).

(** [Document.match( **kwargs)] *)
Definition Document_match (tr : transport) (kwargs : dict) (w : world) : res matcher * world :=
  match Document_match_kwargs tr kwargs (w_log w) with
  | (Ok kw, log') => ResourceMatcher tr Document (VInt 200) kw {| w_log := log'; w_gens := w_gens w |}
  | (Exc e, log') => (Exc e, {| w_log := log'; w_gens := w_gens w |})
  end.

(** ** The search parameters of [DigitalArchive.search] (api.py) *)

(** [params.get(field).id] *)
Definition attr_id (v : val) : M val :=
  match v with VEnt _ d => lift AttributeError (dget "id" d) | _ => raise AttributeError end.

Definition ascii_upper (c : ascii) : ascii :=
  let n := nat_of_ascii c in
  if (97 <=? n)%nat && (n <=? 122)%nat then ascii_of_nat (n - 32) else c.

Definition ascii_lower (c : ascii) : ascii :=
  let n := nat_of_ascii c in
  if (65 <=? n)%nat && (n <=? 90)%nat then ascii_of_nat (n + 32) else c.

Fixpoint lower_string (s : string) : string :=
  match s with EmptyString => EmptyString | String c r => String (ascii_lower c) (lower_string r) end.

(** [str.capitalize()] on ASCII text. *)
Definition capitalize (s : string) : string :=
  match s with EmptyString => EmptyString | String c r => String (ascii_upper c) (lower_string r) end.

(** [if params.get(field) is not None: params[field] = params.get(field).id] *)
Definition substitute_id (p : dict) (field : string) : M dict :=
  match dget field p with
  | Some v => if is_none v then ret p else i <-- attr_id v ; ret (dset field i p)
  | None => ret p
  end.

(** [if params.get(field) is not None: keywords.append(params.get(field))] *)
Definition present_keyword (p : dict) (field : string) : list val :=
  match dget field p with Some v => if is_none v then [] else [v] | None => [] end.

(** [if params.get(field) is not None: params.pop(field)] *)
Definition strip_keyword (p : dict) (field : string) : dict :=
  match dget field p with
  | Some v => if is_none v then p
              else match dpop field p with Some (_, p') => p' | None => p end
  | None => p
  end.

(** The parameters [DigitalArchive.search(model, params)] sends with its
    request, from [if params is None: params = {}] to [requests.get]. *)
Definition search_params (model : string) (params : option dict) : M dict :=
  let p0 := match params with Some p => p | None => [] end in
  p1 <-- mfold substitute_id p0 ["collection"; "publisher"; "repository"; "coverage";
                                 "subject"; "contributor"; "donor"] ;
  if in_list model ["record"; "collection"] then
    q <-- lift TypeError (py_join " " (flat_map (present_keyword p1)
                                        ["name"; "title"; "description"; "slug"])) ;
    let p2 := dset "q" (VStr q) p1 in
    let p3 := fold_left strip_keyword ["name"; "title"; "description"; "slug"] p2 in
    ret (dset "model" (VStr (capitalize model)) p3)
  else if truthy (kwarg "name" p1) && truthy (kwarg "value" p1) then
    t <-- lift TypeError (py_join " " [kwarg "name" p1; kwarg "value" p1]) ;
    ret (dset "term" (VStr t) p1)
  else if truthy (kwarg "name" p1) then ret (dset "term" (kwarg "name" p1) p1)
  else if truthy (kwarg "value" p1) then ret (dset "term" (kwarg "value" p1) p1)
  else ret p1.

(** ** Definitions used by the properties of the remaining code *)

Definition emits_only {A} (P : event -> Prop) (m : M A) : Prop :=
  forall log r log', m log = (r, log') -> exists l, log' = (log ++ l)%list /\ Forall P l.

Definition is_date_range (ev : event) : Prop := ev = EDateRange.

Definition id_fields : list string :=
  ["collection"; "publisher"; "repository"; "coverage"; "subject"; "contributor"; "donor"].

Definition digit_value (c : ascii) : Z := Z.of_nat (nat_of_ascii c - 48).

Definition rename_step (q : dict) (kv : string * string) : dict :=
  let '(key, value) := kv in
  match dpop key q with Some (v, q') => dset value v q' | None => q end.

Definition single_terms : list (string * string) :=
  [("languages", "language"); ("translations", "translation"); ("themes", "theme")].

(** A server with one page holding one collection, a date range starting
    on 1945-01-01, and 2020-05-17 as today's date. *)
Definition one_page : dict :=
  [("list", VList [VDict [("id", VStr "5"); ("name", VStr "c"); ("slug", VStr "c")]]);
   ("pagination", VDict [("totalItems", VInt 1)])].

Definition dates_tr : transport := {|
  api_search := fun _ _ => VDict one_page;
  api_get := fun _ _ => VDict [("id", VStr "5"); ("name", VStr "c"); ("slug", VStr "c")];
  api_get_date_range := VDict [("begin", VStr "19450101")];
  today := (2020, 5, 17) |}.

Definition asset_kw : dict :=
  [("id", VStr "a1"); ("filename", VStr "f.pdf"); ("content_type", VStr "pdf");
   ("extension", VStr "pdf"); ("asset_id", VStr "9"); ("source_created_at", VStr "2019-01-02");
   ("source_updated_at", VStr "2019-01-02")].

Definition mediafile_kw : dict := (asset_kw ++ [("path", VStr "p")])%list.

Definition translation_kw : dict :=
  (asset_kw ++ [("url", VStr "p"); ("language", VDict [("id", VStr "eng")])])%list.

Definition theme_kw : dict :=
  [("id", VStr "1"); ("slug", VStr "s");
   ("featured_collections", VList [VDict [("id", VStr "2"); ("name", VStr "c"); ("slug", VStr "c")]])].

Definition collection_kw : dict :=
  [("id", VStr "5"); ("name", VStr "c"); ("slug", VStr "c"); ("source_created_at", VStr "2019-01-02")].

Definition coverage_kw : dict :=
  [("id", VStr "1"); ("name", VStr "n"); ("uri", VStr "u");
   ("parent", VDict [("id", VStr "2"); ("name", VStr "p"); ("uri", VStr "v")])].

Definition record_params : dict :=
  [("title", VStr "t"); ("slug", VNone); ("collection", VEnt Collection [("id", VStr "5")])].

(** ** [ResourceMatcher.hydrate] and the two states of [self.list] *)










(** * Properties *)

(** ** General facts about dicts and the option traversal *)

Lemma dget_dset (f key : string) (v : val) (d : dict) :
  dget f (dset key v d) = if String.eqb key f then Some v else dget f d.
Proof.
  induction d as [|[k w] r IH]; simpl.
  - destruct (String.eqb key f); reflexivity.
  - destruct (String.eqb k key) eqn:E1; simpl.
    + apply String.eqb_eq in E1; subst k.
      destruct (String.eqb key f); reflexivity.
    + rewrite IH. destruct (String.eqb k f) eqn:E2, (String.eqb key f) eqn:E3; auto.
      apply String.eqb_eq in E2, E3; subst. rewrite String.eqb_refl in E1; discriminate.
Qed.

Lemma keys_dset (key : string) (v : val) (d : dict) :
  dmem key d = true -> keys (dset key v d) = keys d.
Proof.
  unfold dmem; induction d as [|[k w] r IH]; simpl; [discriminate|].
  destruct (String.eqb k key) eqn:E; simpl; intros H.
  - reflexivity.
  - f_equal. apply IH. exact H.
Qed.

Lemma dget_in (f : string) (d : dict) (v : val) :
  dget f d = Some v -> In (f, v) d.
Proof.
  induction d as [|[k w] r IH]; simpl; [discriminate|].
  destruct (String.eqb k f) eqn:E; intros H.
  - apply String.eqb_eq in E; subst. injection H as <-. left; reflexivity.
  - right; auto.
Qed.

Lemma dget_none_keys (f : string) (d : dict) :
  ~ In f (keys d) -> dget f d = None.
Proof.
  induction d as [|[k w] r IH]; simpl; auto.
  intros H. destruct (String.eqb k f) eqn:E.
  - apply String.eqb_eq in E; subst. exfalso; apply H; left; reflexivity.
  - apply IH. intros Hin; apply H; right; exact Hin.
Qed.

Lemma otraverse_length {A B} (f : A -> option B) (l : list A) (l' : list B) :
  otraverse f l = Some l' -> length l' = length l.
Proof.
  revert l'; induction l as [|a r IH]; simpl; intros l' H.
  - injection H as <-; reflexivity.
  - destruct (f a) as [b|]; simpl in H; [|discriminate].
    destruct (otraverse f r) as [bs|] eqn:E; simpl in H; [|discriminate].
    injection H as <-. simpl. f_equal. apply IH; reflexivity.
Qed.

Lemma otraverse_Forall2 {A B} (f : A -> option B) (l : list A) (l' : list B) :
  otraverse f l = Some l' -> Forall2 (fun a b => f a = Some b) l l'.
Proof.
  revert l'; induction l as [|a r IH]; simpl; intros l' H.
  - injection H as <-; constructor.
  - destruct (f a) as [b|] eqn:Ef; simpl in H; [|discriminate].
    destruct (otraverse f r) as [bs|] eqn:E; simpl in H; [|discriminate].
    injection H as <-. constructor; auto.
Qed.

(** ** Resource identity *)

Lemma kind_eqb_refl (k : kind) : kind_eqb k k = true.
Proof. destruct k; reflexivity. Qed.

Lemma kind_eqb_sym (a b : kind) : kind_eqb a b = kind_eqb b a.
Proof. destruct a, b; reflexivity. Qed.

(** C2. For instances [a] and [b] held in the heap, [a == b] is decided by
    their concrete classes and their [id]s alone: it is [True] exactly when
    the classes are the same and the ids compare equal, whatever the other
    fields hold (sentinel or populated), and it is [False] whenever the classes
    differ.  [hash(a)] is the built-in hash of [a.id], so no other field enters
    it either. *)
Theorem resource_eq_hash_kind_id (builtin_hash : val -> Z) (h : heap) (a b : nat)
    (oa ob : obj) (ia ib : val) (log : list event) :
  nth_error h a = Some oa -> nth_error h b = Some ob ->
  dget "id" (odict oa) = Some ia -> dget "id" (odict ob) = Some ib ->
  py_eq h a b log = (Ok (kind_eqb (okind oa) (okind ob) && py_val_eq ia ib), log)
  /\ py_hash builtin_hash h a log = (Ok (builtin_hash ia), log).
Proof.
  intros Ha Hb Hia Hib. split.
  - unfold py_eq, resource_eq, deref, getattr_id, bind, lift, ret.
    rewrite Ha, Hb, Hia, Hib.
    destruct (kind_eqb (okind oa) (okind ob)) eqn:E; simpl; [reflexivity|].
    rewrite kind_eqb_sym, E; simpl.
    destruct (Nat.eqb a b) eqn:Eab; [|reflexivity].
    apply Nat.eqb_eq in Eab; subst b. rewrite Ha in Hb. injection Hb as <-.
    rewrite kind_eqb_refl in E; discriminate.
  - unfold py_hash, deref, getattr_id, bind, lift, ret. rewrite Ha, Hia. reflexivity.
Qed.

Definition subject_stub : obj :=
  {| okind := Subject; odict := [("id", VStr "42"); ("name", VStr "Soviet");
                                 ("value", VSentinel); ("uri", VSentinel);
                                 ("endpoint", VStr "subject")] |}.
Definition subject_full : obj :=
  {| okind := Subject; odict := [("id", VStr "42"); ("name", VStr "Soviet");
                                 ("value", VStr "Soviet"); ("uri", VStr "/subject/42");
                                 ("endpoint", VStr "subject")] |}.
Definition donor_42 : obj :=
  {| okind := Donor; odict := [("id", VStr "42"); ("name", VStr "Soviet");
                               ("endpoint", VStr "donor")] |}.

Lemma resource_eq_hash_kind_id_witness :
  py_eq [subject_stub; subject_full; donor_42] 0 1 [] = (Ok true, [])
  /\ py_eq [subject_stub; subject_full; donor_42] 0 2 [] = (Ok false, []).
Proof.
  split.
  - exact (proj1 (resource_eq_hash_kind_id (fun _ => 0) [subject_stub; subject_full; donor_42]
                    0 1 subject_stub subject_full (VStr "42") (VStr "42") []
                    eq_refl eq_refl eq_refl eq_refl)).
  - exact (proj1 (resource_eq_hash_kind_id (fun _ => 0) [subject_stub; subject_full; donor_42]
                    0 2 subject_stub donor_42 (VStr "42") (VStr "42") []
                    eq_refl eq_refl eq_refl eq_refl)).
Defined.

(** ** The hydration merge *)

Section MergeFacts.

Lemma merge_fold_dget (l acc : dict) (f : string) :
  NoDup (keys l) ->
  dget f (fold_left merge_step l acc) =
  match dget f l with
  | Some v => match dget f acc with Some VSentinel => Some v | o => o end
  | None => dget f acc
  end.
Proof.
  revert acc; induction l as [|[k v] r IH]; intros acc Hnd; [reflexivity|].
  inversion Hnd as [|? ? Hnotin Hnd']; subst.
  cbn [fold_left]. rewrite IH by exact Hnd'.
  assert (Hacc : dget f (merge_step acc (k, v)) =
                 if String.eqb k f then
                   match dget f acc with Some VSentinel => Some v | o => o end
                 else dget f acc).
  { unfold merge_step. destruct (String.eqb k f) eqn:E.
    - apply String.eqb_eq in E; subst k.
      destruct (dget f acc) as [[]|] eqn:Ea; try exact Ea.
      rewrite dget_dset, String.eqb_refl; reflexivity.
    - destruct (dget k acc) as [[]|]; try reflexivity.
      rewrite dget_dset, E; reflexivity. }
  replace (dget f ((k, v) :: r)) with (if String.eqb k f then Some v else dget f r)
    by reflexivity.
  destruct (String.eqb k f) eqn:E.
  - apply String.eqb_eq in E; subst k.
    rewrite (dget_none_keys f r Hnotin), Hacc. reflexivity.
  - rewrite Hacc. reflexivity.
Qed.

Lemma merge_dget (pre post : dict) (f : string) :
  NoDup (keys pre) -> dget f (merge pre post) = merge_spec pre post f.
Proof.
  intros Hnd. unfold merge, merge_spec.
  rewrite merge_fold_dget by exact Hnd.
  destruct (dget f pre) as [v|]; destruct (dget f post) as [[]|]; reflexivity.
Qed.

Lemma merge_keys (pre post : dict) : keys (merge pre post) = keys post.
Proof.
  unfold merge.
  revert post; induction pre as [|[k v] r IH]; intros post; simpl; [reflexivity|].
  rewrite IH. simpl. destruct (dget k post) as [[]|] eqn:E; try reflexivity.
  apply keys_dset. unfold dmem; rewrite E; reflexivity.
Qed.

Lemma Forall_dset (P : string * val -> Prop) (key : string) (v : val) (d : dict) :
  Forall P d -> P (key, v) -> Forall P (dset key v d).
Proof.
  intros Hd Hp; induction Hd as [|[k w] r Hkw Hr IH]; simpl.
  - constructor; auto.
  - destruct (String.eqb k key) eqn:E.
    + apply String.eqb_eq in E; subst. constructor; auto.
    + constructor; auto.
Qed.

Lemma merge_Forall (P : string * val -> Prop) (pre post : dict) :
  Forall P pre -> Forall P post -> Forall P (merge pre post).
Proof.
  unfold merge.
  intros Hpre; revert post; induction Hpre as [|[k v] r Hkv Hr IH]; intros post Hpost;
    simpl; [exact Hpost|].
  apply IH. destruct (dget k post) as [[]|]; auto. apply Forall_dset; auto.
Qed.

End MergeFacts.

(** ** The generated [__init__] on a complete field set *)

Lemma dget_app_notin (f : string) (l1 l2 : dict) :
  ~ In f (keys l1) -> dget f (l1 ++ l2)%list = dget f l2.
Proof.
  induction l1 as [|[k w] r IH]; simpl; auto.
  intros H. destruct (String.eqb k f) eqn:E.
  - apply String.eqb_eq in E; subst. exfalso; apply H; left; reflexivity.
  - apply IH. intros Hin; apply H; right; exact Hin.
Qed.

Lemma assign_complete (sch : list (string * option val)) (m : dict) :
  map fst sch = keys m -> NoDup (keys m) -> assign sch m = Some m.
Proof.
  intros Hk Hnd. unfold assign.
  assert (Hgen : forall pre suf sch', m = (pre ++ suf)%list -> map fst sch' = keys suf ->
            otraverse (fun '(f, dflt) =>
                         match dget f m with
                         | Some v => Some (f, v)
                         | None => option_map (fun v => (f, v)) dflt
                         end) sch' = Some suf).
  { intros pre suf; revert pre; induction suf as [|[f v] suf' IH]; intros pre sch' Hm Hs.
    - destruct sch'; [reflexivity|discriminate].
    - destruct sch' as [|[f' dflt] sch'']; [discriminate|].
      simpl in Hs. injection Hs as -> Hs.
      assert (Hf : dget f m = Some v).
      { rewrite Hm, dget_app_notin.
        - simpl. rewrite String.eqb_refl. reflexivity.
        - rewrite Hm in Hnd. unfold keys in Hnd. rewrite map_app in Hnd.
          simpl in Hnd. apply NoDup_remove_2 in Hnd.
          intros Hin; apply Hnd, in_or_app; left; exact Hin. }
      simpl. rewrite Hf. simpl.
      rewrite (IH (pre ++ [(f, v)])%list sch''); [reflexivity| |exact Hs].
      rewrite Hm, <- app_assoc. reflexivity. }
  apply (Hgen [] m sch); auto.
Qed.

Lemma assign_keys (sch : list (string * option val)) (kw fs : dict) :
  assign sch kw = Some fs -> keys fs = map fst sch.
Proof.
  unfold assign; intros H. apply otraverse_Forall2 in H.
  induction H as [|[f dflt] [f' v] r r' Hx Hr IH]; simpl; [reflexivity|].
  f_equal; [|exact IH].
  destruct (dget f kw); simpl in Hx; [injection Hx; auto|].
  destruct dflt; simpl in Hx; [injection Hx; auto|discriminate].
Qed.

Fixpoint nodupb (l : list string) : bool :=
  match l with
  | [] => true
  | x :: r => negb (in_list x r) && nodupb r
  end.

Lemma nodupb_NoDup (l : list string) : nodupb l = true -> NoDup l.
Proof.
  induction l as [|x r IH]; simpl; intros H; constructor.
  - apply andb_true_iff in H as [H _]. apply negb_true_iff in H.
    intros Hin. unfold in_list in H.
    assert (existsb (String.eqb x) r = true) as H'.
    { apply existsb_exists. exists x; split; [exact Hin|apply String.eqb_refl]. }
    congruence.
  - apply IH. apply andb_true_iff in H as [_ H]; exact H.
Qed.

Lemma dataclass_fields_NoDup (k : kind) : NoDup (dataclass_fields k).
Proof. apply nodupb_NoDup. destruct k; reflexivity. Qed.

(** ** Re-running [__post_init__] on the fields of an instance

    Hydration re-initialises the object from fields that [__post_init__]
    has already processed.  For the hydratable kinds, processing such a value
    again either leaves it as it is or raises: it never changes it. *)

Ltac inv_opt :=
  repeat match goal with
  | H : obind ?m _ = Some _ |- _ =>
      let E := fresh "E" in destruct m eqn:E; [cbn [obind] in H | discriminate H]
  | H : (if ?b then _ else _) = Some _ |- _ => let E := fresh "E" in destruct b eqn:E
  | H : Some _ = Some _ |- _ => injection H as H; subst
  | H : None = Some _ |- _ => discriminate H
  end.

(** The nested constructors [k( **d)] build instances of class [k]. *)
Definition mk_ok (mk : kind -> dict -> option val) : Prop :=
  forall k d r, mk k d = Some r -> exists d', r = VEnt k d'.

Lemma construct_mk_ok (n : nat) :
  mk_ok (fun k' d => option_map (VEnt k') (construct n k' d)).
Proof.
  intros k d r H. destruct (construct n k d) as [d'|]; simpl in H; [|discriminate].
  injection H as <-. exists d'; reflexivity.
Qed.

Lemma mk_from_ok (mk : kind -> dict -> option val) (k : kind) (v w : val) :
  mk_ok mk -> mk_from mk k v = Some w -> exists d', w = VEnt k d'.
Proof. intros Hmk H. unfold mk_from, as_kwargs in H. destruct v; try discriminate. exact (Hmk _ _ _ H). Qed.

Definition stable (k : kind) (f : string) (w : val) : Prop :=
  forall mk, norm mk k f w = Some w \/ norm mk k f w = None.

Lemma py_index0_iter (v x : val) (items : list val) :
  py_index0 v = Some x -> py_iter v = Some items -> exists r, items = x :: r.
Proof.
  destruct v; simpl; try discriminate.
  - destruct s; [discriminate|]. intros H1 H2. injection H1 as <-. injection H2 as <-.
    eexists; reflexivity.
  - destruct l; [discriminate|]. intros H1 H2. injection H1 as <-. injection H2 as <-.
    eexists; reflexivity.
Qed.

Lemma otraverse_head {A B} (f : A -> option B) (x : A) (r : list A) (l' : list B) :
  otraverse f (x :: r) = Some l' -> exists y r', l' = y :: r' /\ f x = Some y.
Proof.
  simpl. destruct (f x) as [y|]; simpl; [|discriminate].
  destruct (otraverse f r); simpl; [|discriminate]. intros H; injection H as <-.
  eexists; eexists; split; reflexivity.
Qed.

Lemma otraverse_id {A} (P : A -> Prop) (f : A -> option A) (l : list A) :
  Forall P l -> (forall x, P x -> f x = Some x) -> otraverse f l = Some l.
Proof.
  intros Hl Hf; induction Hl as [|x r Hx Hr IH]; simpl; [reflexivity|].
  rewrite (Hf x Hx). simpl. rewrite IH. reflexivity.
Qed.

(** *** Coverage *)

Lemma coverage_parent_out (mk : kind -> dict -> option val) (v w : val) :
  mk_ok mk -> coverage_parent mk v = Some w ->
  is_kind Coverage w = true \/ w = VNone \/ w = VSentinel.
Proof.
  intros Hmk H. unfold coverage_parent in H.
  destruct v; simpl in H; inv_opt; auto;
    destruct (mk_from_ok _ _ _ _ Hmk H) as [d' ->]; left; apply kind_eqb_refl.
Qed.

Lemma coverage_parent_fix (mk : kind -> dict -> option val) (w : val) :
  is_kind Coverage w = true \/ w = VNone \/ w = VSentinel -> coverage_parent mk w = Some w.
Proof.
  intros [H|[->| ->]]; [|reflexivity|reflexivity].
  destruct w; try discriminate. unfold coverage_parent. simpl in *. rewrite H. reflexivity.
Qed.

Lemma coverage_children_out (mk : kind -> dict -> option val) (v w : val) :
  mk_ok mk -> coverage_children mk v = Some w ->
  w = VSentinel \/ exists x, py_index0 w = Some x /\ is_kind Coverage x = true.
Proof.
  intros Hmk H. unfold coverage_children in H.
  destruct v; [injection H as <-; left; reflexivity| ..];
  inv_opt; right;
    solve [ eexists; split; eassumption
          | match goal with
            | E1 : py_index0 ?v = Some ?x, E2 : py_iter ?v = Some ?items,
              E3 : otraverse _ ?items = Some ?parsed |- _ =>
                destruct (py_index0_iter _ _ _ E1 E2) as [r ->];
                let hd := fresh "hd" in let tl := fresh "tl" in
                let Hhd := fresh "Hhd" in let dd := fresh "dd" in
                destruct (otraverse_head _ _ _ _ E3) as [hd [tl [-> Hhd]]];
                destruct (mk_from_ok _ _ _ _ Hmk Hhd) as [dd ->];
                exists (VEnt Coverage dd); split; reflexivity
            end ].
Qed.

Lemma coverage_children_fix (mk : kind -> dict -> option val) (w : val) :
  (w = VSentinel \/ exists x, py_index0 w = Some x /\ is_kind Coverage x = true) ->
  coverage_children mk w = Some w.
Proof.
  intros [->|[x [Hx Hk]]]; [reflexivity|].
  unfold coverage_children.
  destruct w; try discriminate; rewrite Hx; cbn [obind]; rewrite Hk; reflexivity.
Qed.

(** *** Document child records *)

Definition child_settled (w : val) : Prop :=
  w = VSentinel \/ (exists k d, w = VEnt k d) \/
  (is_dict w = false /\
   (py_len w = Some 0%nat \/ exists x, py_index0 w = Some x /\ is_dict x = false)).

Lemma is_kind_ent (k : kind) (v : val) : is_kind k v = true -> exists d, v = VEnt k d.
Proof.
  destruct v; try discriminate. simpl. intros H.
  apply kind_eqb_spec in H; subst; eauto.
Qed.

Lemma parse_child_out (mk : kind -> dict -> option val) (ck : kind) (v w : val) :
  mk_ok mk -> parse_child mk ck v = Some w -> child_settled w.
Proof.
  intros Hmk H. unfold child_settled.
  destruct (is_dict v) eqn:Hd.
  { destruct v; try discriminate. destruct (Hmk _ _ _ H) as [d' ->]. right; left; eauto. }
  assert (Hs : v = VSentinel \/
               parse_child mk ck v =
               if is_kind Right v then Some v
               else n <- py_len v ;;
                    if (n =? 0)%nat then Some v
                    else sample <- py_index0 v ;;
                         if is_dict sample then
                           items <- py_iter v ;;
                           parsed <- otraverse (mk_from mk ck) items ;;
                           Some (VList parsed)
                         else Some v)
    by (destruct v; auto; discriminate).
  destruct Hs as [->|Hs]; [injection H as <-; left; reflexivity|].
  rewrite Hs in H; clear Hs. inv_opt.
  - destruct (is_kind_ent _ _ E) as [d ->]. right; left; eauto.
  - right; right; split; [exact Hd|left].
    apply Nat.eqb_eq in E1; subst; exact E0.
  - right; right; split; [reflexivity|right].
    destruct (py_index0_iter _ _ _ E2 E4) as [r ->].
    destruct (otraverse_head _ _ _ _ E5) as [hd [tl [-> Hhd]]].
    destruct (mk_from_ok _ _ _ _ Hmk Hhd) as [dd ->].
    exists (VEnt ck dd); split; reflexivity.
  - right; right; split; [exact Hd|right]. eauto.
Qed.
Lemma parse_child_list (mk : kind -> dict -> option val) (ck : kind) (v : val) :
  v <> VSentinel -> is_dict v = false ->
  parse_child mk ck v =
  if is_kind Right v then Some v
  else n <- py_len v ;;
       if (n =? 0)%nat then Some v
       else sample <- py_index0 v ;;
            if is_dict sample then
              items <- py_iter v ;;
              parsed <- otraverse (mk_from mk ck) items ;;
              Some (VList parsed)
            else Some v.
Proof. destruct v; try reflexivity; intros H1 H2; [congruence|discriminate]. Qed.

Lemma parse_child_fix (mk : kind -> dict -> option val) (ck : kind) (w : val) :
  child_settled w -> parse_child mk ck w = Some w \/ parse_child mk ck w = None.
Proof.
  unfold child_settled.
  intros [->|[[k [d ->]]|[Hd Hw]]].
  - left; reflexivity.
  - simpl. destruct (kind_eqb k Right); [left|right]; reflexivity.
  - assert (Hns : w <> VSentinel) by (intros ->; destruct Hw as [Hl|[x [Hx _]]]; discriminate).
    rewrite (parse_child_list _ _ _ Hns Hd).
    destruct (is_kind Right w); [left; reflexivity|].
    destruct Hw as [Hl|[x [Hx Hxd]]]; [rewrite Hl; left; reflexivity|].
    destruct (py_len w) as [n|]; cbn [obind]; [|right; reflexivity].
    destruct (n =? 0)%nat; [left; reflexivity|].
    rewrite Hx; cbn [obind]; rewrite Hxd; left; reflexivity.
Qed.

(** *** Timestamps and [date_range_start] *)

Definition is_str (v : val) : bool := match v with VStr _ => true | _ => false end.

Lemma py_date_out (y m d : Z) (w : val) : py_date y m d = Some w -> w = VDate y m d.
Proof. unfold py_date. destruct (_ && _); intros H; [injection H; auto|discriminate]. Qed.

Lemma py_fromisoformat_out (s : string) (w : val) :
  py_fromisoformat s = Some w -> is_str w = false.
Proof.
  unfold py_fromisoformat. intros H. inv_opt.
  match goal with E : py_date _ _ _ = Some ?dt |- _ => apply py_date_out in E; subst dt end.
  injection H as <-; reflexivity.
Qed.

Lemma process_timestamp_out (v w : val) : process_timestamp v = Some w -> is_str w = false.
Proof.
  unfold process_timestamp. destruct v; intros H; inv_opt; try reflexivity.
  eapply py_fromisoformat_out; eassumption.
Qed.

Lemma process_timestamp_fix (w : val) : is_str w = false -> process_timestamp w = Some w.
Proof. destruct w; try discriminate; reflexivity. Qed.

Lemma parse_date_range_start_out (v w : val) :
  _parse_date_range_start v = Some w -> is_str w = false.
Proof.
  unfold _parse_date_range_start. destruct v; intros H; try discriminate. inv_opt.
  apply py_date_out in H. subst; reflexivity.
Qed.

(** *** Theme *)

Lemma theme_items_out (mk : kind -> dict -> option val) (items l : list val) :
  mk_ok mk ->
  otraverse (fun c => if is_kind Collection c then Some c else mk_from mk Collection c) items
  = Some l -> Forall (fun c => is_kind Collection c = true) l.
Proof.
  intros Hmk H. apply otraverse_Forall2 in H.
  induction H as [|c c' r r' Hc _ IH]; constructor; [|exact IH].
  destruct (is_kind Collection c) eqn:Ec; [injection Hc as <-; exact Ec|].
  destruct (mk_from_ok _ _ _ _ Hmk Hc) as [dd ->]. apply kind_eqb_refl.
Qed.

Lemma theme_featured_out (mk : kind -> dict -> option val) (v w : val) :
  mk_ok mk -> theme_featured mk v = Some w ->
  w = VSentinel \/ exists l, w = VList l /\ Forall (fun c => is_kind Collection c = true) l.
Proof.
  intros Hmk H. unfold theme_featured in H.
  destruct v; [injection H as <-; left; reflexivity| ..]; inv_opt; right;
    eexists; (split; [reflexivity|]); eapply theme_items_out; eassumption.
Qed.

Lemma theme_featured_fix (mk : kind -> dict -> option val) (w : val) :
  (w = VSentinel \/ exists l, w = VList l /\ Forall (fun c => is_kind Collection c = true) l) ->
  theme_featured mk w = Some w.
Proof.
  intros [->|[l [-> Hl]]]; [reflexivity|].
  unfold theme_featured. simpl.
  rewrite (otraverse_id _ _ l Hl); [reflexivity|].
  intros x Hx; rewrite Hx; reflexivity.
Qed.

(** *** Every hydratable kind *)

Lemma norm_out_stable (mk : kind -> dict -> option val) (k : kind) (f : string) (v w : val) :
  hydratable k = true -> mk_ok mk -> norm mk k f v = Some w -> stable k f w.
Proof.
  intros Hk Hmk H mk'. destruct k; try discriminate Hk; simpl in H |- *.
  - injection H as <-; left; reflexivity.
  - injection H as <-; left; reflexivity.
  - destruct (String.eqb f "parent").
    + left. apply coverage_parent_fix. eapply coverage_parent_out; eassumption.
    + destruct (String.eqb f "children").
      * left. apply coverage_children_fix. eapply coverage_children_out; eassumption.
      * injection H as <-; left; reflexivity.
  - destruct (is_timestamp_field f).
    + left. apply process_timestamp_fix. eapply process_timestamp_out; eassumption.
    + injection H as <-; left; reflexivity.
  - injection H as <-; left; reflexivity.
  - destruct (child_kind f) as [ck|].
    + apply parse_child_fix. eapply parse_child_out; eassumption.
    + left. destruct (is_timestamp_field f).
      * apply process_timestamp_fix. eapply process_timestamp_out; eassumption.
      * destruct (String.eqb f "date_range_start").
        -- destruct v; try (injection H as <-; reflexivity).
           apply parse_date_range_start_out in H. destruct w; try discriminate; reflexivity.
        -- injection H as <-; reflexivity.
  - destruct (String.eqb f "featured_collections").
    + left. apply theme_featured_fix. eapply theme_featured_out; eassumption.
    + injection H as <-; left; reflexivity.
Qed.

Lemma otraverse_settled {A} (f : A -> option A) (l r : list A) :
  Forall (fun a => f a = Some a \/ f a = None) l -> otraverse f l = Some r -> r = l.
Proof.
  intros Hl; revert r; induction Hl as [|a t Ha _ IH]; simpl; intros r H.
  - injection H as <-; reflexivity.
  - destruct Ha as [Ha|Ha]; rewrite Ha in H; simpl in H; [|discriminate].
    destruct (otraverse f t) as [t'|] eqn:Et; simpl in H; [|discriminate].
    injection H as <-. rewrite (IH t' eq_refl). reflexivity.
Qed.

Definition settled (k : kind) (d : dict) : Prop :=
  keys d = dataclass_fields k /\ Forall (fun p => stable k (fst p) (snd p)) d.

(** The [__dict__] built by [k( **kw)] holds exactly the dataclass fields,
    each in a form [__post_init__] leaves alone. *)
Lemma construct_settled (n : nat) (k : kind) (kw r : dict) :
  hydratable k = true -> construct n k kw = Some r -> settled k r.
Proof.
  intros Hk H. destruct n as [|n]; [discriminate|]. simpl in H.
  destruct (forallb _ kw); [|discriminate].
  destruct (assign (schema k) kw) as [fs|] eqn:Ea; simpl in H; [|discriminate].
  apply assign_keys in Ea.
  assert (Hpi : otraverse (fun '(f, v) => option_map (fun w => (f, w))
                  (norm (fun k' d => option_map (VEnt k') (construct n k' d)) k f v)) fs
                = Some r)
    by (unfold post_init in H; destruct k; try discriminate Hk;
        destruct (otraverse _ fs); simpl in H; congruence).
  clear H. apply otraverse_Forall2 in Hpi. split.
  - unfold dataclass_fields. rewrite <- Ea. clear Ea. unfold keys.
    induction Hpi as [|[f v] [f' w] l l' Hp _ IH]; [reflexivity|].
    simpl. destruct (norm _ k f v); simpl in Hp; [|discriminate].
    injection Hp as <- <-. f_equal. exact IH.
  - clear Ea. induction Hpi as [|[f v] [f' w] l l' Hp _ IH]; constructor; [|exact IH].
    destruct (norm _ k f v) eqn:En; simpl in Hp; [|discriminate].
    injection Hp as <- <-. simpl.
    eapply norm_out_stable; [exact Hk|apply construct_mk_ok|exact En].
Qed.

(** Re-initialising an instance from settled fields gives back the same fields. *)
Lemma construct_reinit (n : nat) (k : kind) (m s : dict) :
  hydratable k = true -> settled k m -> construct n k m = Some s -> s = m.
Proof.
  intros Hk [Hkeys Hst] H. destruct n as [|n]; [discriminate|]. simpl in H.
  assert (Hnd : NoDup (keys m)) by (rewrite Hkeys; apply dataclass_fields_NoDup).
  rewrite (assign_complete (schema k) m) in H; [|rewrite Hkeys; reflexivity|exact Hnd].
  destruct (forallb _ m); [|discriminate]. cbn [obind] in H.
  assert (Hpi : otraverse (fun '(f, v) => option_map (fun w => (f, w))
                  (norm (fun k' d => option_map (VEnt k') (construct n k' d)) k f v)) m
                = Some s)
    by (unfold post_init in H; destruct k; try discriminate Hk;
        destruct (otraverse _ m); simpl in H; congruence).
  eapply otraverse_settled; [|exact Hpi].
  eapply Forall_impl; [|exact Hst]. intros [f v] Hs. simpl in Hs.
  destruct (Hs (fun k' d => option_map (VEnt k') (construct n k' d))) as [E|E];
    rewrite E; [left|right]; reflexivity.
Qed.

Lemma pull_settled (tr : transport) (k : kind) (self post : dict) (log log' : list event) :
  hydratable k = true -> pull tr k self log = (Ok post, log') -> settled k post.
Proof.
  intros Hk H. unfold pull, bind, lift, get, emit, ret, raise in H.
  destruct (dget "endpoint" self); [|discriminate].
  destruct (dget _ self); [|discriminate].
  cbn [bind] in H.
  destruct (as_kwargs _) as [d|]; [|discriminate].
  destruct (new k d) as [r|] eqn:En; [|discriminate].
  injection H as -> _. eapply construct_settled; eassumption.
Qed.

(** C1. Hydrating an instance of a hydratable kind, when it completes, leaves
    every field [f] holding the freshly pulled value [post[f]] unless that is
    the sentinel, and the value of the pre-fetch snapshot [pre[f]] otherwise;
    so a field that held a real value before never holds the sentinel after. *)
Theorem hydrate_merge_law (tr : transport) (k : kind) (kw pre s : dict)
    (log log' : list event) :
  hydratable k = true -> new k kw = Some pre -> hydrate tr k pre log = (Ok s, log') ->
  exists post, pull tr k pre log = (Ok post, log') /\
    (forall f, dget f s = merge_spec pre post f) /\
    (forall f v, dget f pre = Some v -> v <> VSentinel -> dget f s <> Some VSentinel).
Proof.
  intros Hk Hpre H. unfold hydrate, bind in H.
  destruct (pull tr k pre log) as [[post|e] l1] eqn:Ep; [|discriminate].
  destruct (new k (merge pre post)) as [s'|] eqn:En; simpl in H; [|discriminate].
  unfold ret in H. injection H as <- <-.
  exists post. split; [reflexivity|].
  pose proof (construct_settled _ _ _ _ Hk Hpre) as [Hkp Hsp].
  pose proof (pull_settled _ _ _ _ _ _ Hk Ep) as [Hkq Hsq].
  assert (Hm : settled k (merge pre post)).
  { split; [rewrite merge_keys; exact Hkq|].
    apply merge_Forall; assumption. }
  pose proof (construct_reinit _ _ _ _ Hk Hm En) as ->.
  assert (Hnd : NoDup (keys pre)) by (rewrite Hkp; apply dataclass_fields_NoDup).
  assert (Hf : forall f, dget f (merge pre post) = merge_spec pre post f)
    by (intros f; apply merge_dget; exact Hnd).
  split; [exact Hf|].
  intros f v Hv Hns. rewrite Hf. unfold merge_spec.
  destruct (dget f post) as [[]|]; try discriminate.
  rewrite Hv. intros E; injection E as E; exact (Hns E).
Qed.

(** A Subject found in a search result, then hydrated from its record page. *)
Definition subject_tr : transport := {|
  api_search := fun _ _ => VNone;
  api_get := fun _ _ => VDict [("id", VStr "7"); ("name", VStr "China"); ("uri", VStr "u")];
  api_get_date_range := VNone;
  today := (2020, 1, 1) |}.

Definition subject_kw : dict := [("id", VStr "7"); ("name", VStr "China"); ("value", VStr "v")].

Lemma hydrate_merge_law_witness :
  hydratable Subject = true /\
  new Subject subject_kw =
    Some [("id", VStr "7"); ("name", VStr "China"); ("value", VStr "v"); ("uri", VSentinel);
          ("endpoint", VStr "subject")] /\
  hydrate subject_tr Subject
    [("id", VStr "7"); ("name", VStr "China"); ("value", VStr "v"); ("uri", VSentinel);
     ("endpoint", VStr "subject")] [] =
    (Ok [("id", VStr "7"); ("name", VStr "China"); ("value", VStr "v"); ("uri", VStr "u");
         ("endpoint", VStr "subject")], [EGet (VStr "subject") (VStr "7")]) /\
  exists post, pull subject_tr Subject
    [("id", VStr "7"); ("name", VStr "China"); ("value", VStr "v"); ("uri", VSentinel);
     ("endpoint", VStr "subject")] [] = (Ok post, [EGet (VStr "subject") (VStr "7")]) /\
    (forall f, dget f [("id", VStr "7"); ("name", VStr "China"); ("value", VStr "v");
                       ("uri", VStr "u"); ("endpoint", VStr "subject")] =
               merge_spec [("id", VStr "7"); ("name", VStr "China"); ("value", VStr "v");
                            ("uri", VSentinel); ("endpoint", VStr "subject")] post f) /\
    (forall f v, dget f [("id", VStr "7"); ("name", VStr "China"); ("value", VStr "v");
                         ("uri", VSentinel); ("endpoint", VStr "subject")] = Some v ->
                 v <> VSentinel ->
                 dget f [("id", VStr "7"); ("name", VStr "China"); ("value", VStr "v");
                         ("uri", VStr "u"); ("endpoint", VStr "subject")] <> Some VSentinel).
Proof.
  split; [reflexivity|]. split; [vm_compute; reflexivity|]. split; [vm_compute; reflexivity|].
  apply (hydrate_merge_law subject_tr Subject subject_kw); vm_compute; reflexivity.
Defined.

(** ** Single-page kinds *)

(** C5. A Repository search whose answer lists two records and carries no
    pagination metadata, with [items_per_page=1]: the count is the list
    length (2), which exceeds the page size, so the matcher hands the
    response to the paging generator; draining [all()] then fails with
    KeyError on [response["pagination"]].  The Subject branch, given the
    same answer, serves the two records. *)
Theorem single_page_kind_overflow :
  matcher_count_and_all list_only_tr 20 Repository (VInt 1) [] = Some (Exc KeyError) /\
  matcher_count_and_all list_only_tr 20 Subject (VInt 1) [] =
    Some (Ok (VInt 2,
      [VEnt Subject [("id", VInt 1); ("name", VStr "A"); ("value", VSentinel);
                     ("uri", VSentinel); ("endpoint", VStr "subject")];
       VEnt Subject [("id", VInt 2); ("name", VStr "B"); ("value", VSentinel);
                     ("uri", VSentinel); ("endpoint", VStr "subject")]])).
Proof. split; vm_compute; reflexivity. Qed.

(** ** Date searches *)

(** C6. Dates are written [f"{year}{month:02}{day:02}"]: the year is not
    padded, so [date(999, 1, 1)] becomes the 7-character ["9990101"], in
    [Document._process_date_searches] and in the matcher alike.  The spec's
    own example does hold: an end date of 1989-04-15 with the archive's
    earliest date ["19890414"] gives ["19890414"] and ["19890415"]. *)
Theorem date_search_year_unpadded (tr : transport) :
  Document_process_date_searches tr
    [("start_date", VDate 999 1 1); ("end_date", VStr "19890415")] [] =
    (Ok [("start_date", VStr "9990101"); ("end_date", VStr "19890415")], []) /\
  matcher_process_date_searches tr Document
    [("start_date", VDate 999 1 1); ("end_date", VStr "19890415")] [] =
    (Ok [("start_date", VStr "9990101"); ("end_date", VStr "19890415")], []) /\
  String.length "9990101" = 7%nat /\
  Document_process_date_searches list_only_tr [("end_date", VDate 1989 4 15)] [] =
    (Ok [("end_date", VStr "19890415"); ("start_date", VStr "19890414")], [EDateRange]).
Proof. repeat split; vm_compute; reflexivity. Qed.

(** ** Validation order *)

(** C8. [Subject.match(name="Soviet", value="China")] does build
    [term="Soviet China"], but the matcher accepts only Subject's dataclass
    fields, refuses [term] with InvalidSearchFieldError and sends no search. *)
Theorem subject_match_term_refused (tr : transport) :
  match_kwargs Subject [("name", VStr "Soviet"); ("value", VStr "China")] [] =
    (Ok [("term", VStr "Soviet China")], []) /\
  MatchingMixin_match tr Subject [("name", VStr "Soviet"); ("value", VStr "China")] w0 =
    (Exc InvalidSearchFieldError, w0).
Proof. split; vm_compute; reflexivity. Qed.

(** ** Empty relation lists *)

(** C9. [Coverage(children=[])] raises (IndexError on [children[0]]) while
    an empty list in a Document relation field is kept as it is. *)
Theorem coverage_empty_children_raises :
  new Coverage [("id", VStr "1"); ("name", VStr "n"); ("uri", VStr "u");
                ("children", VList [])] = None /\
  option_map (dget "languages") (new Document doc_kw) = Some (Some (VList [])).
Proof. split; vm_compute; reflexivity. Qed.

Lemma earliest_date_log (tr : transport) (log : list event) :
  snd (earliest_date tr log) = (log ++ [EDateRange])%list.
Proof.
  unfold earliest_date, get_date_range, bind, emit, ret, getitem, lift, raise. simpl.
  destruct (api_get_date_range tr); try reflexivity.
  destruct (dget "begin" d) as [b|]; try reflexivity.
  destruct b; try reflexivity. unfold ret; simpl.
  match goal with |- context [match ?x with Some _ => _ | None => _ end] => destruct x end;
    reflexivity.
Qed.

(** C7. [ResourceMatcher(Document, end_date=date(1989, 4, 15), foo="x")]:
    the open start date is filled before the keywords are checked, so
    whatever the server answers, the date-range request has been sent when
    the matcher raises; with a well-formed answer the exception is
    InvalidSearchFieldError for [foo]. *)
Theorem matcher_date_range_before_validation (tr : transport) :
  (exists e, ResourceMatcher tr Document (VInt 200)
               [("end_date", VDate 1989 4 15); ("foo", VStr "x")] w0 =
             (Exc e, {| w_log := [EDateRange]; w_gens := [] |})) /\
  ResourceMatcher list_only_tr Document (VInt 200)
    [("end_date", VDate 1989 4 15); ("foo", VStr "x")] w0 =
    (Exc InvalidSearchFieldError, {| w_log := [EDateRange]; w_gens := [] |}).
Proof.
  split; [|vm_compute; reflexivity].
  pose proof (earliest_date_log tr []) as Hl.
  unfold ResourceMatcher, matcher_init, matcher_process_date_searches, fill_open_end,
    bind, ret, raise.
  simpl.
  destruct (earliest_date tr []) as [[sd|e] l]; simpl in Hl; subst l.
  - unfold format_date_field, lift, ret, raise, bind.
    destruct sd; simpl; try (destruct (_ =? 8)%nat); eexists; reflexivity.
  - eexists; reflexivity.
Qed.

(** ** Generators *)

Section Generators.
Variable tr : transport.

Lemma gen_drain_mono (n n' : nat) (g : gen) (log : list event) r :
  gen_drain tr n g log = Some r -> (n <= n')%nat -> gen_drain tr n' g log = Some r.
Proof.
  revert n' g log r; induction n as [|n IH]; intros n' g log r H Hle; [discriminate|].
  destruct n' as [|n']; [lia|]. simpl in H |- *.
  destruct (gen_step tr g log) as [[[v g'|g'|]|e] log'].
  - destruct (gen_drain tr n g' log') as [[[[vs|e] g''] l'']|] eqn:E; try discriminate;
      rewrite (IH n' _ _ _ E) by lia; exact H.
  - apply (IH n'); [exact H|lia].
  - exact H.
  - exact H.
Qed.

Lemma gen_drain_done (n : nat) (g : gen) (log : list event) vs g' log' :
  gen_drain tr n g log = Some (Ok vs, g', log') -> g' = GDone.
Proof.
  revert g log vs g' log'; induction n as [|n IH]; intros g log vs g' log' H; [discriminate|].
  simpl in H. destruct (gen_step tr g log) as [[[v g1|g1|]|e] l1].
  - destruct (gen_drain tr n g1 l1) as [[[[ws|e] g''] l'']|] eqn:E; try discriminate.
    injection H as _ Hg _. subst. exact (IH _ _ _ _ _ E).
  - exact (IH _ _ _ _ _ H).
  - injection H as _ <- _; reflexivity.
  - discriminate.
Qed.

Lemma gen_drain_pos (n : nat) (g : gen) (log : list event) r :
  gen_drain tr n g log = Some r -> (1 <= n)%nat.
Proof. destruct n; [discriminate|lia]. Qed.

(** A drain that yields [x :: xs] is a [next] that yields [x] followed by a
    drain that yields [xs]. *)
Lemma gen_drain_cons (n : nat) (g : gen) (log : list event) x xs g' log' :
  gen_drain tr n g log = Some (Ok (x :: xs), g', log') ->
  exists g1 l1, gen_next tr n g log = Some (Ok (Some x), g1, l1) /\
                gen_drain tr n g1 l1 = Some (Ok xs, g', log').
Proof.
  revert g log; induction n as [|n IH]; intros g log H; [discriminate|].
  simpl in H; cbn [gen_next]. destruct (gen_step tr g log) as [[[v g1|g1|]|e] l1].
  - destruct (gen_drain tr n g1 l1) as [[[[ws|e] g''] l'']|] eqn:E; try discriminate.
    injection H as <- <- <- <-. exists g1, l1. split; [reflexivity|].
    apply (gen_drain_mono n); [exact E|lia].
  - destruct (IH _ _ H) as [g2 [l2 [H1 H2]]]. exists g2, l2. split; [exact H1|].
    apply (gen_drain_mono n); [exact H2|lia].
  - discriminate.
  - discriminate.
Qed.

Lemma gen_next_done (n : nat) (log : list event) :
  (1 <= n)%nat -> gen_next tr n GDone log = Some (Ok None, GDone, log).
Proof. destruct n; [lia|reflexivity]. Qed.

Lemma gen_drain_done_empty (n : nat) (log : list event) :
  (1 <= n)%nat -> gen_drain tr n GDone log = Some (Ok [], GDone, log).
Proof. destruct n; [lia|reflexivity]. Qed.

End Generators.

Lemma nth_error_set_nth {A} (n : nat) (x : A) (l : list A) :
  (n < length l)%nat -> nth_error (set_nth n x l) n = Some x.
Proof.
  revert n; induction l as [|y r IH]; intros [|n] H; simpl in *; try lia; auto.
  apply IH; lia.
Qed.

Lemma set_nth_twice {A} (n : nat) (x y : A) (l : list A) :
  set_nth n y (set_nth n x l) = set_nth n y l.
Proof. revert n; induction l as [|z r IH]; intros [|n]; simpl; f_equal; auto. Qed.

Lemma set_nth_same {A} (n : nat) (x : A) (l : list A) :
  nth_error l n = Some x -> set_nth n x l = l.
Proof.
  revert n; induction l as [|z r IH]; intros [|n] H; simpl in *; try discriminate.
  - injection H as ->; reflexivity.
  - f_equal; auto.
Qed.

(** [next] and [list] on a generator object of the world. *)
Lemma py_list_cons (tr : transport) (fuel r : nat) (w w' : world) (x : val) (xs : list val) :
  py_list tr fuel r w = Some (Ok (x :: xs), w') ->
  exists w1, py_next tr fuel r w = Some (Ok x, w1) /\ py_list tr fuel r w1 = Some (Ok xs, w').
Proof.
  unfold py_list, py_next. intros H.
  destruct (nth_error (w_gens w) r) as [g|] eqn:Eg; [|discriminate]. cbn [obind] in H |- *.
  destruct (gen_drain tr fuel g (w_log w)) as [[[o g'] l']|] eqn:Ed; [|discriminate].
  injection H as -> <-.
  destruct (gen_drain_cons tr _ _ _ _ _ _ _ Ed) as [g1 [l1 [H1 H2]]].
  exists {| w_log := l1; w_gens := set_nth r g1 (w_gens w) |}. rewrite H1. split; [reflexivity|].
  cbn [w_gens w_log].
  rewrite nth_error_set_nth by (apply nth_error_Some; congruence).
  cbn [obind]. rewrite H2. rewrite set_nth_twice. reflexivity.
Qed.

Lemma py_list_drained (tr : transport) (fuel r : nat) (w w' : world) (xs : list val) :
  py_list tr fuel r w = Some (Ok xs, w') ->
  py_list tr fuel r w' = Some (Ok [], w') /\ py_next tr fuel r w' = Some (Exc StopIteration, w').
Proof.
  unfold py_list, py_next. intros H.
  destruct (nth_error (w_gens w) r) as [g|] eqn:Eg; [|discriminate]. cbn [obind] in H.
  destruct (gen_drain tr fuel g (w_log w)) as [[[o g'] l']|] eqn:Ed; [|discriminate].
  injection H as -> <-.
  pose proof (gen_drain_done tr _ _ _ _ _ _ Ed) as ->.
  pose proof (gen_drain_pos tr _ _ _ _ Ed) as Hf.
  cbn [w_gens w_log].
  rewrite nth_error_set_nth by (apply nth_error_Some; congruence). cbn [obind].
  rewrite (gen_drain_done_empty tr _ _ Hf), (gen_next_done tr _ _ Hf).
  rewrite set_nth_twice. split; reflexivity.
Qed.

(** ** [first()] and [all()] *)


(** C10. [first()] and [all()] draw from one single-pass generator: if
    draining [all()] would yield [x :: xs], then [first()] yields [x], a
    drain of [all()] afterwards yields exactly [xs], a second [first()]
    yields the head of [xs], and once drained [first()] raises StopIteration. *)
Theorem first_all_share_generator (tr : transport) (fuel : nat) (m : matcher)
    (w w' : world) (x : val) (xs : list val) :
  py_list tr fuel (ResourceMatcher_all m) w = Some (Ok (x :: xs), w') ->
  exists w1,
    ResourceMatcher_first tr fuel m w = Some (Ok x, w1) /\
    py_list tr fuel (ResourceMatcher_all m) w1 = Some (Ok xs, w') /\
    (forall x1 xs', xs = x1 :: xs' ->
       exists w2, ResourceMatcher_first tr fuel m w1 = Some (Ok x1, w2)) /\
    ResourceMatcher_first tr fuel m w' = Some (Exc StopIteration, w').
Proof.
  intros H. destruct (py_list_cons _ _ _ _ _ _ _ H) as [w1 [H1 H2]].
  exists w1. split; [exact H1|]. split; [exact H2|]. split.
  - intros x1 xs' ->. destruct (py_list_cons _ _ _ _ _ _ _ H2) as [w2 [H3 _]].
    exists w2; exact H3.
  - exact (proj2 (py_list_drained _ _ _ _ _ _ H)).
Qed.

Lemma first_all_share_generator_witness :
  ResourceMatcher list_only_tr Subject (VInt 200) [] w0 = (Ok subject_matcher, subject_world) /\
  py_list list_only_tr 20 (ResourceMatcher_all subject_matcher) subject_world =
    Some (Ok [subject_A; subject_B], subject_world_drained) /\
  exists w1,
    ResourceMatcher_first list_only_tr 20 subject_matcher subject_world = Some (Ok subject_A, w1) /\
    py_list list_only_tr 20 (ResourceMatcher_all subject_matcher) w1 =
      Some (Ok [subject_B], subject_world_drained) /\
    (forall x1 xs', [subject_B] = x1 :: xs' ->
       exists w2, ResourceMatcher_first list_only_tr 20 subject_matcher w1 = Some (Ok x1, w2)) /\
    ResourceMatcher_first list_only_tr 20 subject_matcher subject_world_drained =
      Some (Exc StopIteration, subject_world_drained).
Proof.
  split; [vm_compute; reflexivity|]. split; [vm_compute; reflexivity|].
  apply (first_all_share_generator list_only_tr 20 subject_matcher subject_world
           subject_world_drained subject_A [subject_B]).
  vm_compute; reflexivity.
Defined.

Section Paging.
Variable tr : transport.
Variable R parsed : list val.
Variable k : kind.
Variable ipp : Z.
Hypothesis Hsearch : api_search tr = paged_search R ipp.
Hypothesis Hipp : 0 < ipp.
Hypothesis Hparse : Forall2 (fun item x => parse_item k item [] = (Ok x, [])) R parsed.


Lemma parse_item_log (item : val) (log : list event) :
  parse_item k item log = (fst (parse_item k item []), log).
Proof.
  unfold parse_item, bind, lift, ret, raise. simpl.
  destruct (as_kwargs item); [|reflexivity]. simpl. destruct (new k d); reflexivity.
Qed.

Lemma mtraverse_parse (l l' : list val) (log : list event) :
  Forall2 (fun item x => parse_item k item [] = (Ok x, [])) l l' ->
  mtraverse (parse_item k) l log = (Ok l', log).
Proof.
  intros H; induction H as [|a x l l' Ha _ IH]; [reflexivity|].
  simpl. unfold bind. rewrite parse_item_log, Ha. simpl. rewrite IH. reflexivity.
Qed.

Lemma Forall2_firstn_skipn {A B} (P : A -> B -> Prop) (l : list A) (l' : list B) (a b : nat) :
  Forall2 P l l' -> Forall2 P (firstn a (skipn b l)) (firstn a (skipn b l')).
Proof.
  intros H. revert a b; induction H as [|x y l l' Hxy _ IH]; intros a b.
  - destruct a, b; constructor.
  - destruct b as [|b]; simpl; [|apply IH].
    destruct a as [|a]; simpl; [constructor|]. constructor; [exact Hxy|].
    specialize (IH a 0%nat). simpl in IH. exact IH.
Qed.

Lemma drain_yield (q : dict) (p : Z) (resp : val) (rs : list val) (fuel : nat) (log : list event) :
  gen_drain tr (length rs + S fuel) (GYield k q (VInt p) resp rs) log =
  match gen_drain tr fuel (GLoop k q (VInt (p + 1)) resp) log with
  | Some (Ok vs, g, l) => Some (Ok (rs ++ vs)%list, g, l)
  | r => r
  end.
Proof.
  induction rs as [|x rs IH]; simpl.
  - unfold bind, lift, ret. simpl.
    destruct (gen_drain tr fuel (GLoop k q (VInt (p + 1)) resp) log) as [[[[vs|e] g] l]|];
      reflexivity.
  - unfold ret. rewrite IH.
    destruct (gen_drain tr fuel (GLoop k q (VInt (p + 1)) resp) log) as [[[[vs|e] g] l]|];
      reflexivity.
Qed.

Lemma total_pages_cover :
  Z.of_nat (length R) <= ceil_div (Z.of_nat (length R)) ipp * ipp.
Proof.
  unfold ceil_div.
  pose proof (Z.div_mod (Z.of_nat (length R) + ipp - 1) ipp ltac:(lia)).
  pose proof (Z.mod_pos_bound (Z.of_nat (length R) + ipp - 1) ipp Hipp). nia.
Qed.

Lemma requested_page_set (p : Z) (q : dict) : requested_page (dset "page" (VInt p) q) = p.
Proof. unfold requested_page. rewrite dget_dset. reflexivity. Qed.

Lemma loop_step (p : Z) (q : dict) (ep ep0 : string) (q0 : dict) (log : list event) :
  p <= ceil_div (Z.of_nat (length R)) ipp -> class_endpoint k = Some ep ->
  gen_step tr (GLoop k q (VInt p) (paged_search R ipp ep0 q0)) log =
  (Ok (Continue (GYield k (dset "page" (VInt p) q) (VInt p)
                  (paged_search R ipp ep (dset "page" (VInt p) q))
                  (firstn (Z.to_nat ipp) (skipn (Z.to_nat ((p - 1) * ipp)) parsed)))),
   (log ++ [ESearch ep (dset "page" (VInt p) q)])%list).
Proof.
  intros Hle Hep. cbn [gen_step]. unfold bind, getitem, lift, ret, search, emit.
  cbn [paged_search dget String.eqb Ascii.eqb Bool.eqb py_le].
  apply Z.leb_le in Hle. rewrite Hle, Hep. rewrite Hsearch.
  cbn [paged_search dget String.eqb Ascii.eqb Bool.eqb py_iter].
  unfold bind, ret. cbn [paged_search dget String.eqb Ascii.eqb Bool.eqb py_iter].
  rewrite requested_page_set. unfold page_slice.
  rewrite (mtraverse_parse _ _ _ (Forall2_firstn_skipn _ _ _ _ _ Hparse)).
  reflexivity.
Qed.

Lemma loop_drains (n : nat) :
  forall (p : Z) (q : dict) (ep0 : string) (q0 : dict) (log : list event),
  1 <= p -> Z.to_nat (ceil_div (Z.of_nat (length R)) ipp + 1 - p) = n -> class_endpoint k <> None ->
  exists fuel log',
    gen_drain tr fuel (GLoop k q (VInt p) (paged_search R ipp ep0 q0)) log =
    Some (Ok (skipn (Z.to_nat ((p - 1) * ipp)) parsed), GDone, log').
Proof.
  induction n as [|n IH]; intros p q ep0 q0 log Hp Hn Hep.
  - exists 1%nat, log. simpl. unfold bind, getitem, lift, ret. simpl.
    pose proof total_pages_cover.
    set (T := ceil_div (Z.of_nat (length R)) ipp) in *.
    destruct (p <=? T) eqn:E; [apply Z.leb_le in E; lia|].
    rewrite skipn_all2; [reflexivity|].
    apply Z.leb_gt in E.
    pose proof (Forall2_length Hparse) as Hl. rewrite <- Hl. nia.
  - pose proof total_pages_cover as Hc. pose proof (Forall2_length Hparse) as Hl.
    destruct (p <=? ceil_div (Z.of_nat (length R)) ipp) eqn:E.
    + apply Z.leb_le in E. destruct (class_endpoint k) as [ep|] eqn:Eep; [|contradiction].
      destruct (IH (p + 1) (dset "page" (VInt p) q) ep (dset "page" (VInt p) q)
                  (log ++ [ESearch ep (dset "page" (VInt p) q)])%list)
        as [fuel0 [log0 Hd]]; [lia|lia|exact Hep|].
      set (rs := firstn (Z.to_nat ipp) (skipn (Z.to_nat ((p - 1) * ipp)) parsed)).
      exists (S (length rs + S fuel0)), log0.
      cbn [gen_drain]. rewrite (loop_step p q ep ep0 q0 log E Eep). cbv beta iota.
      rewrite drain_yield, Hd. do 3 f_equal.
      replace (Z.to_nat ((p + 1 - 1) * ipp)) with (Z.to_nat ipp + Z.to_nat ((p - 1) * ipp))%nat
        by nia.
      rewrite <- skipn_skipn. unfold rs. f_equal. apply firstn_skipn.
    + exists 1%nat, log. simpl. unfold bind, getitem, lift, ret. simpl.
      rewrite E. rewrite skipn_all2; [reflexivity|].
      apply Z.leb_gt in E. rewrite <- Hl. nia.
Qed.
End Paging.

(** C4. Against a server that pages a fixed result list [R] consistently
    ([totalItems] = length of [R], [totalPages] = ceiling of it over the page size,
    [list] = the requested page), a multi-page search (more items than
    [itemsPerPage]) of a paginated model sets [count] to the number of items, and
    draining the result generator yields exactly the parsed entities of [R], in
    page order, so [len(list(resultset.all())) == resultset.count]. *)
Theorem paged_search_drains_count (tr : transport) (R parsed : list val) (k : kind) (ipp : Z)
    (q q' : dict) (c : val) (g : gen) (log log1 : list event) :
  api_search tr = paged_search R ipp ->
  Forall2 (fun item x => parse_item k item [] = (Ok x, [])) R parsed ->
  single_page_kind k = false -> 0 < ipp -> ipp < Z.of_nat (length R) ->
  dget "page" q = None ->
  matcher_search tr k (VInt ipp) q log = (Ok (q', c, g), log1) ->
  c = VInt (Z.of_nat (length parsed)) /\
  exists fuel log2, gen_drain tr fuel g log1 = Some (Ok parsed, GDone, log2).
Proof.
  intros Hs Hp Hk Hipp HR Hq H.
  pose proof (Forall2_length Hp) as Hl.
  destruct (class_endpoint k) as [ep|] eqn:Eep.
  2:{ unfold matcher_search, bind, lift, raise in H; rewrite Eep in H; discriminate H. }
  assert (Hsub : kind_eqb k Subject = false) by (destruct k; try discriminate Hk; reflexivity).
  assert (Ele : (Z.of_nat (length R) <=? ipp) = false) by (apply Z.leb_gt; lia).
  assert (Hq1 : dget "itemsPerPage" (dset "itemsPerPage" (VInt ipp) q) = Some (VInt ipp))
    by (rewrite dget_dset; reflexivity).
  assert (Hpg : requested_page (dset "itemsPerPage" (VInt ipp) q) = 1)
    by (unfold requested_page; rewrite dget_dset; simpl; rewrite Hq; reflexivity).
  remember (dset "itemsPerPage" (VInt ipp) q) as q1 eqn:Eq1.
  assert (E : matcher_search tr k (VInt ipp) q log =
    (Ok (q1, VInt (Z.of_nat (length R)), GStart k q1 (paged_search R ipp ep q1)),
     (log ++ [ESearch ep q1])%list)).
  { unfold matcher_search, bind, lift, ret, search, emit, getitem. rewrite <- Eq1.
    rewrite Eep, Hk, Hs. cbn. rewrite Hq1. cbn. rewrite Ele, Hsub. reflexivity. }
  rewrite E in H.
  injection H as <- <- <- <-.
  split; [rewrite <- Hl; reflexivity|].
  destruct (loop_drains tr R parsed k ipp Hs Hipp Hp _ 1 q1 ep q1 (log ++ [ESearch ep q1])%list
              ltac:(lia) eq_refl ltac:(congruence)) as [fuel [log2 Hd]].
  exists (S fuel), log2. cbn [gen_drain gen_step]. unfold bind, getitem, lift, ret.
  cbn [paged_search dget String.eqb Ascii.eqb Bool.eqb]. rewrite Hpg. exact Hd.
Qed.

Lemma paged_search_drains_count_witness :
  exists q' c g log1,
    matcher_search (paged_tr two_items 1) Donor (VInt 1) [] [] = (Ok (q', c, g), log1) /\
    c = VInt (Z.of_nat (length donor_parsed)) /\
    exists fuel log2,
      gen_drain (paged_tr two_items 1) fuel g log1 = Some (Ok donor_parsed, GDone, log2).
Proof.
  destruct (matcher_search (paged_tr two_items 1) Donor (VInt 1) [] []) as [r log1] eqn:E.
  destruct r as [[[q' c] g]|e]; [|vm_compute in E; discriminate E].
  exists q', c, g, log1. split; [reflexivity|].
  apply (paged_search_drains_count (paged_tr two_items 1) two_items donor_parsed Donor 1
           [] q' c g [] log1).
  - reflexivity.
  - vm_compute. repeat constructor.
  - reflexivity.
  - reflexivity.
  - vm_compute. reflexivity.
  - reflexivity.
  - exact E.
Defined.

(** ** Properties of the remaining code: effects, search parameters, the matcher, construction *)

(** ** Further dict facts *)

Lemma dmem_dset (f key : string) (v : val) (d : dict) :
  dmem f (dset key v d) = String.eqb key f || dmem f d.
Proof. unfold dmem. rewrite dget_dset. destruct (String.eqb key f); reflexivity. Qed.

Lemma dmem_keys (f : string) (d : dict) : dmem f d = true -> In f (keys d).
Proof.
  unfold dmem; induction d as [|[k w] r IH]; simpl; [discriminate|].
  destruct (String.eqb k f) eqn:E; intros H.
  - apply String.eqb_eq in E; subst. left; reflexivity.
  - right; auto.
Qed.

Lemma keys_dset_in (x key : string) (v : val) (d : dict) :
  In x (keys (dset key v d)) -> x = key \/ In x (keys d).
Proof.
  induction d as [|[k w] r IH]; simpl.
  - intros [<-|[]]; left; reflexivity.
  - destruct (String.eqb k key) eqn:E; simpl.
    + apply String.eqb_eq in E; subst. intros [<-|H]; auto.
    + intros [<-|H]; auto. destruct (IH H); auto.
Qed.

Lemma dpop_dget (key f : string) (d d' : dict) (v : val) :
  dpop key d = Some (v, d') -> String.eqb key f = false -> dget f d' = dget f d.
Proof.
  revert d'; induction d as [|[k w] r IH]; simpl; intros d' H Hf; [discriminate|].
  destruct (String.eqb k key) eqn:E.
  - injection H as <- <-. apply String.eqb_eq in E; subst. rewrite Hf. reflexivity.
  - destruct (dpop key r) as [[v' r']|] eqn:Er; [|discriminate].
    injection H as <- <-. simpl. rewrite (IH r' eq_refl Hf). reflexivity.
Qed.

Lemma dpop_found (key : string) (d d' : dict) (v : val) :
  dpop key d = Some (v, d') -> dget key d = Some v.
Proof.
  revert d'; induction d as [|[k w] r IH]; simpl; intros d' H; [discriminate|].
  destruct (String.eqb k key) eqn:E.
  - injection H as <- <-. reflexivity.
  - destruct (dpop key r) as [[v' r']|] eqn:Er; [|discriminate].
    injection H as <- <-. exact (IH r' eq_refl).
Qed.

Lemma dpop_none (key : string) (d : dict) : dget key d = None -> dpop key d = None.
Proof.
  induction d as [|[k w] r IH]; simpl; [reflexivity|].
  destruct (String.eqb k key); [discriminate|]. intros H. rewrite (IH H). reflexivity.
Qed.

Lemma dpop_some (key : string) (d : dict) (v : val) :
  dget key d = Some v -> exists d', dpop key d = Some (v, d').
Proof.
  induction d as [|[k w] r IH]; simpl; [discriminate|].
  destruct (String.eqb k key); intros H.
  - injection H as <-. eauto.
  - destruct (IH H) as [d' ->]. eauto.
Qed.

Lemma dpop_keys (key : string) (d d' : dict) (v : val) :
  dpop key d = Some (v, d') -> forall x, In x (keys d') -> In x (keys d).
Proof.
  revert d'; induction d as [|[k w] r IH]; simpl; intros d' H x Hx; [discriminate|].
  destruct (String.eqb k key).
  - injection H as <- <-. right; exact Hx.
  - destruct (dpop key r) as [[v' r']|] eqn:Er; [|discriminate].
    injection H as <- <-. simpl in Hx. destruct Hx as [<-|Hx]; [left; reflexivity|].
    right; exact (IH r' eq_refl x Hx).
Qed.

Lemma dpop_NoDup (key : string) (d d' : dict) (v : val) :
  NoDup (keys d) -> dpop key d = Some (v, d') -> NoDup (keys d') /\ dget key d' = None.
Proof.
  revert d'; induction d as [|[k w] r IH]; simpl; intros d' Hnd H; [discriminate|].
  inversion Hnd as [|? ? Hk Hr]; subst.
  destruct (String.eqb k key) eqn:E.
  - injection H as <- <-. apply String.eqb_eq in E; subst.
    split; [exact Hr|]. apply dget_none_keys; exact Hk.
  - destruct (dpop key r) as [[v' r']|] eqn:Er; [|discriminate].
    injection H as <- <-. destruct (IH r' Hr eq_refl) as [Hnd' Hn]. simpl. split.
    + constructor; [|exact Hnd']. intros Hin; apply Hk. exact (dpop_keys _ _ _ _ Er _ Hin).
    + rewrite E. exact Hn.
Qed.

Lemma dset_NoDup (key : string) (v : val) (d : dict) :
  NoDup (keys d) -> NoDup (keys (dset key v d)).
Proof.
  induction d as [|[k w] r IH]; simpl; intros Hnd.
  - constructor; [intros []|constructor].
  - inversion Hnd as [|? ? Hk Hr]; subst.
    destruct (String.eqb k key) eqn:E; simpl; [exact Hnd|].
    constructor; [|exact (IH Hr)].
    intros Hin. destruct (keys_dset_in _ _ _ _ Hin) as [->|Hin']; [|exact (Hk Hin')].
    rewrite String.eqb_refl in E; discriminate.
Qed.

Lemma dset_dset (key : string) (v w : val) (d : dict) :
  dset key v (dset key w d) = dset key v d.
Proof.
  induction d as [|[k x] r IH]; simpl.
  - rewrite String.eqb_refl; reflexivity.
  - destruct (String.eqb k key) eqn:E; simpl; rewrite E; [reflexivity|]. rewrite IH; reflexivity.
Qed.

Lemma forallb_keys_dset (P : string -> bool) (key : string) (v : val) (d : dict) :
  P key = true -> forallb P (keys d) = true -> forallb P (keys (dset key v d)) = true.
Proof.
  intros Hk Hd. apply forallb_forall. intros x Hx.
  destruct (keys_dset_in _ _ _ _ Hx) as [->|Hx']; [exact Hk|].
  rewrite forallb_forall in Hd. exact (Hd x Hx').
Qed.

(** ** Requests issued by a computation *)

Lemma emits_ret {A} (P : event -> Prop) (a : A) : emits_only P (ret a).
Proof. intros log r log' H. injection H as _ <-. exists []. rewrite app_nil_r. auto. Qed.

Lemma emits_raise {A} (P : event -> Prop) (e : exc) : emits_only P (@raise A e).
Proof. intros log r log' H. injection H as _ <-. exists []. rewrite app_nil_r. auto. Qed.

Lemma emits_lift {A} (P : event -> Prop) (e : exc) (o : option A) : emits_only P (lift e o).
Proof. destruct o; [apply emits_ret|apply emits_raise]. Qed.

Lemma emits_bind {A B} (P : event -> Prop) (m : M A) (f : A -> M B) :
  emits_only P m -> (forall a, emits_only P (f a)) -> emits_only P (bind m f).
Proof.
  intros Hm Hf log r log' H. unfold bind in H.
  destruct (m log) as [[a|e] l1] eqn:E.
  - destruct (Hm _ _ _ E) as [l [-> Hl]]. destruct (Hf a _ _ _ H) as [l' [-> Hl']].
    exists (l ++ l')%list. rewrite app_assoc. split; [reflexivity|]. apply Forall_app; auto.
  - injection H as _ <-. exact (Hm _ _ _ E).
Qed.

Lemma emits_mfold {A B} (P : event -> Prop) (f : A -> B -> M A) (a : A) (l : list B) :
  (forall a b, emits_only P (f a b)) -> emits_only P (mfold f a l).
Proof.
  intros Hf. revert a; induction l as [|b r IH]; intros a; simpl.
  - apply emits_ret.
  - apply emits_bind; [apply Hf|intros a'; apply IH].
Qed.

Lemma emits_mtraverse {A B} (P : event -> Prop) (f : A -> M B) (l : list A) :
  (forall a, emits_only P (f a)) -> emits_only P (mtraverse f l).
Proof.
  intros Hf. induction l as [|a r IH]; simpl.
  - apply emits_ret.
  - apply emits_bind; [apply Hf|intros b]. apply emits_bind; [exact IH|intros bs; apply emits_ret].
Qed.

Create HintDb emits.
#[local] Hint Resolve emits_ret emits_raise emits_lift emits_bind emits_mfold emits_mtraverse : emits.

Ltac emits_solve :=
  repeat (apply emits_bind; [|intros ?]) ;
  repeat match goal with
         | |- emits_only _ (match ?x with _ => _ end) => destruct x
         | |- emits_only _ (if ?b then _ else _) => destruct b
         | |- emits_only _ (bind _ _) => apply emits_bind; [|intros ?]
         end ;
  eauto with emits.

Lemma emits_get_date_range (tr : transport) : emits_only is_date_range (get_date_range tr).
Proof.
  intros log r log' H. unfold get_date_range, bind, emit, ret in H. injection H as _ <-.
  exists [EDateRange]. split; [reflexivity|]. repeat constructor.
Qed.

Lemma emits_fill_open_end (tr : transport) (q : dict) :
  emits_only is_date_range (fill_open_end tr q).
Proof.
  unfold fill_open_end, earliest_date, getitem.
  destruct (_ && _); [destruct (today tr) as [[y m] d]; apply emits_ret|].
  destruct (_ && _); [|apply emits_ret].
  apply emits_bind; [|intros; apply emits_ret].
  apply emits_bind; [apply emits_get_date_range|intros a].
  emits_solve.
Qed.

Lemma emits_format_date_field (q : dict) (f : string) :
  emits_only is_date_range (format_date_field q f).
Proof. unfold format_date_field. emits_solve. Qed.

Lemma emits_Document_dates (tr : transport) (q : dict) :
  emits_only is_date_range (Document_process_date_searches tr q).
Proof.
  unfold Document_process_date_searches. apply emits_bind; [apply emits_fill_open_end|].
  intros; apply emits_bind; [apply emits_format_date_field|intros; apply emits_format_date_field].
Qed.

Lemma emits_related (q : dict) : emits_only is_date_range (process_related_model_searches q).
Proof.
  unfold process_related_model_searches. apply emits_bind.
  - apply emits_mfold. intros a b. unfold ids_of_term. emits_solve.
    apply emits_mtraverse. intros x. unfold item_id_str. emits_solve.
  - intros a. apply emits_mfold. intros a' b. unfold unwrap_single. emits_solve.
Qed.

Lemma emits_language (q : dict) :
  emits_only is_date_range (Document_process_language_search q).
Proof. unfold Document_process_language_search. emits_solve. Qed.

Lemma emits_Document_match_kwargs (tr : transport) (kwargs : dict) :
  emits_only is_date_range (Document_match_kwargs tr kwargs).
Proof.
  unfold Document_match_kwargs.
  apply emits_bind; [destruct (forallb _ _); auto with emits|intros _].
  apply emits_bind; [destruct (existsb _ _); [apply emits_Document_dates|apply emits_ret]|intros kw1].
  apply emits_bind; [destruct (dmem _ _); [apply emits_bind; [apply emits_language|intros; apply emits_lift]|apply emits_ret]|intros kw2].
  apply emits_bind; [destruct (existsb _ _); [apply emits_related|apply emits_ret]|intros kw3].
  destruct (fold_left _ _ _) as [keywords kw4].
  apply emits_bind; [apply emits_lift|intros; apply emits_ret].
Qed.

Lemma fill_open_end_keeps (tr : transport) (f : string) (q r : dict) (log log' : list event) :
  fill_open_end tr q log = (Ok r, log') -> dmem f q = true -> dmem f r = true.
Proof.
  unfold fill_open_end, bind, ret. intros H Hf.
  destruct (_ && _).
  - destruct (today tr) as [[y m] d]. injection H as <- _. rewrite dmem_dset, Hf, orb_true_r; reflexivity.
  - destruct (_ && _); [|injection H as <- _; exact Hf].
    destruct (earliest_date tr log) as [[a|e] l1]; [|discriminate].
    injection H as <- _. rewrite dmem_dset, Hf, orb_true_r; reflexivity.
Qed.

Lemma format_date_field_keeps (f field : string) (q r : dict) (log log' : list event) :
  format_date_field q field log = (Ok r, log') -> dmem f q = true -> dmem f r = true.
Proof.
  unfold format_date_field, bind, lift, ret, raise. intros H Hf.
  destruct (dget field q) as [v|]; [|discriminate].
  destruct v; try discriminate; try (injection H as <- _; rewrite dmem_dset, Hf, orb_true_r; reflexivity).
  destruct (_ =? 8)%nat; [injection H as <- _; exact Hf|discriminate].
Qed.

Lemma date_searches_keeps (tr : transport) (k : kind) (f : string) (q r : dict) (log log' : list event) :
  matcher_process_date_searches tr k q log = (Ok r, log') -> dmem f q = true -> dmem f r = true.
Proof.
  unfold matcher_process_date_searches, bind, raise. intros H Hf.
  destruct (negb _); [discriminate|].
  destruct (fill_open_end tr q log) as [[q1|e] l1] eqn:E1; [|discriminate].
  destruct (format_date_field q1 "start_date" l1) as [[q2|e] l2] eqn:E2; [|discriminate].
  eapply format_date_field_keeps; [exact H|].
  eapply format_date_field_keeps; [exact E2|].
  eapply fill_open_end_keeps; eassumption.
Qed.

Lemma emits_matcher_dates (tr : transport) (k : kind) (q : dict) :
  emits_only is_date_range (matcher_process_date_searches tr k q).
Proof.
  unfold matcher_process_date_searches. destruct (negb _); [apply emits_raise|].
  apply emits_bind; [apply emits_fill_open_end|].
  intros; apply emits_bind; [apply emits_format_date_field|intros; apply emits_format_date_field].
Qed.

(** A key the model does not accept makes [ResourceMatcher.__init__] raise,
    after at most the date-range request. *)
Lemma matcher_init_refuses (tr : transport) (k : kind) (ipp : val) (kw : dict) (x : string)
    (log : list event) :
  dmem x kw = true -> in_list x (allowed_search_fields k) = false ->
  exists e l, matcher_init tr k ipp kw log = (Exc e, (log ++ l)%list) /\ Forall is_date_range l.
Proof.
  intros Hx Ha. unfold matcher_init, bind at 1.
  destruct ((if dmem "start_date" kw || dmem "end_date" kw
             then matcher_process_date_searches tr k kw else ret kw) log) as [[q1|e] l1] eqn:E.
  - assert (Hq1 : dmem x q1 = true).
    { destruct (_ || _); [eapply date_searches_keeps; eassumption|].
      unfold ret in E; injection E as <- _; exact Hx. }
    assert (Hl : exists l, l1 = (log ++ l)%list /\ Forall is_date_range l).
    { destruct (_ || _); [eapply emits_matcher_dates; eassumption|].
      unfold ret in E; injection E as _ <-. exists []; rewrite app_nil_r; auto. }
    assert (Hf : forallb (fun key => in_list key (allowed_search_fields k)) (keys q1) = false).
    { destruct (forallb _ _) eqn:Ef; [|reflexivity].
      rewrite forallb_forall in Ef. rewrite (Ef x (dmem_keys _ _ Hq1)) in Ha. discriminate. }
    destruct Hl as [l [-> Hl]]. rewrite Hf. unfold bind at 1, raise. cbn. eauto.
  - exists e. assert (Hl : exists l, l1 = (log ++ l)%list /\ Forall is_date_range l).
    { destruct (_ || _); [eapply emits_matcher_dates; eassumption|].
      unfold ret in E; discriminate. }
    destruct Hl as [l [-> Hl]]. eauto.
Qed.

Lemma bracket_field_keeps (f field : string) (kw : dict) :
  String.eqb field f = false -> String.eqb (field ++ "[]") f = false ->
  dget f (bracket_field kw field) = dget f kw.
Proof.
  intros H1 H2. unfold bracket_field.
  destruct (dpop field kw) as [[v kw']|] eqn:E; [|reflexivity].
  rewrite dget_dset, H2. eapply dpop_dget; eassumption.
Qed.

Lemma Document_match_kwargs_q (tr : transport) (kwargs kw : dict) (log log' : list event) :
  Document_match_kwargs tr kwargs log = (Ok kw, log') -> dmem "q" kw = true.
Proof.
  unfold Document_match_kwargs. intros H. unfold bind at 1 in H.
  destruct ((if forallb _ _ then ret tt else raise InvalidSearchFieldError) log) as [[[]|e] l0];
    [|discriminate].
  unfold bind at 1 in H. destruct (_ l0) as [[kw1|e] l1]; [|discriminate].
  unfold bind at 1 in H. destruct (_ l1) as [[kw2|e] l2]; [|discriminate].
  unfold bind at 1 in H. destruct (_ l2) as [[kw3|e] l3]; [|discriminate].
  destruct (fold_left take_keyword _ _) as [keywords kw4].
  unfold bind, lift, ret, raise in H. destruct (py_join " " keywords) as [q|]; [|discriminate].
  injection H as <- _. unfold dmem. cbn [fold_left].
  repeat rewrite bracket_field_keeps by reflexivity.
  rewrite dget_dset. reflexivity.
Qed.

(** X1. Document.match never returns a matcher: every call raises, having
    sent at most [get_date_range] requests, and leaves the generators
    untouched. *)
Theorem Document_match_never_matches (tr : transport) (kwargs : dict) (w : world) :
  exists e l, Document_match tr kwargs w = (Exc e, {| w_log := (w_log w ++ l)%list; w_gens := w_gens w |})
              /\ Forall is_date_range l.
Proof.
  unfold Document_match.
  destruct (Document_match_kwargs tr kwargs (w_log w)) as [[kw|e] l1] eqn:E.
  - destruct (emits_Document_match_kwargs _ _ _ _ _ E) as [l [-> Hl]].
    pose proof (Document_match_kwargs_q _ _ _ _ _ E) as Hq.
    destruct (matcher_init_refuses tr Document (VInt 200) kw "q" (w_log w ++ l) Hq eq_refl)
      as [e [l' [Hi Hl']]].
    exists e, (l ++ l')%list. unfold ResourceMatcher. simpl. rewrite Hi. simpl.
    rewrite app_assoc. split; [reflexivity|]. apply Forall_app; auto.
  - destruct (emits_Document_match_kwargs _ _ _ _ _ E) as [l [-> Hl]]. eauto.
Qed.

Lemma kwarg_truthy (f : string) (kw : dict) :
  truthy (kwarg f kw) = true -> exists v, dget f kw = Some v.
Proof. unfold kwarg. destruct (dget f kw); [eauto|discriminate]. Qed.

Lemma no_date_field (k : kind) :
  in_list "start_date" (dataclass_fields k) = false /\ in_list "end_date" (dataclass_fields k) = false
  /\ in_list "term" (allowed_search_fields k) = false.
Proof. destruct k; vm_compute; auto. Qed.

Lemma keys_subset_dmem (x : string) (kw : dict) (P : string -> Prop) :
  (forall y, In y (keys kw) -> P y) -> ~ P x -> dmem x kw = false.
Proof.
  intros H Hx. destruct (dmem x kw) eqn:E; [|reflexivity].
  exfalso; apply Hx, H, dmem_keys, E.
Qed.

Lemma pop_to_term_ok (f : string) (kw kw' : dict) (log log' : list event) (k : kind) :
  pop_to_term f kw log = (Ok kw', log') ->
  (forall y, In y (keys kw) -> in_list y (dataclass_fields k) = true) ->
  log' = log /\ dmem "term" kw' = true /\
  (forall y, In y (keys kw') -> y = "term" \/ in_list y (dataclass_fields k) = true).
Proof.
  unfold pop_to_term, ret, raise. intros H Hk.
  destruct (dpop f kw) as [[v kw1]|] eqn:E; [|discriminate]. injection H as <- <-.
  split; [reflexivity|]. split; [rewrite dmem_dset, String.eqb_refl; reflexivity|].
  intros y Hy. destruct (keys_dset_in _ _ _ _ Hy) as [->|Hy']; [left; reflexivity|].
  right. exact (Hk y (dpop_keys _ _ _ _ E _ Hy')).
Qed.

(** X2. [MatchingMixin.match] with a truthy [name] or [value] keyword raises
    InvalidSearchFieldError or TypeError, sending no request. *)
Theorem match_name_or_value_refused (tr : transport) (k : kind) (kwargs : dict) (w : world) :
  truthy (kwarg "name" kwargs) || truthy (kwarg "value" kwargs) = true ->
  exists e, MatchingMixin_match tr k kwargs w = (Exc e, w) /\
            (e = InvalidSearchFieldError \/ e = TypeError).
Proof.
  intros Hnv. destruct w as [log gens]. unfold MatchingMixin_match, match_kwargs. simpl.
  destruct (forallb _ (keys kwargs)) eqn:Hall; simpl; [|eauto].
  assert (Hk : forall y, In y (keys kwargs) -> in_list y (dataclass_fields k) = true)
    by (rewrite forallb_forall in Hall; exact Hall).
  assert (Hfin : forall kw, dmem "term" kw = true ->
            (forall y, In y (keys kw) -> y = "term" \/ in_list y (dataclass_fields k) = true) ->
            exists e, ResourceMatcher tr k (VInt 200) kw {| w_log := log; w_gens := gens |}
                      = (Exc e, {| w_log := log; w_gens := gens |}) /\
                      (e = InvalidSearchFieldError \/ e = TypeError)).
  { intros kw Ht Hy. destruct (no_date_field k) as [Hs [He Htm]].
    assert (Ds : dmem "start_date" kw = false)
      by (apply (keys_subset_dmem _ _ _ Hy); intros [E|E]; [discriminate|congruence]).
    assert (De : dmem "end_date" kw = false)
      by (apply (keys_subset_dmem _ _ _ Hy); intros [E|E]; [discriminate|congruence]).
    assert (Hf : forallb (fun key => in_list key (allowed_search_fields k)) (keys kw) = false).
    { destruct (forallb (fun key => in_list key (allowed_search_fields k)) (keys kw)) eqn:Ef;
        [|reflexivity].
      rewrite forallb_forall in Ef. rewrite (Ef "term" (dmem_keys _ _ Ht)) in Htm. discriminate. }
    unfold ResourceMatcher, matcher_init, bind. rewrite Ds, De. cbn [orb]. unfold ret at 1.
    rewrite Hf. simpl. eauto. }
  destruct (truthy (kwarg "name" kwargs)) eqn:Hn; destruct (truthy (kwarg "value" kwargs)) eqn:Hv;
    try discriminate Hnv; cbn [andb].
  - destruct (kwarg_truthy _ _ Hn) as [n En]. destruct (dpop_some _ _ _ En) as [kw1 E1]. rewrite E1.
    destruct (kwarg_truthy _ _ Hv) as [v Ev].
    assert (Ev1 : dget "value" kw1 = Some v) by (rewrite (dpop_dget _ "value" _ _ _ E1 eq_refl); exact Ev).
    destruct (dpop_some _ _ _ Ev1) as [kw2 E2]. rewrite E2.
    destruct n; try (eexists; split; [reflexivity|right; reflexivity]).
    destruct v; try (eexists; split; [reflexivity|right; reflexivity]).
    unfold ret. apply Hfin; [rewrite dmem_dset, String.eqb_refl; reflexivity|].
    intros y Hy. destruct (keys_dset_in _ _ _ _ Hy) as [->|Hy']; [left; reflexivity|].
    right. apply Hk. apply (dpop_keys _ _ _ _ E1). apply (dpop_keys _ _ _ _ E2). exact Hy'.
  - destruct (pop_to_term "name" kwargs log) as [[kw|e] l1] eqn:E.
    + destruct (pop_to_term_ok _ _ _ _ _ k E Hk) as [-> [Ht Hy]]. apply Hfin; assumption.
    + unfold pop_to_term, raise, ret in E.
      destruct (kwarg_truthy _ _ Hn) as [n En]. destruct (dpop_some _ _ _ En) as [kw1 E1].
      rewrite E1 in E. discriminate.
  - destruct (pop_to_term "value" kwargs log) as [[kw|e] l1] eqn:E.
    + destruct (pop_to_term_ok _ _ _ _ _ k E Hk) as [-> [Ht Hy]]. apply Hfin; assumption.
    + unfold pop_to_term, raise, ret in E.
      destruct (kwarg_truthy _ _ Hv) as [n En]. destruct (dpop_some _ _ _ En) as [kw1 E1].
      rewrite E1 in E. discriminate.
Qed.

(** X3. A language search whose first entry is a 3-character string searches
    for the single Language with that id; the other entries are dropped. *)
Theorem language_search_keeps_first (query : dict) (s : string) (rest : list val) (log : list event) :
  dget "languages" query = Some (VList (VStr s :: rest)) -> String.length s = 3%nat ->
  Document_process_language_search query log =
    (Ok (Some (dset "languages" (VList [VEnt Language [("id", VStr s); ("name", VSentinel)]]) query)), log).
Proof.
  intros H Hl. unfold Document_process_language_search, bind, lift, ret. rewrite H. simpl.
  rewrite Hl. reflexivity.
Qed.

(** X4. Document.match with allowed keywords, no date and an empty
    [languages] list raises AttributeError before any request. *)
Theorem Document_match_empty_languages (tr : transport) (kwargs : dict) (log : list event) :
  forallb (fun key => in_list key document_match_allowed) (keys kwargs) = true ->
  dmem "start_date" kwargs = false -> dmem "end_date" kwargs = false ->
  dget "languages" kwargs = Some (VList []) ->
  Document_match_kwargs tr kwargs log = (Exc AttributeError, log).
Proof.
  intros Hk Hs He Hl. unfold Document_match_kwargs.
  rewrite (forallb_keys_dset _ "model" (VStr "Record") kwargs eq_refl Hk).
  unfold bind at 1, ret at 1. cbn [existsb]. rewrite !dmem_dset, Hs, He. cbn [String.eqb Ascii.eqb Bool.eqb orb].
  unfold bind at 1, ret at 1.
  assert (Hl' : dget "languages" (dset "model" (VStr "Record") kwargs) = Some (VList []))
    by (rewrite dget_dset; exact Hl).
  assert (Hm : dmem "languages" (dset "model" (VStr "Record") kwargs) = true)
    by (unfold dmem; rewrite Hl'; reflexivity).
  rewrite Hm. unfold bind at 1. unfold Document_process_language_search, bind, lift, ret.
  rewrite Hl'. reflexivity.
Qed.

(** *** The search parameters of [DigitalArchive.search] *)

Lemma substitute_id_ok (p p' : dict) (field : string) (log log' : list event) :
  substitute_id p field log = (Ok p', log') ->
  log' = log /\ (forall f, String.eqb field f = false -> dget f p' = dget f p) /\
  (NoDup (keys p) -> NoDup (keys p')).
Proof.
  unfold substitute_id, bind, ret, attr_id, lift, raise. intros H.
  destruct (dget field p) as [v|]; [|injection H as <- <-; auto].
  destruct (is_none v); [injection H as <- <-; auto|].
  destruct v; try discriminate.
  destruct (dget "id" d) as [i|]; [|discriminate]. injection H as <- <-.
  split; [reflexivity|]. split; [intros f Hf; rewrite dget_dset, Hf; reflexivity|apply dset_NoDup].
Qed.

Lemma substitute_id_exc (p : dict) (field : string) (e : exc) (log log' : list event) :
  substitute_id p field log = (Exc e, log') -> e = AttributeError /\ log' = log.
Proof.
  unfold substitute_id, bind, ret, attr_id, lift, raise. intros H.
  destruct (dget field p) as [v|]; [|discriminate].
  destruct (is_none v); [discriminate|].
  destruct v; try (injection H as <- <-; auto).
  destruct (dget "id" d); [discriminate|injection H as <- <-; auto].
Qed.

Lemma mfold_substitute_ok (l : list string) (p p1 : dict) (log log' : list event) :
  mfold substitute_id p l log = (Ok p1, log') ->
  log' = log /\ (forall f, ~ In f l -> dget f p1 = dget f p) /\ (NoDup (keys p) -> NoDup (keys p1)).
Proof.
  revert p log; induction l as [|b r IH]; simpl; intros p log H.
  - unfold ret in H. injection H as <- <-. auto.
  - unfold bind at 1 in H. destruct (substitute_id p b log) as [[p'|e] l1] eqn:E; [|discriminate].
    destruct (substitute_id_ok _ _ _ _ _ E) as [-> [Hd Hn]].
    destruct (IH _ _ H) as [-> [Hd' Hn']]. split; [reflexivity|]. split; [|auto].
    intros f Hf. rewrite Hd' by tauto. apply Hd.
    destruct (String.eqb b f) eqn:Eb; [|reflexivity].
    apply String.eqb_eq in Eb; subst; exfalso; apply Hf; left; reflexivity.
Qed.

Lemma mfold_substitute_exc (l : list string) (p : dict) (e : exc) (log log' : list event) :
  mfold substitute_id p l log = (Exc e, log') -> e = AttributeError.
Proof.
  revert p log; induction l as [|b r IH]; simpl; intros p log H; [discriminate|].
  unfold bind at 1 in H. destruct (substitute_id p b log) as [[p'|e'] l1] eqn:E.
  - exact (IH _ _ H).
  - injection H as <- _. exact (proj1 (substitute_id_exc _ _ _ _ _ E)).
Qed.

Lemma mfold_substitute_entity (l : list string) (f : string) (p p1 : dict) (k : kind) (d : dict)
    (i : val) (log log' : list event) :
  In f l -> NoDup l -> dget f p = Some (VEnt k d) -> dget "id" d = Some i ->
  mfold substitute_id p l log = (Ok p1, log') -> dget f p1 = Some i.
Proof.
  revert p log; induction l as [|b r IH]; simpl; intros p log Hin Hnd Hf Hi H; [destruct Hin|].
  inversion Hnd as [|? ? Hb Hr]; subst.
  unfold bind at 1 in H. destruct (substitute_id p b log) as [[p'|e] l1] eqn:E; [|discriminate].
  destruct Hin as [<-|Hin].
  - unfold substitute_id, attr_id, bind, lift, ret in E. rewrite Hf, Hi in E. simpl in E.
    injection E as <- _. destruct (mfold_substitute_ok _ _ _ _ _ H) as [_ [Hd _]].
    rewrite (Hd b Hb). rewrite dget_dset, String.eqb_refl. reflexivity.
  - destruct (substitute_id_ok _ _ _ _ _ E) as [-> [Hd _]].
    apply (IH p' log Hin Hr); [|exact Hi|exact H].
    rewrite Hd; [exact Hf|]. apply String.eqb_neq. intros ->. exact (Hb Hin).
Qed.

Lemma mfold_substitute_bad (l : list string) (f : string) (p : dict) (v : val) (log : list event) :
  In f l -> dget f p = Some v -> is_none v = false -> (forall k d, v <> VEnt k d) ->
  fst (mfold substitute_id p l log) = Exc AttributeError.
Proof.
  revert p log; induction l as [|b r IH]; simpl; intros p log Hin Hf Hn Hv; [destruct Hin|].
  unfold bind at 1. destruct (substitute_id p b log) as [[p'|e] l1] eqn:E.
  - destruct (String.eqb b f) eqn:Eb.
    + apply String.eqb_eq in Eb; subst b.
      unfold substitute_id, attr_id, bind, lift, ret, raise in E. rewrite Hf, Hn in E.
      destruct v; try discriminate. exfalso; exact (Hv k d eq_refl).
    + destruct (substitute_id_ok _ _ _ _ _ E) as [-> [Hd _]].
      destruct Hin as [->|Hin]; [rewrite String.eqb_refl in Eb; discriminate|].
      apply (IH p' log Hin); [rewrite Hd; assumption|assumption|assumption].
  - simpl. f_equal. exact (proj1 (substitute_id_exc _ _ _ _ _ E)).
Qed.

Lemma strip_keyword_other (p : dict) (field f : string) :
  String.eqb field f = false -> dget f (strip_keyword p field) = dget f p.
Proof.
  intros H. unfold strip_keyword.
  destruct (dget field p) as [v|]; [|reflexivity]. destruct (is_none v); [reflexivity|].
  destruct (dpop field p) as [[w p']|] eqn:E; [|reflexivity]. eapply dpop_dget; eassumption.
Qed.

Lemma strip_keyword_NoDup (p : dict) (field : string) :
  NoDup (keys p) -> NoDup (keys (strip_keyword p field)).
Proof.
  intros Hnd. unfold strip_keyword.
  destruct (dget field p) as [v|]; [|exact Hnd]. destruct (is_none v); [exact Hnd|].
  destruct (dpop field p) as [[w p']|] eqn:E; [|exact Hnd].
  exact (proj1 (dpop_NoDup _ _ _ _ Hnd E)).
Qed.

Lemma strip_keyword_self (p : dict) (field : string) :
  NoDup (keys p) ->
  dget field (strip_keyword p field) = None \/ dget field (strip_keyword p field) = Some VNone.
Proof.
  intros Hnd. unfold strip_keyword.
  destruct (dget field p) as [v|] eqn:Ev; [|left; exact Ev].
  destruct (is_none v) eqn:En.
  - right. rewrite Ev. destruct v; try discriminate; reflexivity.
  - destruct (dpop_some _ _ _ Ev) as [p' E]. rewrite E. left.
    exact (proj2 (dpop_NoDup _ _ _ _ Hnd E)).
Qed.

Lemma fold_strip_other (l : list string) (p : dict) (f : string) :
  ~ In f l -> dget f (fold_left strip_keyword l p) = dget f p.
Proof.
  revert p; induction l as [|b r IH]; simpl; intros p Hf; [reflexivity|].
  rewrite IH by tauto. apply strip_keyword_other. apply String.eqb_neq. intros ->; tauto.
Qed.

Lemma fold_strip_NoDup (l : list string) (p : dict) :
  NoDup (keys p) -> NoDup (keys (fold_left strip_keyword l p)).
Proof.
  revert p; induction l as [|b r IH]; simpl; intros p H; [exact H|].
  apply IH, strip_keyword_NoDup, H.
Qed.

Lemma fold_strip_self (l : list string) (p : dict) (f : string) :
  NoDup l -> NoDup (keys p) -> In f l ->
  dget f (fold_left strip_keyword l p) = None \/ dget f (fold_left strip_keyword l p) = Some VNone.
Proof.
  revert p; induction l as [|b r IH]; simpl; intros p Hl Hp Hin; [destruct Hin|].
  inversion Hl as [|? ? Hb Hr]; subst.
  destruct Hin as [<-|Hin].
  - rewrite fold_strip_other by exact Hb. apply strip_keyword_self, Hp.
  - apply IH; [exact Hr|apply strip_keyword_NoDup, Hp|exact Hin].
Qed.

Lemma fold_strip_keywords (p : dict) :
  fold_left strip_keyword ["name"; "title"; "description"; "slug"] p =
  strip_keyword (strip_keyword (strip_keyword (strip_keyword p "name") "title") "description") "slug".
Proof. reflexivity. Qed.

Lemma id_fields_NoDup : NoDup id_fields.
Proof. unfold id_fields. repeat constructor; simpl; intuition discriminate. Qed.

Lemma id_fields_not_special (f : string) :
  In f id_fields ->
  String.eqb "model" f = false /\ String.eqb "q" f = false /\ String.eqb "term" f = false /\
  ~ In f ["name"; "title"; "description"; "slug"].
Proof.
  unfold id_fields; simpl.
  intros H; repeat destruct H as [<-|H]; try destruct H;
    (split; [reflexivity|split; [reflexivity|split; [reflexivity|]]]); simpl; intuition discriminate.
Qed.

(** X5. For a record or collection search, the parameters sent carry [model]
    capitalised and a string [q], and none of name, title, description and
    slug is left with a value other than None. *)
Theorem search_params_record (model : string) (params p : dict) (log log' : list event) :
  NoDup (keys params) -> in_list model ["record"; "collection"] = true ->
  search_params model (Some params) log = (Ok p, log') ->
  dget "model" p = Some (VStr (capitalize model)) /\ (exists q, dget "q" p = Some (VStr q)) /\
  Forall (fun f => dget f p = None \/ dget f p = Some VNone) ["name"; "title"; "description"; "slug"].
Proof.
  intros Hnd Hm H. unfold search_params, bind at 1 in H.
  destruct (mfold substitute_id params _ log) as [[p1|e] l1] eqn:E1; [|discriminate].
  destruct (mfold_substitute_ok _ _ _ _ _ E1) as [_ [_ Hn1]].
  rewrite Hm in H. unfold bind, lift in H.
  destruct (py_join _ _) as [q|]; [|discriminate]. unfold ret in H. cbv zeta in H.
  injection H as <- <-.
  split; [rewrite dget_dset, String.eqb_refl; reflexivity|]. split.
  - exists q. assert (E : String.eqb "model" "q" = false) by reflexivity.
    rewrite dget_dset, E, <- fold_strip_keywords, fold_strip_other by (simpl; intuition discriminate).
    rewrite dget_dset, String.eqb_refl. reflexivity.
  - assert (Hl : NoDup ["name"; "title"; "description"; "slug"])
      by (repeat constructor; simpl; intuition discriminate).
    assert (Hp2 := dset_NoDup "q" (VStr q) p1 (Hn1 Hnd)).
    rewrite <- fold_strip_keywords. apply Forall_forall. intros f Hf. rewrite dget_dset.
    destruct (String.eqb "model" f) eqn:Em.
    + apply String.eqb_eq in Em. subst f. simpl in Hf. intuition discriminate.
    + apply fold_strip_self; assumption.
Qed.

(** X6. For any other model, a truthy string name and a truthy string value are
    joined with one space into [term], and both are still sent. *)
Theorem search_params_term_joins (model a b : string) (params p : dict) (log log' : list event) :
  in_list model ["record"; "collection"] = false ->
  dget "name" params = Some (VStr a) -> dget "value" params = Some (VStr b) ->
  a <> "" -> b <> "" ->
  search_params model (Some params) log = (Ok p, log') ->
  dget "term" p = Some (VStr (a ++ " " ++ b)) /\ dget "name" p = Some (VStr a) /\
  dget "value" p = Some (VStr b).
Proof.
  intros Hm Ha Hb Ha' Hb' H. unfold search_params, bind at 1 in H.
  destruct (mfold substitute_id params _ log) as [[p1|e] l1] eqn:E1; [|discriminate].
  destruct (mfold_substitute_ok _ _ _ _ _ E1) as [_ [Hd _]].
  assert (Hn : dget "name" p1 = Some (VStr a)) by (rewrite Hd; [exact Ha|simpl; intuition discriminate]).
  assert (Hv : dget "value" p1 = Some (VStr b)) by (rewrite Hd; [exact Hb|simpl; intuition discriminate]).
  rewrite Hm in H. unfold kwarg in H. rewrite Hn, Hv in H. simpl in H.
  apply String.eqb_neq in Ha', Hb'. rewrite Ha', Hb' in H. simpl in H.
  unfold bind, lift, ret in H. simpl in H. injection H as <- <-.
  rewrite !dget_dset. simpl. auto.
Qed.

(** X7. A resource given for one of the fields collection, publisher,
    repository, coverage, subject, contributor or donor is sent as its id. *)
Theorem search_params_related_id (model f : string) (params p d : dict) (k : kind) (i : val)
    (log log' : list event) :
  In f id_fields -> dget f params = Some (VEnt k d) -> dget "id" d = Some i ->
  search_params model (Some params) log = (Ok p, log') -> dget f p = Some i.
Proof.
  intros Hin Hf Hi H. destruct (id_fields_not_special f Hin) as [Hmo [Hq [Ht Hk]]].
  unfold search_params, bind at 1 in H.
  destruct (mfold substitute_id params _ log) as [[p1|e] l1] eqn:E1; [|discriminate].
  pose proof (mfold_substitute_entity _ _ _ _ _ _ _ _ _ Hin id_fields_NoDup Hf Hi E1) as Hp1.
  destruct (in_list model _).
  - unfold bind, lift in H. destruct (py_join _ _); [|discriminate]. unfold ret in H.
    cbv zeta in H. injection H as <- _. rewrite dget_dset, Hmo, <- fold_strip_keywords, fold_strip_other by exact Hk.
    rewrite dget_dset, Hq. exact Hp1.
  - destruct (truthy _ && truthy _); [|destruct (truthy _); [|destruct (truthy _)]];
      unfold bind, lift, ret in H;
      try (destruct (py_join _ _); [|discriminate]);
      injection H as <- _; rewrite ?dget_dset, ?Ht; exact Hp1.
Qed.

(** X8. A value other than None and other than a resource in one of those
    fields, such as a plain id, makes the search raise AttributeError. *)
Theorem search_params_related_attr_error (model f : string) (params : dict) (v : val)
    (log : list event) :
  In f id_fields -> dget f params = Some v -> is_none v = false -> (forall k d, v <> VEnt k d) ->
  fst (search_params model (Some params) log) = Exc AttributeError.
Proof.
  intros Hin Hf Hn Hv. unfold search_params, bind at 1.
  pose proof (mfold_substitute_bad _ _ _ _ log Hin Hf Hn Hv) as Hb.
  destruct (mfold substitute_id params _ log) as [[p1|e] l1]; simpl in Hb; [discriminate|].
  exact Hb.
Qed.

Lemma dmem_false_dget (f : string) (d : dict) : dmem f d = false -> dget f d = None.
Proof. unfold dmem. destruct (dget f d); [discriminate|reflexivity]. Qed.

Lemma related_identity (q : dict) (log : list event) :
  (forall t, In t (map fst multi_terms ++ map snd multi_terms) -> dmem t q = false) ->
  process_related_model_searches q log = (Ok q, log).
Proof.
  intros H.
  assert (Hr : rename_terms q = q).
  { unfold rename_terms.
    assert (G : forall L, (forall t, In t (map fst L) -> dmem t q = false) ->
              fold_left (fun q '(key, value) =>
                           match dpop key q with Some (v, q') => dset value v q' | None => q end)
                        L q = q).
    { induction L as [|[a b] L IHL]; simpl; intros HL; [reflexivity|].
      rewrite dpop_none by (apply dmem_false_dget, HL; left; reflexivity).
      apply IHL. intros t Ht. apply HL. right. exact Ht. }
    apply G. intros t Ht. apply H. apply in_or_app. left. exact Ht. }
  assert (Hfil : forall L, (forall t, In t L -> dmem t q = false) -> filter (fun t => dmem t q) L = []).
  { induction L as [|a L IHL]; simpl; intros HL; [reflexivity|].
    rewrite HL by (left; reflexivity). apply IHL. intros t Ht. apply HL. right. exact Ht. }
  unfold process_related_model_searches. rewrite Hr.
  rewrite Hfil by (intros t Ht; apply H, in_or_app; right; exact Ht).
  cbn [mfold]. unfold bind, ret, unwrap_single.
  rewrite (H "language") by (simpl; tauto). unfold ret; cbv beta iota.
  rewrite (H "translation") by (simpl; tauto). unfold ret; cbv beta iota.
  rewrite (H "theme") by (simpl; tauto). reflexivity.
Qed.

Lemma parse_item_pure (k : kind) (item : val) (log : list event) :
  parse_item k item log = (fst (parse_item k item log), log).
Proof.
  unfold parse_item, bind, lift, ret, raise.
  destruct (as_kwargs item); [destruct (new k d)|]; reflexivity.
Qed.

Lemma mtraverse_parse_pure (k : kind) (items : list val) (log : list event) :
  mtraverse (parse_item k) items log = (fst (mtraverse (parse_item k) items log), log).
Proof.
  induction items as [|it r IH]; simpl; [reflexivity|].
  unfold bind at 1 3. rewrite parse_item_pure.
  destruct (fst (parse_item k it log)); [|reflexivity].
  unfold bind. rewrite IH. destruct (fst (mtraverse (parse_item k) r log)); reflexivity.
Qed.

(** X9. [list(...)] on a result list built from one response, [(self.model( **item)
    for item in response["list"])], builds the resources in order, stops at
    the first item that is not a mapping or not a valid resource, and sends
    no request. *)
Theorem drain_single_page (tr : transport) (k : kind) (items : list val) (n : nat)
    (log : list event) :
  (length items < n)%nat ->
  gen_drain tr n (GExpr k items) log = Some (fst (mtraverse (parse_item k) items log), GDone, log).
Proof.
  revert n; induction items as [|it r IH]; intros n Hn; (destruct n as [|n]; [simpl in Hn; lia|]).
  - reflexivity.
  - assert (E : exists o, parse_item k it log = (o, log)) by (eexists; apply parse_item_pure).
    destruct E as [[x|e] E]; cbn [gen_drain gen_step mtraverse]; unfold bind; rewrite E;
      [|reflexivity].
    unfold ret at 1. cbv beta iota. rewrite IH by (simpl in Hn; lia).
    unfold bind. rewrite mtraverse_parse_pure.
    destruct (fst (mtraverse (parse_item k) r log)); reflexivity.
Qed.

(** X10. A matcher built with a truthy [id] and no date or related-model keyword
    fetches that one record with [api.get]: exactly one request, count 1,
    and a result list holding the response, with the query left as given. *)
Theorem matcher_by_id (tr : transport) (k : kind) (ipp : val) (kwargs : dict) (i : val)
    (ep : string) (log : list event) :
  dmem "start_date" kwargs = false -> dmem "end_date" kwargs = false ->
  forallb (fun key => in_list key (allowed_search_fields k)) (keys kwargs) = true ->
  (forall t, In t (map fst multi_terms ++ map snd multi_terms) -> dmem t kwargs = false) ->
  dget "id" kwargs = Some i -> truthy i = true -> class_endpoint k = Some ep ->
  matcher_init tr k ipp kwargs log =
  (Ok (kwargs, VInt 1, GExpr k [api_get tr (VStr ep) i]), (log ++ [EGet (VStr ep) i])%list).
Proof.
  intros Hs He Hf Hm Hi Ht Hep. unfold matcher_init. rewrite Hs, He. simpl.
  unfold bind at 1, ret at 1. rewrite Hf. unfold bind at 1, ret at 1.
  unfold bind at 1. rewrite (related_identity _ _ Hm). rewrite Hi, Ht, Hep.
  reflexivity.
Qed.

(** X11. When the first response of a paginated search reports [totalItems] at
    most [itemsPerPage], the matcher sends that one search request, counts
    [totalItems], and serves the first page's list. *)
Theorem matcher_search_single_page (tr : transport) (k : kind) (ipp n : Z) (q r p : dict)
    (items : list val) (ep : string) (log : list event) :
  class_endpoint k = Some ep -> single_page_kind k = false ->
  api_search tr ep (dset "itemsPerPage" (VInt ipp) q) = VDict r ->
  dget "pagination" r = Some (VDict p) -> dget "totalItems" p = Some (VInt n) ->
  dget "list" r = Some (VList items) -> n <= ipp ->
  matcher_search tr k (VInt ipp) q log =
  (Ok (dset "itemsPerPage" (VInt ipp) q, VInt n, GExpr k items),
   (log ++ [ESearch ep (dset "itemsPerPage" (VInt ipp) q)])%list).
Proof.
  intros Hep Hk Hs Hp Ht Hl Hn. unfold matcher_search.
  unfold bind, lift, ret. rewrite Hep. unfold search, bind, emit, ret. rewrite Hs, Hk.
  unfold getitem, lift, ret. rewrite Hp, Ht, dget_dset, String.eqb_refl. simpl.
  apply Z.leb_le in Hn. rewrite Hn, Hl. reflexivity.
Qed.

(** X12. A start date alone, given as an 8-character string, is kept, and the end
    date is set to today's date as [YYYYMMDD]; no request is sent. *)
Theorem date_search_open_end (tr : transport) (q : dict) (s : string) (log : list event) :
  dget "start_date" q = Some (VStr s) -> String.length s = 8%nat -> dmem "end_date" q = false ->
  Document_process_date_searches tr q log =
  (Ok (dset "end_date" (VStr (let '(y, m, d) := today tr in format_date y m d)) q), log).
Proof.
  intros Hs Hl He. unfold Document_process_date_searches, fill_open_end.
  unfold dmem at 1. rewrite Hs, He. simpl.
  destruct (today tr) as [[y m] d]. unfold bind, ret at 1.
  unfold format_date_field, bind, lift, ret.
  rewrite dget_dset. simpl. rewrite Hs, Hl. simpl.
  rewrite dget_dset, String.eqb_refl, dset_dset. reflexivity.
Qed.

(** X13. An end date alone, given as an 8-character string, is kept; the start
    date is the archive's earliest date from one [get_date_range] request,
    formatted as [YYYYMMDD]. *)
Theorem date_search_open_start (tr : transport) (q r : dict) (s b : string) (y m d : Z)
    (log : list event) :
  dget "end_date" q = Some (VStr s) -> String.length s = 8%nat -> dmem "start_date" q = false ->
  api_get_date_range tr = VDict r -> dget "begin" r = Some (VStr b) ->
  _parse_date_range_start (VStr b) = Some (VDate y m d) ->
  Document_process_date_searches tr q log =
  (Ok (dset "start_date" (VStr (format_date y m d)) q), (log ++ [EDateRange])%list).
Proof.
  intros He Hl Hs Hr Hb Hp. unfold Document_process_date_searches, fill_open_end.
  rewrite Hs. unfold dmem at 2. rewrite He. simpl.
  unfold earliest_date, get_date_range, bind, emit, ret. rewrite Hr. unfold getitem, lift, ret.
  rewrite Hb, Hp. unfold format_date_field, bind, lift, ret.
  rewrite dget_dset, String.eqb_refl, dset_dset. simpl.
  rewrite dget_dset. simpl. rewrite He, Hl. reflexivity.
Qed.

Lemma digit_char_facts (x : Z) :
  0 <= x <= 9 ->
  is_digit (digit_char x) = true /\ is_space (digit_char x) = false /\
  Ascii.eqb (digit_char x) "-"%char = false /\ Ascii.eqb (digit_char x) "+"%char = false /\
  digit_value (digit_char x) = x.
Proof.
  intros H.
  assert (x = 0 \/ x = 1 \/ x = 2 \/ x = 3 \/ x = 4 \/ x = 5 \/ x = 6 \/ x = 7 \/ x = 8 \/ x = 9)
    as Hx by lia.
  repeat destruct Hx as [->|Hx]; try (subst x); vm_compute; repeat split.
Qed.

Lemma digits_aux_small (f : nat) (n : Z) (acc : string) :
  0 <= n < 10 -> digits_aux (S f) n acc = String (digit_char n) acc.
Proof.
  intros H. simpl. rewrite Z.div_small, Z.mod_small by lia. reflexivity.
Qed.

Lemma digits_aux_big (f : nat) (n : Z) (acc : string) :
  10 <= n -> digits_aux (S f) n acc = digits_aux f (n / 10) (String (digit_char (n mod 10)) acc).
Proof.
  intros H. simpl. assert (E : (n / 10 =? 0) = false).
  { apply Z.eqb_neq. assert (0 < 10 <= n) as H10 by lia.
    pose proof (Z.div_str_pos n 10 H10). lia. }
  rewrite E. reflexivity.
Qed.

Lemma str_of_Z_4 (y : Z) :
  1000 <= y <= 9999 ->
  str_of_Z y = String (digit_char (y / 10 / 10 / 10))
                 (String (digit_char (y / 10 / 10 mod 10))
                   (String (digit_char (y / 10 mod 10)) (String (digit_char (y mod 10)) ""))).
Proof.
  intros H. unfold str_of_Z. assert (E : (y <? 0) = false) by (apply Z.ltb_ge; lia). rewrite E.
  assert (H512 : 512 <= y) by lia. pose proof (Z.log2_le_mono 512 y H512) as Hl. change (Z.log2 512) with 9 in Hl.
  assert (Hf : (3 <= Z.to_nat (Z.log2 y))%nat) by lia.
  destruct (Z.to_nat (Z.log2 y)) as [|[|[|f]]]; [lia|lia|lia|].
  rewrite digits_aux_big by lia. rewrite digits_aux_big by (Z.div_mod_to_equations; lia).
  rewrite digits_aux_big by (Z.div_mod_to_equations; lia).
  rewrite digits_aux_small by (Z.div_mod_to_equations; lia). reflexivity.
Qed.

Lemma two_digits_eq (n : Z) :
  0 <= n < 100 -> two_digits n = String (digit_char (n / 10)) (String (digit_char (n mod 10)) "").
Proof.
  intros H. unfold two_digits, str_of_Z. assert (E : (n <? 0) = false) by (apply Z.ltb_ge; lia).
  rewrite E. destruct (n <? 10) eqn:E10.
  - apply Z.ltb_lt in E10. rewrite digits_aux_small by lia.
    rewrite Z.div_small, Z.mod_small by lia. reflexivity.
  - apply Z.ltb_ge in E10.
    assert (H8 : 8 <= n) by lia. pose proof (Z.log2_le_mono 8 n H8) as Hl. change (Z.log2 8) with 3 in Hl.
    assert (Hf : (1 <= Z.to_nat (Z.log2 n))%nat) by lia.
    destruct (Z.to_nat (Z.log2 n)) as [|f]; [lia|].
    rewrite digits_aux_big by lia. rewrite digits_aux_small by (Z.div_mod_to_equations; lia).
    reflexivity.
Qed.

Lemma py_int_4 (c1 c2 c3 c4 : ascii) :
  is_digit c1 = true -> is_digit c2 = true -> is_digit c3 = true -> is_digit c4 = true ->
  is_space c1 = false -> is_space c4 = false ->
  Ascii.eqb c1 "-"%char = false -> Ascii.eqb c1 "+"%char = false ->
  py_int (String c1 (String c2 (String c3 (String c4 "")))) =
  Some (10 * (10 * (10 * (10 * 0 + digit_value c1) + digit_value c2) + digit_value c3)
        + digit_value c4).
Proof.
  intros D1 D2 D3 D4 S1 S4 M1 P1. unfold py_int, strip. simpl.
  rewrite S1. simpl. rewrite S4. simpl. rewrite M1, P1, D1. simpl. rewrite D2, D3, D4. reflexivity.
Qed.

Lemma py_int_2 (c1 c2 : ascii) :
  is_digit c1 = true -> is_digit c2 = true -> is_space c1 = false -> is_space c2 = false ->
  Ascii.eqb c1 "-"%char = false -> Ascii.eqb c1 "+"%char = false ->
  py_int (String c1 (String c2 "")) = Some (10 * (10 * 0 + digit_value c1) + digit_value c2).
Proof.
  intros D1 D2 S1 S2 M1 P1. unfold py_int, strip. simpl.
  rewrite S1. simpl. rewrite S2. simpl. rewrite M1, P1, D1. simpl. rewrite D2. reflexivity.
Qed.

Lemma days_in_month_le (y m : Z) : days_in_month y m <= 31.
Proof.
  unfold days_in_month. destruct (m =? 2); [destruct (is_leap y); lia|].
  destruct (_ || _); lia.
Qed.

Lemma py_date_bounds (y m d : Z) (v : val) :
  py_date y m d = Some v -> 1 <= y <= 9999 /\ 1 <= m <= 12 /\ 1 <= d <= 31.
Proof.
  unfold py_date. pose proof (days_in_month_le y m).
  destruct ((1 <=? y) && (y <=? 9999) && (1 <=? m) && (m <=? 12) && (1 <=? d) &&
            (d <=? days_in_month y m)) eqn:E; [|discriminate].
  intros _. rewrite !andb_true_iff, !Z.leb_le in E. lia.
Qed.

(** X14. For a valid date with a four-digit year, [_parse_date_range_start]
    reads back the [YYYYMMDD] string that date searches send: the two
    functions are inverse on such dates. *)
Theorem format_date_round_trip (y m d : Z) :
  1000 <= y -> py_date y m d = Some (VDate y m d) ->
  _parse_date_range_start (VStr (format_date y m d)) = Some (VDate y m d).
Proof.
  intros Hy H. destruct (py_date_bounds _ _ _ _ H) as [By [Bm Bd]].
  unfold format_date. rewrite str_of_Z_4, two_digits_eq, two_digits_eq by lia.
  destruct (digit_char_facts (y / 10 / 10 / 10)) as [D1 [S1 [M1 [P1 V1]]]];
    [Z.div_mod_to_equations; lia|].
  destruct (digit_char_facts (y / 10 / 10 mod 10)) as [D2 [S2 [_ [_ V2]]]]; [Z.div_mod_to_equations; lia|].
  destruct (digit_char_facts (y / 10 mod 10)) as [D3 [S3 [_ [_ V3]]]]; [Z.div_mod_to_equations; lia|].
  destruct (digit_char_facts (y mod 10)) as [D4 [S4 [_ [_ V4]]]]; [Z.div_mod_to_equations; lia|].
  destruct (digit_char_facts (m / 10)) as [D5 [S5 [M5 [P5 V5]]]]; [Z.div_mod_to_equations; lia|].
  destruct (digit_char_facts (m mod 10)) as [D6 [S6 [_ [_ V6]]]]; [Z.div_mod_to_equations; lia|].
  destruct (digit_char_facts (d / 10)) as [D7 [S7 [M7 [P7 V7]]]]; [Z.div_mod_to_equations; lia|].
  destruct (digit_char_facts (d mod 10)) as [D8 [S8 [_ [_ V8]]]]; [Z.div_mod_to_equations; lia|].
  assert (Ey : 10 * (10 * (10 * (10 * 0 + digit_value (digit_char (y / 10 / 10 / 10)))
               + digit_value (digit_char (y / 10 / 10 mod 10)))
               + digit_value (digit_char (y / 10 mod 10))) + digit_value (digit_char (y mod 10)) = y)
    by (rewrite V1, V2, V3, V4; Z.div_mod_to_equations; lia).
  assert (Em : 10 * (10 * 0 + digit_value (digit_char (m / 10))) + digit_value (digit_char (m mod 10)) = m)
    by (rewrite V5, V6; Z.div_mod_to_equations; lia).
  assert (Ed : 10 * (10 * 0 + digit_value (digit_char (d / 10))) + digit_value (digit_char (d mod 10)) = d)
    by (rewrite V7, V8; Z.div_mod_to_equations; lia).
  revert D1 D2 D3 D4 S1 S2 S3 S4 M1 P1 D5 D6 S5 S6 M5 P5 D7 D8 S7 S8 M7 P7 Ey Em Ed.
  generalize (digit_char (y / 10 / 10 / 10)) (digit_char (y / 10 / 10 mod 10))
    (digit_char (y / 10 mod 10)) (digit_char (y mod 10)) (digit_char (m / 10))
    (digit_char (m mod 10)) (digit_char (d / 10)) (digit_char (d mod 10)).
  intros c1 c2 c3 c4 c5 c6 c7 c8.
  intros D1 D2 D3 D4 S1 S2 S3 S4 M1 P1 D5 D6 S5 S6 M5 P5 D7 D8 S7 S8 M7 P7 Ey Em Ed.
  unfold _parse_date_range_start. simpl.
  unfold slice_to, slice, slice_last2. simpl.
  rewrite py_int_4, py_int_2, py_int_2 by assumption.
  rewrite Ey, Em, Ed. exact H.
Qed.

Section NormPairs.
Variable g : string -> val -> option val.

Lemma norm_pairs_keys (fs fs' : dict) :
  otraverse (fun '(f, v) => option_map (fun w => (f, w)) (g f v)) fs = Some fs' ->
  keys fs' = keys fs.
Proof.
  intros H. apply otraverse_Forall2 in H.
  induction H as [|[f v] [f' w] l l' Hp _ IH]; [reflexivity|].
  simpl. destruct (g f v); simpl in Hp; [|discriminate]. injection Hp as <- _.
  f_equal. exact IH.
Qed.

Lemma norm_pairs_in (fs fs' : dict) (f : string) (w : val) :
  otraverse (fun '(f, v) => option_map (fun w => (f, w)) (g f v)) fs = Some fs' ->
  In (f, w) fs' -> exists v, g f v = Some w.
Proof.
  intros H. apply otraverse_Forall2 in H.
  induction H as [|[f0 v] [f' w'] l l' Hp _ IH]; simpl; [tauto|].
  intros [E|Hin]; [|exact (IH Hin)].
  injection E as -> ->. destruct (g f0 v) eqn:Eg; simpl in Hp; [|discriminate].
  injection Hp as -> ->. eauto.
Qed.

Lemma norm_pairs_dget (fs fs' : dict) (f : string) (v : val) :
  otraverse (fun '(f, v) => option_map (fun w => (f, w)) (g f v)) fs = Some fs' ->
  dget f fs = Some v -> exists w, g f v = Some w /\ dget f fs' = Some w.
Proof.
  intros H. apply otraverse_Forall2 in H.
  induction H as [|[f0 v0] [f' w'] l l' Hp _ IH]; simpl; [discriminate|].
  destruct (g f0 v0) eqn:Eg; simpl in Hp; [|discriminate]. injection Hp as <- <-.
  destruct (String.eqb f0 f) eqn:E.
  - intros Hv. injection Hv as <-. apply String.eqb_eq in E; subst f0. eauto.
  - exact IH.
Qed.

End NormPairs.

Lemma new_post (k : kind) (kw d : dict) :
  new k kw = Some d ->
  exists n fs fs',
    forallb (fun p => in_list (fst p) (dataclass_fields k)) kw = true /\
    assign (schema k) kw = Some fs /\
    otraverse (fun '(f, v) => option_map (fun w => (f, w))
                 (norm (fun k' d => option_map (VEnt k') (construct n k' d)) k f v)) fs
    = Some fs' /\
    (if kind_eqb k MediaFile then exists p, dget "path" fs' = Some p /\ d = (fs' ++ [("url", p)])%list
     else d = fs').
Proof.
  unfold new. generalize (val_depth (VDict kw)). intros n H. simpl in H.
  destruct (forallb _ kw) eqn:Ef; [|discriminate].
  destruct (assign (schema k) kw) as [fs|] eqn:Ea; cbn [obind] in H; [|discriminate].
  unfold post_init in H.
  destruct (otraverse _ fs) as [fs'|] eqn:Eo; cbn [obind] in H; [|discriminate].
  exists n, fs, fs'. split; [reflexivity|]. split; [reflexivity|]. split; [exact Eo|].
  destruct k; simpl in H |- *; try (injection H as <-; reflexivity).
  destruct (dget "path" fs') as [p|]; cbn [obind] in H; [|discriminate].
  injection H as <-. eauto.
Qed.

Lemma new_field_in (k : kind) (kw d : dict) (f : string) (w : val) :
  new k kw = Some d -> In (f, w) d -> ~ (k = MediaFile /\ f = "url") ->
  exists n v, norm (fun k' d => option_map (VEnt k') (construct n k' d)) k f v = Some w.
Proof.
  intros H Hin Hu. destruct (new_post _ _ _ H) as [n [fs [fs' [_ [_ [Eo Hd]]]]]].
  exists n. destruct (kind_eqb k MediaFile) eqn:Ek.
  - apply kind_eqb_spec in Ek. subst k. destruct Hd as [p [_ ->]].
    apply in_app_or in Hin. destruct Hin as [Hin|[E|[]]].
    + eapply norm_pairs_in; eassumption.
    + injection E as <- _. tauto.
  - subst d. eapply norm_pairs_in; eassumption.
Qed.

Lemma new_field_dget (k : kind) (kw d : dict) (f : string) (w : val) :
  new k kw = Some d -> dget f d = Some w -> k <> MediaFile ->
  exists n v, norm (fun k' d => option_map (VEnt k') (construct n k' d)) k f v = Some w.
Proof.
  intros H Hg Hk. apply dget_in in Hg. eapply new_field_in; [exact H|exact Hg|tauto].
Qed.

Lemma new_kwarg (k : kind) (kw d : dict) (f : string) (v : val) :
  new k kw = Some d -> dget f kw = Some v ->
  exists n w, norm (fun k' d => option_map (VEnt k') (construct n k' d)) k f v = Some w /\
              dget f d = Some w.
Proof.
  intros H Hv. destruct (new_post _ _ _ H) as [n [fs [fs' [Ef [Ea [Eo Hd]]]]]].
  assert (Hfs : dget f fs = Some v).
  { assert (Hin : In f (map fst (schema k))).
    { apply forallb_forall with (x := (f, v)) in Ef; [|apply dget_in, Hv].
      unfold in_list in Ef. apply existsb_exists in Ef. destruct Ef as [x [Hx Ex]].
      apply String.eqb_eq in Ex. subst x. exact Hx. }
    clear - Ea Hv Hin. unfold assign in Ea. revert fs Ea Hin.
    induction (schema k) as [|[f0 dflt] r IH]; simpl; intros fs Ea Hin; [destruct Hin|].
    destruct (dget f0 kw) as [v0|] eqn:E0; cbn [obind] in Ea.
    - destruct (otraverse _ r) as [fr|] eqn:Er; cbn [obind] in Ea; [|discriminate].
      injection Ea as <-. simpl. destruct (String.eqb f0 f) eqn:E.
      + apply String.eqb_eq in E; subst. congruence.
      + apply IH; [reflexivity|]. destruct Hin as [->|Hin]; [rewrite String.eqb_refl in E; discriminate|exact Hin].
    - destruct dflt as [v0|]; cbn [option_map obind] in Ea; [|discriminate].
      destruct (otraverse _ r) as [fr|] eqn:Er; cbn [obind] in Ea; [|discriminate].
      injection Ea as <-. simpl. destruct (String.eqb f0 f) eqn:E.
      + apply String.eqb_eq in E; subst. congruence.
      + apply IH; [reflexivity|]. destruct Hin as [->|Hin]; [rewrite String.eqb_refl in E; discriminate|exact Hin]. }
  destruct (norm_pairs_dget _ _ _ _ _ Eo Hfs) as [w [Hw Hg]].
  exists n, w. split; [exact Hw|].
  destruct (kind_eqb k MediaFile); [destruct Hd as [p [_ ->]]|subst d; exact Hg].
  rewrite <- (app_nil_r fs') in Hg. clear - Hg.
  induction fs' as [|[a b] r IH]; simpl in *; [discriminate|].
  destruct (String.eqb a f); [exact Hg|exact (IH Hg)].
Qed.

Lemma new_fields_keys (k : kind) (kw d : dict) :
  new k kw = Some d ->
  keys d = (dataclass_fields k ++ (if kind_eqb k MediaFile then ["url"] else []))%list.
Proof.
  intros H. destruct (new_post _ _ _ H) as [n [fs [fs' [_ [Ea [Eo Hd]]]]]].
  pose proof (norm_pairs_keys _ _ _ Eo) as Hk. rewrite (assign_keys _ _ _ Ea) in Hk.
  unfold dataclass_fields. destruct (kind_eqb k MediaFile).
  - destruct Hd as [p [_ ->]]. unfold keys in *. rewrite map_app, Hk. reflexivity.
  - subst d. rewrite Hk, app_nil_r. reflexivity.
Qed.

(** X15. A constructed resource holds exactly the dataclass fields of its class,
    in declaration order; a MediaFile holds [url] after them. *)
Theorem new_keys (k : kind) (kw d : dict) :
  new k kw = Some d ->
  keys d = (dataclass_fields k ++ (if kind_eqb k MediaFile then ["url"] else []))%list.
Proof. exact (new_fields_keys k kw d). Qed.

(** X16. After [Coverage.__post_init__], [parent] is a Coverage, None or
    unhydrated, and [children] is unhydrated or a sequence whose first
    element is a Coverage. *)
Theorem new_coverage_parent_children (kw d : dict) (p c : val) :
  new Coverage kw = Some d -> dget "parent" d = Some p -> dget "children" d = Some c ->
  (is_kind Coverage p = true \/ p = VNone \/ p = VSentinel) /\
  (c = VSentinel \/ exists x, py_index0 c = Some x /\ is_kind Coverage x = true).
Proof.
  intros H Hp Hc. split.
  - destruct (new_field_dget _ _ _ _ _ H Hp ltac:(discriminate)) as [n [v E]].
    simpl in E. eapply coverage_parent_out; [apply construct_mk_ok|exact E].
  - destruct (new_field_dget _ _ _ _ _ H Hc ltac:(discriminate)) as [n [v E]].
    simpl in E. eapply coverage_children_out; [apply construct_mk_ok|exact E].
Qed.

(** X17. A constructed Collection or Document never keeps a string in
    [source_created_at], [source_updated_at] or [first_published_at], nor a
    Document in [date_range_start]: strings are parsed into dates or the
    construction raises. *)
Theorem new_dates_parsed (k : kind) (kw d : dict) (f : string) (v : val) :
  new k kw = Some d ->
  ((k = Collection \/ k = Document) /\ In f ["source_created_at"; "source_updated_at"; "first_published_at"]
   \/ k = Document /\ f = "date_range_start") ->
  dget f d = Some v -> is_str v = false.
Proof.
  intros H Hf Hv.
  assert (Hk : k <> MediaFile) by (destruct Hf as [[[->| ->] _]|[-> _]]; discriminate).
  destruct (new_field_dget _ _ _ _ _ H Hv Hk) as [n [v0 E]].
  destruct Hf as [[[->| ->] Hin]|[-> ->]];
    [| |simpl in E; destruct v0; try (injection E as <-; reflexivity);
        eapply parse_date_range_start_out; exact E];
    simpl in Hin; repeat destruct Hin as [<-|Hin]; try destruct Hin;
    simpl in E; eapply process_timestamp_out; exact E.
Qed.

(** X18. A Document child-record field given as a non-empty list of dicts is
    built into a list of resources of the table's kind, one per dict. *)
Theorem new_document_child_list (kw d : dict) (f : string) (ck : kind) (x : dict) (r : list val) :
  child_kind f = Some ck -> dget f kw = Some (VList (VDict x :: r)) ->
  new Document kw = Some d ->
  exists l, dget f d = Some (VList l) /\ length l = S (length r) /\
            Forall (fun e => is_kind ck e = true) l.
Proof.
  intros Hc Hv H. destruct (new_kwarg _ _ _ _ _ H Hv) as [n [w [E Hd]]].
  simpl in E. rewrite Hc in E. unfold parse_child in E. simpl in E.
  destruct (mk_from _ ck (VDict x)) as [y|] eqn:Ey; cbn [obind] in E; [|discriminate].
  destruct (otraverse (mk_from _ ck) r) as [ys|] eqn:Er; cbn [obind] in E; [|discriminate].
  injection E as <-. exists (y :: ys). split; [exact Hd|]. split.
  - simpl. f_equal. exact (otraverse_length _ _ _ Er).
  - constructor.
    + destruct (mk_from_ok _ _ _ _ (construct_mk_ok n) Ey) as [dd ->]. apply kind_eqb_refl.
    + apply otraverse_Forall2 in Er. clear - Er.
      induction Er as [|a b l l' Hab _ IH]; constructor; [|exact IH].
      destruct (mk_from_ok _ _ _ _ (construct_mk_ok n) Hab) as [dd ->]. apply kind_eqb_refl.
Qed.

(** X19. After [Theme.__post_init__], [featured_collections] is unhydrated or a
    list of Collections. *)
Theorem new_theme_featured (kw d : dict) (v : val) :
  new Theme kw = Some d -> dget "featured_collections" d = Some v ->
  v = VSentinel \/ exists l, v = VList l /\ Forall (fun c => is_kind Collection c = true) l.
Proof.
  intros H Hv. destruct (new_field_dget _ _ _ _ _ H Hv ltac:(discriminate)) as [n [v0 E]].
  simpl in E. eapply theme_featured_out; [apply construct_mk_ok|exact E].
Qed.

(** X20. A constructed Translation always holds a Language in [language]. *)
Theorem new_translation_language (kw d : dict) :
  new Translation kw = Some d -> exists l, dget "language" d = Some (VEnt Language l).
Proof.
  intros H. pose proof (new_fields_keys _ _ _ H) as Hk. simpl in Hk.
  destruct (dget "language" d) as [v|] eqn:Ev.
  - destruct (new_field_dget _ _ _ _ _ H Ev ltac:(discriminate)) as [n [v0 E]].
    simpl in E. destruct (mk_from_ok _ _ _ _ (construct_mk_ok n) E) as [l ->]. eauto.
  - exfalso. assert (Hin : In "language" (keys d)) by (rewrite Hk; simpl; tauto).
    clear - Ev Hin. induction d as [|[a b] r IH]; simpl in *; [exact Hin|].
    destruct (String.eqb a "language") eqn:E; [discriminate|].
    destruct Hin as [->|Hin]; [rewrite String.eqb_refl in E; discriminate|exact (IH Ev Hin)].
Qed.

(** X21. A constructed MediaFile has a [path], and its [url] equals it. *)
Theorem new_mediafile_url (kw d : dict) :
  new MediaFile kw = Some d -> exists p, dget "path" d = Some p /\ dget "url" d = Some p.
Proof.
  intros H. destruct (new_post _ _ _ H) as [n [fs [fs' [_ [Ea [Eo Hd]]]]]].
  simpl in Hd. destruct Hd as [p [Hp ->]]. exists p. split.
  - clear - Hp. induction fs' as [|[a b] r IH]; simpl in *; [discriminate|].
    destruct (String.eqb a "path"); [exact Hp|exact (IH Hp)].
  - rewrite dget_app_notin.
    + simpl. reflexivity.
    + rewrite (norm_pairs_keys _ _ _ Eo), (assign_keys _ _ _ Ea). simpl. intuition discriminate.
Qed.

Lemma rename_terms_fold (q : dict) : rename_terms q = fold_left rename_step multi_terms q.
Proof. reflexivity. Qed.

Lemma rename_fold_absent (L : list (string * string)) (q : dict) :
  (forall t, In t (map fst L) -> dget t q = None) -> fold_left rename_step L q = q.
Proof.
  revert q; induction L as [|[a b] L IH]; simpl; intros q H; [reflexivity|].
  rewrite dpop_none by (apply H; left; reflexivity). apply IH. intros t Ht. apply H. right. exact Ht.
Qed.

Lemma multi_terms_shape (pl sg : string) :
  In (pl, sg) multi_terms ->
  exists L1 L2, multi_terms = (L1 ++ (pl, sg) :: L2)%list /\
    ~ In pl (map fst L1) /\ ~ In pl (map fst L2) /\
    (forall t, In t (map fst multi_terms) -> t <> sg) /\
    (forall t, In t (map snd multi_terms) -> t <> pl).
Proof.
  intros H. destruct (in_split _ _ H) as [L1 [L2 E]]. exists L1, L2. split; [exact E|].
  assert (Hnd : NoDup (map fst multi_terms)) by (repeat constructor; simpl; intuition discriminate).
  rewrite E, map_app in Hnd. simpl in Hnd. split; [|split].
  - intros Hin. apply (NoDup_remove_2 _ _ _ Hnd). apply in_or_app. left. exact Hin.
  - intros Hin. apply (NoDup_remove_2 _ _ _ Hnd). apply in_or_app. right. exact Hin.
  - assert (B1 : forallb (fun p => forallb (fun t => negb (String.eqb t (snd p)))
                                      (map fst multi_terms)) multi_terms = true) by reflexivity.
    assert (B2 : forallb (fun p => forallb (fun t => negb (String.eqb t (fst p)))
                                      (map snd multi_terms)) multi_terms = true) by reflexivity.
    rewrite forallb_forall in B1, B2. specialize (B1 _ H). specialize (B2 _ H).
    rewrite forallb_forall in B1, B2. simpl in B1, B2.
    split; intros t Ht Et; subst t;
      [specialize (B1 _ Ht)|specialize (B2 _ Ht)]; rewrite String.eqb_refl in *; discriminate.
Qed.

Lemma rename_only (q q0 : dict) (pl sg : string) (v : val) :
  In (pl, sg) multi_terms -> dpop pl q = Some (v, q0) ->
  (forall t, In t (map fst multi_terms) -> t <> pl -> dmem t q = false) ->
  rename_terms q = dset sg v q0.
Proof.
  intros Hin Hp Ha. destruct (multi_terms_shape _ _ Hin) as [L1 [L2 [E [N1 [N2 [Hs _]]]]]].
  rewrite rename_terms_fold, E, fold_left_app.
  rewrite (rename_fold_absent L1 q).
  - cbn [fold_left rename_step]. rewrite Hp. apply rename_fold_absent. intros t Ht.
    rewrite dget_dset. destruct (String.eqb sg t) eqn:Et.
    + apply String.eqb_eq in Et. subst t. exfalso. apply (Hs sg); [|reflexivity].
      rewrite E, map_app. apply in_or_app. right. right. exact Ht.
    + rewrite (dpop_dget _ _ _ _ _ Hp).
      * apply dmem_false_dget, Ha; [rewrite E, map_app; apply in_or_app; right; right; exact Ht|].
        intros ->. exact (N2 Ht).
      * apply String.eqb_neq. intros ->. exact (N2 Ht).
  - intros t Ht. apply dmem_false_dget, Ha.
    + rewrite E, map_app. apply in_or_app. left. exact Ht.
    + intros ->. exact (N1 Ht).
Qed.

Lemma filter_only (q0 : dict) (sg : string) (v : val) (L : list string) :
  (forall t, In t L -> t <> sg -> dmem t q0 = false) ->
  filter (fun t => dmem t (dset sg v q0)) L = filter (fun t => String.eqb sg t) L.
Proof.
  induction L as [|t L IH]; simpl; intros H; [reflexivity|].
  rewrite dmem_dset. destruct (String.eqb sg t) eqn:E; simpl.
  - f_equal. apply IH. intros u Hu. apply H. right. exact Hu.
  - rewrite H; [|left; reflexivity|apply String.eqb_neq in E; auto].
    apply IH. intros u Hu. apply H. right. exact Hu.
Qed.

Lemma item_id_str_ok (k : kind) (d : dict) (i : val) (s : string) (log : list event) :
  dget "id" d = Some i -> py_str i = Some s -> item_id_str (VEnt k d) log = (Ok (VStr s), log).
Proof.
  intros Hi Hs. unfold item_id_str, bind, lift. rewrite Hi. unfold ret at 1. cbv beta iota.
  rewrite Hs. reflexivity.
Qed.

Lemma mtraverse_item_ids (items : list val) (ss : list string) (log : list event) :
  Forall2 (fun it s => exists k d i, it = VEnt k d /\ dget "id" d = Some i /\ py_str i = Some s)
          items ss ->
  mtraverse item_id_str items log = (Ok (map VStr ss), log).
Proof.
  intros H. induction H as [|it s items ss [k [d [i [-> [Hi Hs]]]]] _ IH]; [reflexivity|].
  cbn [mtraverse]. unfold bind at 1. rewrite (item_id_str_ok _ _ _ _ _ Hi Hs).
  unfold bind. rewrite IH. reflexivity.
Qed.

Lemma filter_eqb_single (x : string) (L : list string) :
  NoDup L -> In x L -> filter (fun t => String.eqb x t) L = [x].
Proof.
  induction L as [|a L IH]; simpl; intros Hnd Hin; [destruct Hin|].
  inversion Hnd as [|? ? Ha HL]; subst.
  destruct (String.eqb x a) eqn:E.
  - apply String.eqb_eq in E; subst a. f_equal.
    clear - Ha. induction L as [|b L IH]; simpl; [reflexivity|].
    destruct (String.eqb x b) eqn:E.
    + apply String.eqb_eq in E; subst. exfalso; apply Ha; left; reflexivity.
    + apply IH. intros H; apply Ha; right; exact H.
  - destruct Hin as [->|Hin]; [rewrite String.eqb_refl in E; discriminate|]. exact (IH HL Hin).
Qed.

Lemma unwrap_absent (q : dict) (t : string) (log : list event) :
  dmem t q = false -> unwrap_single q t log = (Ok q, log).
Proof. intros H. unfold unwrap_single. rewrite H. reflexivity. Qed.

Section RelatedOnly.
Variables (q q0 : dict) (pl sg : string) (items : list val) (ss : list string).
Hypothesis Hin : In (pl, sg) multi_terms.
Hypothesis Hpop : dpop pl q = Some (VList items, q0).
Hypothesis Hall : forall t, In t (map fst multi_terms ++ map snd multi_terms) -> t <> pl ->
                            dmem t q = false.
Hypothesis Hids : Forall2 (fun it s => exists k d i,
                             it = VEnt k d /\ dget "id" d = Some i /\ py_str i = Some s) items ss.

Lemma related_only_q0 (t : string) :
  In t (map snd multi_terms) -> t <> sg -> dmem t (dset sg (VList (map VStr ss)) q0) = false.
Proof.
  intros Ht Hts. destruct (multi_terms_shape _ _ Hin) as [_ [_ [_ [_ [_ [_ Hsp]]]]]].
  rewrite dmem_dset. destruct (String.eqb sg t) eqn:E; [apply String.eqb_eq in E; congruence|].
  simpl. unfold dmem. rewrite (dpop_dget _ _ _ _ _ Hpop).
  - fold (dmem t q). apply Hall; [apply in_or_app; right; exact Ht|exact (Hsp t Ht)].
  - apply String.eqb_neq. intros Ep. exact (Hsp t Ht (eq_sym Ep)).
Qed.

Lemma related_only_setup (log : list event) :
  process_related_model_searches q log =
  mfold unwrap_single (dset sg (VList (map VStr ss)) q0) ["language"; "translation"; "theme"] log.
Proof.
  destruct (multi_terms_shape _ _ Hin) as [_ [_ [_ [_ [_ [Hfs Hsp]]]]]].
  unfold process_related_model_searches.
  rewrite (rename_only q q0 pl sg (VList items)); [|exact Hin|exact Hpop|].
  2:{ intros t Ht Htp. apply Hall; [apply in_or_app; left; exact Ht|exact Htp]. }
  rewrite filter_only.
  2:{ intros t Ht Hts. pose proof (related_only_q0 t Ht Hts) as H.
      rewrite dmem_dset in H. apply orb_false_elim in H. exact (proj2 H). }
  rewrite filter_eqb_single.
  2:{ repeat constructor; simpl; intuition discriminate. }
  2:{ apply (in_map snd) in Hin. exact Hin. }
  cbn [mfold]. unfold ids_of_term.
  rewrite dget_dset, String.eqb_refl. simpl py_iter.
  unfold bind, lift, ret. cbv beta iota.
  cbn [py_iter]. cbv beta iota. rewrite (mtraverse_item_ids _ _ _ Hids). rewrite dset_dset. reflexivity.
Qed.

End RelatedOnly.

Lemma dmem_dset_other (t sg : string) (v : val) (q0 : dict) :
  dmem t (dset sg v q0) = false -> forall w, dmem t (dset sg w q0) = false.
Proof. intros H w. rewrite dmem_dset in *. exact H. Qed.

Lemma unwrap_present (q : dict) (t : string) (ss : list string) (log : list event) :
  dget t q = Some (VList (map VStr ss)) ->
  unwrap_single q t log =
  match ss with
  | [s] => (Ok (dset t (VStr s) q), log)
  | [] => (Exc IndexError, log)
  | _ => (Exc InvalidSearchFieldError, log)
  end.
Proof.
  intros H. unfold unwrap_single, dmem. rewrite H. unfold bind, lift, ret. cbv beta iota.
  simpl. destruct ss as [|s [|s2 r]]; reflexivity.
Qed.

(** X22. A search on one related-model field other than languages, translations
    and themes, given as a list of resources, is renamed to its singular
    key and sent as the list of the resources' ids as strings. *)
Theorem related_search_ids (q q0 : dict) (pl sg : string) (items : list val) (ss : list string)
    (log : list event) :
  In (pl, sg) multi_terms -> ~ In sg ["language"; "translation"; "theme"] ->
  dpop pl q = Some (VList items, q0) ->
  (forall t, In t (map fst multi_terms ++ map snd multi_terms) -> t <> pl -> dmem t q = false) ->
  Forall2 (fun it s => exists k d i, it = VEnt k d /\ dget "id" d = Some i /\ py_str i = Some s)
          items ss ->
  process_related_model_searches q log = (Ok (dset sg (VList (map VStr ss)) q0), log).
Proof.
  intros Hin Hns Hpop Hall Hids.
  rewrite (related_only_setup q q0 pl sg items ss Hin Hpop Hall Hids).
  assert (Ha : forall t, In t ["language"; "translation"; "theme"] ->
                 dmem t (dset sg (VList (map VStr ss)) q0) = false).
  { intros t Ht. apply (related_only_q0 q q0 pl sg items ss Hin Hpop Hall).
    - simpl in Ht |- *. intuition.
    - intros ->. exact (Hns Ht). }
  cbn [mfold]. unfold bind.
  rewrite unwrap_absent by (apply Ha; simpl; tauto).
  rewrite unwrap_absent by (apply Ha; simpl; tauto).
  rewrite unwrap_absent by (apply Ha; simpl; tauto). reflexivity.
Qed.

(** X23. A search on languages, translations or themes, given as a list of
    resources, is sent as the single id string when the list has one
    element; a longer list raises InvalidSearchFieldError and an empty list
    IndexError. *)
Theorem related_single_term (q q0 : dict) (pl sg : string) (items : list val) (ss : list string)
    (log : list event) :
  In (pl, sg) single_terms ->
  dpop pl q = Some (VList items, q0) ->
  (forall t, In t (map fst multi_terms ++ map snd multi_terms) -> t <> pl -> dmem t q = false) ->
  Forall2 (fun it s => exists k d i, it = VEnt k d /\ dget "id" d = Some i /\ py_str i = Some s)
          items ss ->
  process_related_model_searches q log =
  match ss with
  | [s] => (Ok (dset sg (VStr s) q0), log)
  | [] => (Exc IndexError, log)
  | _ => (Exc InvalidSearchFieldError, log)
  end.
Proof.
  intros Hs Hpop Hall Hids.
  assert (Hin : In (pl, sg) multi_terms)
    by (unfold single_terms, multi_terms in *; simpl in *; intuition).
  rewrite (related_only_setup q q0 pl sg items ss Hin Hpop Hall Hids).
  assert (Ha : forall t, In t ["language"; "translation"; "theme"] -> t <> sg ->
                 forall w, dmem t (dset sg w q0) = false).
  { intros t Ht Hts. apply dmem_dset_other with (v := VList (map VStr ss)).
    apply (related_only_q0 q q0 pl sg items ss Hin Hpop Hall); [simpl in Ht |- *; intuition|exact Hts]. }
  assert (Hg : dget sg (dset sg (VList (map VStr ss)) q0) = Some (VList (map VStr ss)))
    by (rewrite dget_dset, String.eqb_refl; reflexivity).
  cbn [mfold]. unfold single_terms in Hs.
  destruct Hs as [E|[E|[E|[]]]]; injection E as <- <-; unfold bind at 1.
  - rewrite (unwrap_present _ _ _ _ Hg).
    destruct ss as [|s [|s2 r]]; [reflexivity| |reflexivity]. rewrite dset_dset.
    unfold bind. rewrite unwrap_absent by (apply Ha; [simpl; tauto|discriminate]).
    rewrite unwrap_absent by (apply Ha; [simpl; tauto|discriminate]). reflexivity.
  - rewrite unwrap_absent by (apply Ha; [simpl; tauto|discriminate]).
    unfold bind at 1. rewrite (unwrap_present _ _ _ _ Hg).
    destruct ss as [|s [|s2 r]]; [reflexivity| |reflexivity]. rewrite dset_dset.
    unfold bind. rewrite unwrap_absent by (apply Ha; [simpl; tauto|discriminate]). reflexivity.
  - rewrite unwrap_absent by (apply Ha; [simpl; tauto|discriminate]).
    unfold bind at 1. rewrite unwrap_absent by (apply Ha; [simpl; tauto|discriminate]).
    unfold bind at 1. rewrite (unwrap_present _ _ _ _ Hg).
    destruct ss as [|s [|s2 r]]; [reflexivity| |reflexivity]. rewrite dset_dset. reflexivity.
Qed.

(** X24. A language search whose first entry is neither a Language nor a
    three-character string raises MalformedLanguageSearch, whatever follows
    it, and sends no request. *)
Theorem language_search_malformed (query : dict) (x : val) (rest : list val) (log : list event) :
  dget "languages" query = Some (VList (x :: rest)) -> is_kind Language x = false ->
  (forall s, x = VStr s -> String.length s <> 3%nat) ->
  Document_process_language_search query log = (Exc MalformedLanguageSearch, log).
Proof.
  intros H Hk Hs. unfold Document_process_language_search, bind, lift, ret. rewrite H.
  cbn [py_iter]. cbv beta iota. rewrite Hk.
  destruct x; try reflexivity.
  unfold raise. destruct (String.length s =? 3)%nat eqn:E; [|reflexivity].
  apply Nat.eqb_eq in E. exfalso. exact (Hs s eq_refl E).
Qed.


Lemma match_name_or_value_refused_witness :
  truthy (kwarg "name" subject_kw) || truthy (kwarg "value" subject_kw) = true /\
  exists e, MatchingMixin_match subject_tr Subject subject_kw {| w_log := []; w_gens := [] |} =
            (Exc e, {| w_log := []; w_gens := [] |}) /\
            (e = InvalidSearchFieldError \/ e = TypeError).
Proof.
  split; [reflexivity|].
  apply (match_name_or_value_refused subject_tr Subject subject_kw {| w_log := []; w_gens := [] |}).
  reflexivity.
Defined.

Lemma language_search_keeps_first_witness :
  Document_process_language_search [("languages", VList [VStr "eng"; VInt 1])] [] =
  (Ok (Some [("languages", VList [VEnt Language [("id", VStr "eng"); ("name", VSentinel)]])]), []).
Proof.
  apply (language_search_keeps_first [("languages", VList [VStr "eng"; VInt 1])] "eng" [VInt 1] []);
    reflexivity.
Defined.

Lemma Document_match_empty_languages_witness :
  Document_match_kwargs dates_tr [("languages", VList [])] [] = (Exc AttributeError, []).
Proof.
  apply (Document_match_empty_languages dates_tr [("languages", VList [])] []); reflexivity.
Defined.

Lemma search_params_record_witness :
  search_params "record" (Some record_params) [] =
    (Ok [("slug", VNone); ("collection", VStr "5"); ("q", VStr "t"); ("model", VStr "Record")], []) /\
  dget "model" [("slug", VNone); ("collection", VStr "5"); ("q", VStr "t"); ("model", VStr "Record")]
    = Some (VStr (capitalize "record")) /\
  (exists q, dget "q" [("slug", VNone); ("collection", VStr "5"); ("q", VStr "t");
                       ("model", VStr "Record")] = Some (VStr q)) /\
  Forall (fun f => dget f [("slug", VNone); ("collection", VStr "5"); ("q", VStr "t");
                           ("model", VStr "Record")] = None \/
                   dget f [("slug", VNone); ("collection", VStr "5"); ("q", VStr "t");
                           ("model", VStr "Record")] = Some VNone)
         ["name"; "title"; "description"; "slug"].
Proof.
  split; [vm_compute; reflexivity|].
  apply (search_params_record "record" record_params _ [] []).
  - cbn. repeat (apply NoDup_cons; [intros H; simpl in H; intuition discriminate|]).
    apply NoDup_nil.
  - reflexivity.
  - vm_compute. reflexivity.
Defined.

Lemma search_params_term_joins_witness :
  search_params "subject" (Some [("name", VStr "n"); ("value", VStr "v")]) [] =
    (Ok [("name", VStr "n"); ("value", VStr "v"); ("term", VStr "n v")], []) /\
  dget "term" [("name", VStr "n"); ("value", VStr "v"); ("term", VStr "n v")] = Some (VStr "n v") /\
  dget "name" [("name", VStr "n"); ("value", VStr "v"); ("term", VStr "n v")] = Some (VStr "n") /\
  dget "value" [("name", VStr "n"); ("value", VStr "v"); ("term", VStr "n v")] = Some (VStr "v").
Proof.
  split; [vm_compute; reflexivity|].
  apply (search_params_term_joins "subject" "n" "v" [("name", VStr "n"); ("value", VStr "v")]
           [("name", VStr "n"); ("value", VStr "v"); ("term", VStr "n v")] [] []);
    try reflexivity; try discriminate.
Defined.

Lemma search_params_related_id_witness :
  dget "collection" [("slug", VNone); ("collection", VStr "5"); ("q", VStr "t");
                     ("model", VStr "Record")] = Some (VStr "5").
Proof.
  apply (search_params_related_id "record" "collection" record_params
           [("slug", VNone); ("collection", VStr "5"); ("q", VStr "t"); ("model", VStr "Record")]
           [("id", VStr "5")] Collection (VStr "5") [] []).
  - simpl. tauto.
  - reflexivity.
  - reflexivity.
  - vm_compute. reflexivity.
Defined.

Lemma search_params_related_attr_error_witness :
  fst (search_params "record" (Some [("donor", VStr "12")]) []) = Exc AttributeError.
Proof.
  apply (search_params_related_attr_error "record" "donor" [("donor", VStr "12")] (VStr "12") []).
  - simpl. tauto.
  - reflexivity.
  - reflexivity.
  - intros k d. discriminate.
Defined.

Lemma drain_single_page_witness :
  gen_drain dates_tr 2 (GExpr Donor [VDict [("id", VStr "1"); ("name", VStr "a")]]) [] =
  Some (fst (mtraverse (parse_item Donor) [VDict [("id", VStr "1"); ("name", VStr "a")]] []),
        GDone, []).
Proof.
  apply drain_single_page. simpl. lia.
Defined.

Lemma matcher_by_id_witness :
  matcher_init dates_tr Subject (VInt 200) [("id", VStr "7")] [] =
  (Ok ([("id", VStr "7")], VInt 1, GExpr Subject [api_get dates_tr (VStr "subject") (VStr "7")]),
   [EGet (VStr "subject") (VStr "7")]).
Proof.
  apply (matcher_by_id dates_tr Subject (VInt 200) [("id", VStr "7")] (VStr "7") "subject" []);
    try reflexivity.
  intros t Ht. simpl in Ht. repeat destruct Ht as [<-|Ht]; try reflexivity. contradiction.
Defined.

Lemma matcher_search_single_page_witness :
  matcher_search dates_tr Collection (VInt 200) [] [] =
  (Ok ([("itemsPerPage", VInt 200)], VInt 1,
       GExpr Collection [VDict [("id", VStr "5"); ("name", VStr "c"); ("slug", VStr "c")]]),
   [ESearch "collection" [("itemsPerPage", VInt 200)]]).
Proof.
  apply (matcher_search_single_page dates_tr Collection 200 1 [] one_page [("totalItems", VInt 1)]
           _ "collection" []); try reflexivity.
  lia.
Defined.

Lemma date_search_open_end_witness :
  Document_process_date_searches dates_tr [("start_date", VStr "20200101")] [] =
  (Ok [("start_date", VStr "20200101"); ("end_date", VStr "20200517")], []).
Proof.
  rewrite (date_search_open_end dates_tr [("start_date", VStr "20200101")] "20200101" []
             eq_refl eq_refl eq_refl).
  vm_compute. reflexivity.
Defined.

Lemma date_search_open_start_witness :
  Document_process_date_searches dates_tr [("end_date", VStr "20200101")] [] =
  (Ok [("end_date", VStr "20200101"); ("start_date", VStr "19450101")], [EDateRange]).
Proof.
  rewrite (date_search_open_start dates_tr [("end_date", VStr "20200101")] [("begin", VStr "19450101")]
             "20200101" "19450101" 1945 1 1 [] eq_refl eq_refl eq_refl eq_refl eq_refl).
  - vm_compute. reflexivity.
  - vm_compute. reflexivity.
Defined.

Lemma format_date_round_trip_witness :
  _parse_date_range_start (VStr (format_date 1999 3 7)) = Some (VDate 1999 3 7).
Proof.
  apply format_date_round_trip; [lia|reflexivity].
Defined.

Lemma new_keys_witness :
  exists d, new MediaFile mediafile_kw = Some d /\
            keys d = (dataclass_fields MediaFile ++ ["url"])%list.
Proof.
  eexists. split; [vm_compute; reflexivity|].
  apply (new_keys MediaFile mediafile_kw). vm_compute. reflexivity.
Defined.

Lemma new_coverage_parent_children_witness :
  exists d p c, new Coverage coverage_kw = Some d /\ dget "parent" d = Some p /\
    dget "children" d = Some c /\
    (is_kind Coverage p = true \/ p = VNone \/ p = VSentinel) /\
    (c = VSentinel \/ exists x, py_index0 c = Some x /\ is_kind Coverage x = true).
Proof.
  do 3 eexists. split; [vm_compute; reflexivity|].
  split; [vm_compute; reflexivity|]. split; [vm_compute; reflexivity|].
  eapply (new_coverage_parent_children coverage_kw); vm_compute; reflexivity.
Defined.

Lemma new_dates_parsed_witness :
  exists d v, new Collection collection_kw = Some d /\ dget "source_created_at" d = Some v /\
    v = VDateTime 2019 1 2 "" /\ is_str v = false.
Proof.
  do 2 eexists. split; [vm_compute; reflexivity|].
  split; [vm_compute; reflexivity|]. split; [reflexivity|].
  eapply (new_dates_parsed Collection collection_kw _ "source_created_at").
  - vm_compute. reflexivity.
  - left. split; [left; reflexivity|simpl; tauto].
  - vm_compute. reflexivity.
Defined.

Lemma new_document_child_list_witness :
  exists d, new Document doc_kw = Some d /\
    exists l, dget "subjects" d = Some (VList l) /\ length l = 1%nat /\
              Forall (fun e => is_kind Subject e = true) l.
Proof.
  eexists. split; [vm_compute; reflexivity|].
  apply (new_document_child_list doc_kw _ "subjects" Subject [("id", VStr "7"); ("name", VStr "China")] []).
  - reflexivity.
  - reflexivity.
  - vm_compute. reflexivity.
Defined.

Lemma new_theme_featured_witness :
  exists d v, new Theme theme_kw = Some d /\ dget "featured_collections" d = Some v /\
    (v = VSentinel \/ exists l, v = VList l /\ Forall (fun c => is_kind Collection c = true) l).
Proof.
  do 2 eexists. split; [vm_compute; reflexivity|].
  split; [vm_compute; reflexivity|].
  eapply (new_theme_featured theme_kw); vm_compute; reflexivity.
Defined.

Lemma new_translation_language_witness :
  exists d, new Translation translation_kw = Some d /\
            exists l, dget "language" d = Some (VEnt Language l).
Proof.
  eexists. split; [vm_compute; reflexivity|].
  apply (new_translation_language translation_kw). vm_compute. reflexivity.
Defined.

Lemma new_mediafile_url_witness :
  exists d, new MediaFile mediafile_kw = Some d /\
            exists p, dget "path" d = Some p /\ dget "url" d = Some p.
Proof.
  eexists. split; [vm_compute; reflexivity|].
  apply (new_mediafile_url mediafile_kw). vm_compute. reflexivity.
Defined.

Lemma related_search_ids_witness :
  process_related_model_searches [("subjects", VList [VEnt Subject [("id", VStr "7")]])] [] =
  (Ok [("subject", VList [VStr "7"])], []).
Proof.
  apply (related_search_ids [("subjects", VList [VEnt Subject [("id", VStr "7")]])] []
           "subjects" "subject" [VEnt Subject [("id", VStr "7")]] ["7"] []).
  - simpl. tauto.
  - simpl. intuition discriminate.
  - reflexivity.
  - intros t _ Hne. unfold dmem. cbn [dget].
    destruct (String.eqb "subjects" t) eqn:E; [|reflexivity].
    apply String.eqb_eq in E. congruence.
  - constructor; [|constructor].
    exists Subject, [("id", VStr "7")], (VStr "7"). repeat split.
Defined.

Lemma related_single_term_witness :
  process_related_model_searches [("languages", VList [VEnt Language [("id", VStr "eng")]])] [] =
    (Ok [("language", VStr "eng")], []) /\
  process_related_model_searches
    [("themes", VList [VEnt Theme [("id", VStr "1")]; VEnt Theme [("id", VStr "2")]])] [] =
    (Exc InvalidSearchFieldError, []).
Proof.
  split.
  - apply (related_single_term [("languages", VList [VEnt Language [("id", VStr "eng")]])] []
             "languages" "language" [VEnt Language [("id", VStr "eng")]] ["eng"] []).
    + simpl. tauto.
    + reflexivity.
    + intros t _ Hne. unfold dmem. cbn [dget].
      destruct (String.eqb "languages" t) eqn:E; [|reflexivity].
      apply String.eqb_eq in E. congruence.
    + constructor; [|constructor].
      exists Language, [("id", VStr "eng")], (VStr "eng"). repeat split.
  - apply (related_single_term
             [("themes", VList [VEnt Theme [("id", VStr "1")]; VEnt Theme [("id", VStr "2")]])] []
             "themes" "theme" [VEnt Theme [("id", VStr "1")]; VEnt Theme [("id", VStr "2")]]
             ["1"; "2"] []).
    + simpl. tauto.
    + reflexivity.
    + intros t _ Hne. unfold dmem. cbn [dget].
      destruct (String.eqb "themes" t) eqn:E; [|reflexivity].
      apply String.eqb_eq in E. congruence.
    + constructor; [|constructor; [|constructor]].
      * exists Theme, [("id", VStr "1")], (VStr "1"). repeat split.
      * exists Theme, [("id", VStr "2")], (VStr "2"). repeat split.
Defined.

Lemma language_search_malformed_witness :
  Document_process_language_search [("languages", VList [VStr "en"])] [] =
  (Exc MalformedLanguageSearch, []).
Proof.
  apply (language_search_malformed [("languages", VList [VStr "en"])] (VStr "en") [] []).
  - reflexivity.
  - reflexivity.
  - intros s H. injection H as <-. discriminate.
Defined.

(** ** [first()], [all()] and [ResourceMatcher.hydrate()] *)










